(** * Battery dispatch scheduling: exact formulation, greedy heuristic, reporter

    A shallow embedding of the scheduling engines of the repository:

    - [SimplifiedOptimizer] (simplified_optimization.py): the sequential
      rule-based heuristic [optimize_greedy] and its [_calculate_revenue];
    - [GurobiEnergyOptimizer] (gurobi_energy_optimization.py): the
      mixed-integer formulation built by [build_and_solve], as the set of
      assignments that satisfy every constraint handed to the solver, its
      objective, and [extract_results];
    - [DaytimeStorageOptimizer] (daytime_storage_optimization.py):
      [optimize_daily], [_optimize_single_day] and [_calculate_revenue];
    - [optimize_daily] of greedy_discharge_v2.py;
    - the linear program of linear_programming_optimization.py.

    Numbers.  The Python code computes on IEEE doubles.  The embedding
    computes on exact rationals [Q] (equality is [==]); every branch
    condition, [min], [max], [abs] and [np.clip] is written as the code
    has it.  Concrete evaluations below are chosen with margins that are
    many orders of magnitude above rounding error; the inequalities
    proved for the heuristics hold of the doubles up to rounding.  A
    division by zero, on which Python raises, has the value 0 in [Q]:
    configurations with a zero efficiency or capacity are outside the
    model. *)

From Stdlib Require Import QArith Qround Lqa ZArith Bool List Lia.
Import ListNotations.

Local Open Scope Q_scope.

(** ** Python and numpy numeric primitives *)

(** [x < y] on numbers, as a boolean. *)
Definition Qltb (x y : Q) : bool :=
  (Qnum x * QDen y <? Qnum y * QDen x)%Z.

Infix "<?" := Qltb (at level 70, no associativity) : Q_scope.

(** [min(a, b)]: the first argument unless the second is strictly smaller. *)
Definition pymin (a b : Q) : Q := if b <? a then b else a.

(** [min(a, b, c)]: left to right, keeping the first smallest. *)
Definition pymin3 (a b c : Q) : Q := pymin (pymin a b) c.

(** [max(a, b)]: the first argument unless the second is strictly larger. *)
Definition pymax (a b : Q) : Q := if a <? b then b else a.

(** [abs(x)]. *)
Definition pyabs (x : Q) : Q := if x <? 0 then - x else x.

(** [np.clip(x, lo, hi)], that is [minimum(maximum(x, lo), hi)]. *)
Definition np_clip (x lo hi : Q) : Q :=
  let m := if x <? lo then lo else x in
  if hi <? m then hi else m.

(** ** Configuration and input data (shared by the optimizer classes)

    The constructor arguments of [SimplifiedOptimizer],
    [GurobiEnergyOptimizer] and [DaytimeStorageOptimizer]. *)

Record Config : Type := mkConfig {
  arg_lgc_price : Q;            (* AUD/MWh *)
  poa_to_power_ratio : Q;
  battery_max_charge : Q;       (* kW *)
  battery_max_discharge : Q;    (* kW *)
  battery_capacity : Q;         (* kWh *)
  charge_efficiency : Q;
  discharge_efficiency : Q;
  ramp_rate : Q;                (* kW/s *)
  initial_soc : Q               (* fraction of the capacity *)
}.

(** The attributes [__init__] stores on [self]. *)
Definition lgc_price (c : Config) : Q := arg_lgc_price c / 1000.
Definition P_charge_max (c : Config) : Q := battery_max_charge c.
Definition P_discharge_max (c : Config) : Q := battery_max_discharge c.
Definition E_capacity (c : Config) : Q := battery_capacity c.
Definition eta_c (c : Config) : Q := charge_efficiency c.
Definition eta_d (c : Config) : Q := discharge_efficiency c.
Definition dt : Q := 5 / 60.
Definition max_ramp (c : Config) : Q := ramp_rate c * 300.

(** The defaults of the constructors. *)
Definition default_config : Config :=
  mkConfig 10 3.79 250 250 1000 0.95 0.95 16.67 0.5.

(** One row of [self.data]: the columns ['poa'], ['rrp'] and ['pv_power']
    (the timestamp column takes no part in any computation below). *)
Record Row : Type := mkRow {
  poa : Q;
  rrp : Q;
  pv_power : Q
}.

(** The errors of the spec's taxonomy a loader could raise. *)
Inductive Error : Type := InvalidInput.

Inductive Outcome (A : Type) : Type :=
| Returned (a : A)
| Raised (e : Error).
Arguments Returned {A} a.
Arguments Raised {A} e.

(** ['pv_power'] = ['poa'] * poa_to_power_ratio / 1000. *)
Definition generation_power (c : Config) (irradiance : Q) : Q :=
  irradiance * poa_to_power_ratio c / 1000.

(** [load_data]: a raw record is the pair (POA, RRP) read from the file.
    [max_periods] is [None] or a count; a count of 0 is falsy and keeps
    everything.  The body has no [raise] and no check on the values. *)
Definition load_data (c : Config) (raw : list (Q * Q))
    (max_periods : option nat) : Outcome (list Row) :=
  let data :=
    map (fun r => mkRow (fst r) (snd r) (generation_power c (fst r))) raw in
  match max_periods with
  | Some (S k) => Returned (firstn (S k) data)
  | _ => Returned data
  end.

(** ** pandas [Series.quantile] (linear interpolation, the default)

    The sorted values are indexed at the fractional position
    [q * (n - 1)] and interpolated linearly between the two neighbours. *)

Fixpoint insert_sorted (x : Q) (l : list Q) : list Q :=
  match l with
  | [] => [x]
  | y :: l' => if y <? x then y :: insert_sorted x l' else x :: y :: l'
  end.

Definition sort_values (l : list Q) : list Q :=
  fold_right insert_sorted [] l.

Definition quantile (l : list Q) (q : Q) : Q :=
  let s := sort_values l in
  let h := q * (inject_Z (Z.of_nat (length s)) - 1) in
  let lo := Qfloor h in
  let hi := Qceiling h in
  let a := nth (Z.to_nat lo) s 0 in
  let b := nth (Z.to_nat hi) s 0 in
  a + (b - a) * (h - inject_Z lo).

(** ** [SimplifiedOptimizer.optimize_greedy] *)

(** One row of the result frame: the columns the loop writes. *)
Record Decision : Type := mkDecision {
  P_charge : Q;
  P_discharge : Q;
  P_grid_import : Q;
  P_grid_export : Q;
  SOC : Q;
  SOC_pct : Q
}.

Definition min_export_price (c : Config) : Q := - lgc_price c.

(** The decision logic of one iteration, before the ramp-rate block:
    the tentative [(P_charge, P_discharge, P_grid_import, P_grid_export)]. *)
Definition decide (c : Config) (rrp_25 rrp_75 soc pv price : Q)
    : Q * Q * Q * Q :=
  let headroom := (E_capacity c - soc) / (dt * eta_c c) in
  if price <? 0 then
    let P_grid_import := pymin (P_charge_max c) headroom in
    let P_charge := P_grid_import in
    let '(P_charge, pv_remaining) :=
      if P_charge <? P_charge_max c then
        let pv_to_battery :=
          pymin3 pv (P_charge_max c - P_charge) (headroom - P_charge) in
        (P_charge + pv_to_battery, pv - pv_to_battery)
      else (P_charge, pv) in
    let P_grid_export := if 0 <? pv_remaining then pv_remaining else 0 in
    (P_charge, 0, P_grid_import, P_grid_export)
  else if price <? rrp_25 then
    if soc <? 0.8 * E_capacity c then
      let pv_to_battery := pymin3 pv (P_charge_max c) headroom in
      let P_charge := pv_to_battery in
      let pv_remaining := pv - pv_to_battery in
      let '(P_grid_import, P_charge) :=
        if (price <? rrp_25 * 0.5) && (soc <? 0.3 * E_capacity c) then
          let grid_charge :=
            pymin (P_charge_max c - P_charge) (headroom - P_charge) in
          (grid_charge, P_charge + grid_charge)
        else (0, P_charge) in
      (P_charge, 0, P_grid_import, pv_remaining)
    else (0, 0, 0, pv)
  else if rrp_75 <? price then
    if (0.1 * E_capacity c <? soc) && (min_export_price c <? price) then
      let P_discharge := pymin (P_discharge_max c) (soc * eta_d c / dt) in
      (0, P_discharge, 0, pv + P_discharge)
    else (0, 0, 0, pv)
  else
    if min_export_price c <? price then (0, 0, 0, pv) else (0, 0, 0, 0).

(** The ramp-rate block: the export after the clamp against the previous
    period's export and the reduction to [available]. *)
Definition ramp_adjust (c : Config) (prev_grid_export pv P_discharge
    P_grid_export : Q) : Q :=
  if max_ramp c <? pyabs (P_grid_export - prev_grid_export) then
    let e :=
      if prev_grid_export <? P_grid_export
      then prev_grid_export + max_ramp c
      else pymax 0 (prev_grid_export - max_ramp c) in
    let available := pv + P_discharge in
    if available <? e then available else e
  else P_grid_export.

(** The state update [soc += ...; soc -= ...; soc = np.clip(...)]. *)
Definition soc_update (c : Config) (soc P_charge P_discharge : Q) : Q :=
  np_clip (soc + P_charge * dt * eta_c c - P_discharge * dt / eta_d c)
          0 (E_capacity c).

(** The body of [for t in range(self.n)]: from the running [soc] and
    [prev_grid_export] and the row, the row of results written. *)
Definition greedy_step (c : Config) (rrp_25 rrp_75 soc prev_grid_export : Q)
    (row : Row) : Decision :=
  let '(ch, dis, imp, ex) :=
    decide c rrp_25 rrp_75 soc (pv_power row) (rrp row) in
  let ex := ramp_adjust c prev_grid_export (pv_power row) dis ex in
  let soc := soc_update c soc ch dis in
  mkDecision ch dis imp ex soc (soc / E_capacity c * 100).

Fixpoint greedy_loop (c : Config) (rrp_25 rrp_75 soc prev_grid_export : Q)
    (rows : list Row) : list Decision :=
  match rows with
  | [] => []
  | row :: rest =>
      let d := greedy_step c rrp_25 rrp_75 soc prev_grid_export row in
      d :: greedy_loop c rrp_25 rrp_75 (SOC d) (P_grid_export d) rest
  end.

Definition optimize_greedy (c : Config) (data : list Row) : list Decision :=
  let soc := initial_soc c * E_capacity c in
  let rrp_25 := quantile (map rrp data) 0.25 in
  let rrp_75 := quantile (map rrp data) 0.75 in
  greedy_loop c rrp_25 rrp_75 soc 0 data.

(** The values the variable [soc] takes at the period boundaries: before
    the first iteration and after each one. *)
Definition soc_trace (c : Config) (data : list Row) : list Q :=
  initial_soc c * E_capacity c :: map SOC (optimize_greedy c data).

(** ** The reporter: [_calculate_revenue] and the totals of [print_summary] *)

Record Revenue : Type := mkRevenue {
  export_revenue : Q;
  import_cost : Q;
  lgc_revenue : Q;
  net_revenue : Q
}.

(** [SimplifiedOptimizer._calculate_revenue], one row of the frame; the
    revenue lines of [GurobiEnergyOptimizer.extract_results] are the same. *)
Definition calculate_revenue (c : Config) (row : Row) (d : Decision)
    : Revenue :=
  let export_revenue := P_grid_export d * dt * rrp row in
  let import_cost := P_grid_import d * dt * rrp row in
  let lgc_revenue := pv_power row * dt * lgc_price c in
  mkRevenue export_revenue import_cost lgc_revenue
            (export_revenue - import_cost + lgc_revenue).

(** [Series.sum()]. *)
Definition Qsum (l : list Q) : Q := fold_right Qplus 0 l.

(** The sum of [f 0 .. f (n-1)], and a count as a number. *)
Definition sum_upto (n : nat) (f : nat -> Q) : Q := Qsum (map f (seq 0 n)).

Definition qnat (n : nat) : Q := inject_Z (Z.of_nat n).

(** [r['net_revenue'].sum()] over the frame of rows and decisions. *)
Definition total_net_revenue (c : Config) (data : list Row)
    (decisions : list Decision) : Q :=
  Qsum (map (fun rd => net_revenue (calculate_revenue c (fst rd) (snd rd)))
            (combine data decisions)).

(** ** [GurobiEnergyOptimizer.build_and_solve]

    The solver is an external library.  What the program fixes is the
    model it hands over: variables with bounds, the objective and the
    constraints.  A schedule the exact engine produces is an assignment
    of the variables that passes every check below. *)

Module Gurobi.

(** The values ([.X]) of the variables created by [model.addVars]. *)
Record Solution : Type := mkSolution {
  P_charge : nat -> Q;
  P_discharge : nat -> Q;
  P_grid_import : nat -> Q;
  P_grid_export : nat -> Q;
  SOC : nat -> Q;
  is_charging : nat -> bool;       (* vtype=GRB.BINARY *)
  is_discharging : nat -> bool     (* vtype=GRB.BINARY *)
}.

Definition bin (b : bool) : Q := if b then 1 else 0.

Definition row_at (data : list Row) (t : nat) : Row :=
  nth t data (mkRow 0 0 0).

Definition periods (data : list Row) : list nat := seq 0 (length data).

(** [lb]/[ub] of [addVars]. *)
Definition var_bounds (c : Config) (data : list Row) (s : Solution) : bool :=
  forallb (fun t =>
      Qle_bool 0 (P_charge s t) && Qle_bool (P_charge s t) (P_charge_max c)
   && Qle_bool 0 (P_discharge s t)
   && Qle_bool (P_discharge s t) (P_discharge_max c)
   && Qle_bool 0 (P_grid_import s t)
   && Qle_bool 0 (P_grid_export s t)) (periods data)
  && forallb (fun t =>
      Qle_bool 0 (SOC s t) && Qle_bool (SOC s t) (E_capacity c))
     (seq 0 (length data + 1)).

(** 1. ["initial_soc"]. *)
Definition c_initial_soc (c : Config) (s : Solution) : bool :=
  Qeq_bool (SOC s 0%nat) (initial_soc c * E_capacity c).

(** 2. ["soc_balance_t"]. *)
Definition c_soc_balance (c : Config) (s : Solution) (t : nat) : bool :=
  Qeq_bool (SOC s (t + 1)%nat)
           (SOC s t + P_charge s t * dt * eta_c c
                    - P_discharge s t * dt / eta_d c).

(** 3. ["power_balance_t"]. *)
Definition c_power_balance (data : list Row) (s : Solution) (t : nat)
    : bool :=
  let pv := pv_power (row_at data t) in
  Qeq_bool (pv + P_discharge s t + P_grid_import s t)
           (P_charge s t + P_grid_export s t).

(** 4. ["no_simul_charge_discharge_t"], ["charge_logic_t"],
    ["discharge_logic_t"]. *)
Definition big_M (c : Config) : Q := pymax (P_charge_max c) (P_discharge_max c).

Definition c_no_simul (c : Config) (s : Solution) (t : nat) : bool :=
  Qle_bool (bin (is_charging s t) + bin (is_discharging s t)) 1
  && Qle_bool (P_charge s t) (big_M c * bin (is_charging s t))
  && Qle_bool (P_discharge s t) (big_M c * bin (is_discharging s t)).

(** 5. ["ramp_up_t"], ["ramp_down_t"], for [t] in [range(1, n)]. *)
Definition c_ramp (c : Config) (s : Solution) (t : nat) : bool :=
  Qle_bool (P_grid_export s t - P_grid_export s (t - 1)%nat) (max_ramp c)
  && Qle_bool (P_grid_export s (t - 1)%nat - P_grid_export s t) (max_ramp c).

(** 6. ["min_price_t"], added only where [rrp < min_export_price]. *)
Definition c_min_price (c : Config) (data : list Row) (s : Solution)
    (t : nat) : bool :=
  if rrp (row_at data t) <? min_export_price c
  then Qeq_bool (P_grid_export s t) 0
  else true.

Definition feasibleb (c : Config) (data : list Row) (s : Solution) : bool :=
  var_bounds c data s
  && c_initial_soc c s
  && forallb (c_soc_balance c s) (periods data)
  && forallb (c_power_balance data s) (periods data)
  && forallb (c_no_simul c s) (periods data)
  && forallb (c_ramp c s) (seq 1 (length data - 1))
  && forallb (c_min_price c data s) (periods data).

Definition feasible (c : Config) (data : list Row) (s : Solution) : Prop :=
  feasibleb c data s = true.

(** [obj_expr], maximised. *)
Definition objective (c : Config) (data : list Row) (s : Solution) : Q :=
  Qsum (map (fun t =>
              let row := row_at data t in
              P_grid_export s t * dt * rrp row
              - P_grid_import s t * dt * rrp row
              + pv_power row * dt * lgc_price c)
            (periods data)).

(** The exact maxima: accepted assignments that no accepted assignment
    beats. *)
Definition optimal (c : Config) (data : list Row) (s : Solution) : Prop :=
  feasible c data s /\
  forall s', feasible c data s' -> objective c data s' <= objective c data s.

(** The assignments the solver may report with status [OPTIMAL] under
    [MIPGap = mip_gap]: accepted by every constraint, with an objective
    within the relative gap of a bound that no accepted assignment
    exceeds ([|ObjBound - ObjVal| <= mip_gap * |ObjVal|]; the absolute
    gap [MIPGapAbs], 1e-10 by default, is left out). *)
Definition solved_within (mip_gap : Q) (c : Config) (data : list Row)
    (s : Solution) : Prop :=
  feasible c data s /\
  exists bound,
    (forall s', feasible c data s' -> objective c data s' <= bound) /\
    pyabs (bound - objective c data s)
      <= mip_gap * pyabs (objective c data s).

(** The default [mip_gap=0.01] of [build_and_solve]. *)
Definition default_mip_gap : Q := 0.01.

(** [extract_results]: the columns copied from the variables, one row per
    [t] in [range(self.n)] (the state column holds [SOC[t]], the value
    at the start of period [t]). *)
Definition extract_results (c : Config) (data : list Row) (s : Solution)
    : list Decision :=
  map (fun t => mkDecision (P_charge s t) (P_discharge s t)
                           (P_grid_import s t) (P_grid_export s t)
                           (SOC s t) (SOC s t / E_capacity c * 100))
      (periods data).

End Gurobi.

(** ** The linear program of linear_programming_optimization.py (PuLP)

    A script: the configuration is the class [OptimizationConfig], the
    unknowns are energies per period, and the run stops unless the
    solver reports ['Optimal']. *)

Module PuLP.

Definition NEL : Q := 3880.
Definition NIL : Q := 670.
Definition BATTERY_MAX_DISCHARGE_POWER : Q := 2400.
Definition BATTERY_CAPACITY : Q := 4000.
Definition CHARGE_EFFICIENCY : Q := 0.95.
Definition DISCHARGE_EFFICIENCY : Q := 0.95.
Definition LGC : Q := - 10.
Definition PV_CAPACITY : Q := 1000.
Definition POA_TO_POWER_RATIO : Q := 0.17.
Definition INTERVAL_HOURS : Q := 5 / 60.

(** A row of [df_filtered]: the columns ['RRP'] and ['POA']. *)
Record Row : Type := mkRow {
  RRP : Q;
  POA : Q
}.

Definition PV_Power_kW (r : Row) : Q :=
  POA r * PV_CAPACITY * POA_TO_POWER_RATIO / 1000.
Definition PV_Energy_kWh (r : Row) : Q := PV_Power_kW r * INTERVAL_HOURS.

Definition row_at (data : list Row) (t : nat) : Row :=
  nth t data (mkRow 0 0).

Definition T (data : list Row) : list nat := seq 0 (length data).

(** The values of the [LpVariable]s. *)
Record Solution : Type := mkSolution {
  charge_grid : nat -> Q;
  charge_pv : nat -> Q;
  discharge : nat -> Q;
  soc : nat -> Q;
  export_pv : nat -> Q;
  export_battery : nat -> Q;
  curtail : nat -> Q
}.

Definition between (lo x hi : Q) : bool := Qle_bool lo x && Qle_bool x hi.

(** [lowBound]/[upBound] of the variables. *)
Definition var_bounds (data : list Row) (s : Solution) (t : nat) : bool :=
  let pv := PV_Energy_kWh (row_at data t) in
  between 0 (charge_grid s t) (NIL * INTERVAL_HOURS)
  && between 0 (charge_pv s t) pv
  && between 0 (discharge s t) (BATTERY_MAX_DISCHARGE_POWER * INTERVAL_HOURS)
  && between 0 (soc s t) BATTERY_CAPACITY
  && between 0 (export_pv s t) pv
  && Qle_bool 0 (export_battery s t)
  && between 0 (curtail s t) pv.

(** 1. ["PV_Balance_t"]. *)
Definition c_pv_balance (data : list Row) (s : Solution) (t : nat) : bool :=
  Qeq_bool (charge_pv s t + export_pv s t + curtail s t)
           (PV_Energy_kWh (row_at data t)).

(** 2. ["SOC_Initial"] for [t == 0], ["SOC_t"] otherwise. *)
Definition c_soc (s : Solution) (t : nat) : bool :=
  match t with
  | O =>
      Qeq_bool (soc s t)
        ((charge_pv s t + charge_grid s t) * CHARGE_EFFICIENCY
         - discharge s t / DISCHARGE_EFFICIENCY)
  | S t' =>
      Qeq_bool (soc s t)
        (soc s t'
         + (charge_pv s t + charge_grid s t) * CHARGE_EFFICIENCY
         - discharge s t / DISCHARGE_EFFICIENCY)
  end.

(** 3. ["Battery_Export_t"]. *)
Definition c_battery_export (s : Solution) (t : nat) : bool :=
  Qeq_bool (export_battery s t) (discharge s t * DISCHARGE_EFFICIENCY).

(** 4. ["NEL_Limit_t"]. *)
Definition c_nel (s : Solution) (t : nat) : bool :=
  Qle_bool ((export_pv s t + export_battery s t) / INTERVAL_HOURS) NEL.

(** 5. ["LGC_PV_t"], ["LGC_Battery_t"], added only where [RRP <= LGC]. *)
Definition c_lgc (data : list Row) (s : Solution) (t : nat) : bool :=
  if Qle_bool (RRP (row_at data t)) LGC
  then Qeq_bool (export_pv s t) 0 && Qeq_bool (export_battery s t) 0
  else true.

Definition feasibleb (data : list Row) (s : Solution) : bool :=
  forallb (fun t => var_bounds data s t && c_pv_balance data s t
                    && c_soc s t && c_battery_export s t && c_nel s t
                    && c_lgc data s t) (T data).

Definition feasible (data : list Row) (s : Solution) : Prop :=
  feasibleb data s = true.

(** [lpSum(revenue_terms) - lpSum(cost_terms)], maximised. *)
Definition objective (data : list Row) (s : Solution) : Q :=
  Qsum (map (fun t => (export_pv s t + export_battery s t)
                      * RRP (row_at data t) / 1000) (T data))
  - Qsum (map (fun t => charge_grid s t * RRP (row_at data t) / 1000)
              (T data)).

(** The assignments reported with status ['Optimal']; the script exits
    on any other status. *)
Definition optimal (data : list Row) (s : Solution) : Prop :=
  feasible data s /\
  forall s', feasible data s' -> objective data s' <= objective data s.

End PuLP.

(** ** [DaytimeStorageOptimizer._calculate_revenue] *)

Module Daytime.

(** One row of the result frame of [optimize_daily]: it has the extra
    column ['P_pv_curtail']. *)
Record Decision : Type := mkDecision {
  P_charge : Q;
  P_discharge : Q;
  P_grid_import : Q;
  P_grid_export : Q;
  P_pv_curtail : Q;
  SOC : Q
}.

Definition calculate_revenue (c : Config) (row : Row) (d : Decision)
    : Revenue :=
  let export_revenue := P_grid_export d * dt * rrp row in
  let import_cost := P_grid_import d * dt * rrp row in
  let lgc_revenue :=
    (P_grid_export d + P_pv_curtail d) * dt * lgc_price c in
  mkRevenue export_revenue import_cost lgc_revenue
            (export_revenue - import_cost + lgc_revenue).

End Daytime.

(** ** [optimize_daily] of greedy_discharge_v2.py (day-partitioned ranking) *)

Module GreedyV2.

(** [OptimizationConfig]. *)
Definition NEL : Q := 4440.
Definition NIL : Q := 670.
Definition BATTERY_CAPACITY : Q := 5504.
Definition BATTERY_MAX_CHARGE_POWER : Q := 2752.
Definition BATTERY_MAX_DISCHARGE_POWER : Q := 2752.
Definition CHARGE_EFFICIENCY : Q := 0.95.
Definition DISCHARGE_EFFICIENCY : Q := 0.95.
Definition LGC : Q := - 10.
Definition POA_CHARGE_THRESHOLD : Q := 10.
Definition POA_DAYTIME_THRESHOLD : Q := 5.
Definition INTERVAL_HOURS : Q := 5 / 60.

(** A row of the frame [df]; [index] is its label (the position in the
    frame sorted by timestamp). *)
Record Row : Type := mkRow {
  index : nat;
  RRP_MWh : Q;
  POA : Q;
  PV_Energy_kWh : Q;
  PV_Power_kW : Q
}.

Definition Can_Charge (r : Row) : bool := POA_CHARGE_THRESHOLD <? POA r.
Definition Is_Daytime (r : Row) : bool := POA_DAYTIME_THRESHOLD <? POA r.

Inductive Action : Type :=
| Charging | Battery_Empty | Price_Too_Low | PV_Only | PV_Battery_Mix
| Battery_Only | PV_Only_Idle | Error.

(** An entry of [day_results]. *)
Record Result : Type := mkResult {
  r_index : nat;
  Charge_PV_kWh : Q;
  Charge_Grid_kWh : Q;
  Discharge_kWh : Q;
  Export_PV_kWh : Q;
  Export_Battery_kWh : Q;
  Curtail_kWh : Q;
  SOC_kWh : Q;
  action : Action
}.

(** [sort_values('RRP_MWh')] and [sort_values('RRP_MWh', ascending=False)].
    pandas does not fix the order of rows with equal prices; the model
    keeps them in frame order. *)
Fixpoint insert_asc (x : Row) (l : list Row) : list Row :=
  match l with
  | [] => [x]
  | y :: l' =>
      if RRP_MWh x <? RRP_MWh y then x :: y :: l' else y :: insert_asc x l'
  end.

Fixpoint insert_desc (x : Row) (l : list Row) : list Row :=
  match l with
  | [] => [x]
  | y :: l' =>
      if RRP_MWh y <? RRP_MWh x then x :: y :: l' else y :: insert_desc x l'
  end.

Definition sort_asc (l : list Row) : list Row :=
  fold_left (fun acc x => insert_asc x acc) l [].
Definition sort_desc (l : list Row) : list Row :=
  fold_left (fun acc x => insert_desc x acc) l [].

(** The handling of generation that is not stored: exported when the
    price is above [LGC], curtailed otherwise. *)
Definition pv_only (price pv : Q) : Q * Q :=
  if LGC <? price then
    let export_pv := pymin pv (NEL * INTERVAL_HOURS) in
    (export_pv, pymax 0 (pv - export_pv))
  else (0, pv).

(** Phase 1, the body of the loop over the chargeable rows. *)
Definition charge_row (soc : Q) (row : Row) : Result :=
  let available_capacity := BATTERY_CAPACITY - soc in
  let max_charge_power := BATTERY_MAX_CHARGE_POWER * INTERVAL_HOURS in
  let pv_available := PV_Energy_kWh row in
  let charge_from_pv :=
    pymin3 pv_available max_charge_power
           (available_capacity / CHARGE_EFFICIENCY) in
  let remaining_power := max_charge_power - charge_from_pv in
  let remaining_capacity :=
    available_capacity - charge_from_pv * CHARGE_EFFICIENCY in
  let charge_from_grid :=
    if (0.01 <? remaining_capacity) && (0.01 <? remaining_power) then
      let max_grid := NIL * INTERVAL_HOURS in
      pymin3 max_grid remaining_power (remaining_capacity / CHARGE_EFFICIENCY)
    else 0 in
  let total_charge := charge_from_pv + charge_from_grid in
  let soc := soc + total_charge * CHARGE_EFFICIENCY in
  let remaining_pv := pv_available - charge_from_pv in
  let '(export_pv, curtail) := pv_only (RRP_MWh row) remaining_pv in
  mkResult (index row) charge_from_pv charge_from_grid 0 export_pv 0
           curtail soc Charging.

(** Phase 1, the loop with its [break] once the battery is full. *)
Fixpoint charge_loop (rows : list Row) (soc : Q) : list Result * Q :=
  match rows with
  | [] => ([], soc)
  | row :: rest =>
      if soc <? BATTERY_CAPACITY * 0.999 then
        let r := charge_row soc row in
        let '(rs, soc_end) := charge_loop rest (SOC_kWh r) in
        (r :: rs, soc_end)
      else ([], soc)
  end.

(** Phase 2, the body of the loop over the discharge candidates: the
    entry appended and the running [soc] it leaves (a [Battery_Empty]
    entry records 0 and leaves the variable as it is). *)
Definition discharge_row (soc : Q) (row : Row) : Result * Q :=
  if 0.01 <? soc then
    if LGC <? RRP_MWh row then
      let pv_power := PV_Power_kW row in
      let '(discharge_energy, export_pv, curtail, act) :=
        if Is_Daytime row then
          if pv_power <? NEL then
            let export_pv := pv_power * INTERVAL_HOURS in
            let needed_power := NEL - pv_power in
            let max_discharge_power :=
              pymin BATTERY_MAX_DISCHARGE_POWER needed_power in
            let max_discharge_energy := max_discharge_power * INTERVAL_HOURS in
            let available_energy := soc * DISCHARGE_EFFICIENCY in
            let discharge_energy :=
              pymin max_discharge_energy
                    (available_energy / DISCHARGE_EFFICIENCY) in
            (discharge_energy, export_pv, PV_Energy_kWh row - export_pv,
             PV_Battery_Mix)
          else
            let export_pv := NEL * INTERVAL_HOURS in
            (0, export_pv, PV_Energy_kWh row - export_pv, PV_Only)
        else
          let max_discharge_energy :=
            BATTERY_MAX_DISCHARGE_POWER * INTERVAL_HOURS in
          let available_energy := soc * DISCHARGE_EFFICIENCY in
          let discharge_energy :=
            pymin max_discharge_energy
                  (available_energy / DISCHARGE_EFFICIENCY) in
          (discharge_energy, 0, PV_Energy_kWh row, Battery_Only) in
      let soc := soc - discharge_energy / DISCHARGE_EFFICIENCY in
      let soc := pymax 0 soc in
      let export_battery := discharge_energy * DISCHARGE_EFFICIENCY in
      (mkResult (index row) 0 0 discharge_energy export_pv export_battery
                curtail soc act, soc)
    else
      (mkResult (index row) 0 0 0 0 0 (PV_Energy_kWh row) soc Price_Too_Low,
       soc)
  else
    let '(export_pv, curtail) := pv_only (RRP_MWh row) (PV_Energy_kWh row) in
    (mkResult (index row) 0 0 0 export_pv 0 curtail 0 Battery_Empty, soc).

Fixpoint discharge_loop (rows : list Row) (soc : Q) : list Result * Q :=
  match rows with
  | [] => ([], soc)
  | row :: rest =>
      let '(r, soc) := discharge_row soc row in
      let '(rs, soc_end) := discharge_loop rest soc in
      (r :: rs, soc_end)
  end.

Definition has_index (i : nat) (l : list nat) : bool :=
  existsb (Nat.eqb i) l.

(** Phase 3, the rows no phase has handled. *)
Definition idle_row (soc : Q) (row : Row) : Result :=
  let '(export_pv, curtail) := pv_only (RRP_MWh row) (PV_Energy_kWh row) in
  mkResult (index row) 0 0 0 export_pv 0 curtail soc PV_Only_Idle.

Definition optimize_daily (day_data next_day_data : list Row) (soc_start : Q)
    : list Result * Q :=
  let soc := soc_start in
  (* phase 1 *)
  let chargeable := filter Can_Charge day_data in
  let '(charged, soc) :=
    if (0 <? length chargeable)%nat && (soc <? BATTERY_CAPACITY)
    then charge_loop (sort_asc chargeable) soc
    else ([], soc) in
  let charged_indices := map r_index charged in
  (* phase 2 *)
  let combined :=
    if (0 <? length next_day_data)%nat then day_data ++ next_day_data
    else day_data in
  let daytime := filter Is_Daytime combined in
  let '(discharged, soc) :=
    match daytime with
    | [] => ([], soc)
    | first :: _ =>
        let first_daytime_idx := index first in
        let last_daytime_idx := index (last daytime first) in
        let discharge_window :=
          filter (fun r => (first_daytime_idx <=? index r)%nat
                           && (index r <=? last_daytime_idx)%nat) combined in
        let discharge_candidates :=
          filter (fun r => has_index (index r) (map index day_data)
                           && negb (has_index (index r) charged_indices))
                 discharge_window in
        if (0 <? length discharge_candidates)%nat && (0.01 <? soc)
        then discharge_loop (sort_desc discharge_candidates) soc
        else ([], soc)
    end in
  let day_results := charged ++ discharged in
  (* phase 3 *)
  let processed_indices := map r_index day_results in
  let idle :=
    map (idle_row soc)
        (filter (fun r => negb (has_index (index r) processed_indices))
                day_data) in
  (day_results ++ idle, soc).

(** The driver: the days in order, the state carried from one day to the
    next, and each row of the day paired with its entry of [day_results]
    (or with the fallback entry). *)
Definition merge_row (day_results : list Result) (soc : Q) (row : Row)
    : Result :=
  match find (fun r => Nat.eqb (r_index r) (index row)) day_results with
  | Some r => r
  | None => mkResult (index row) 0 0 0 0 0 (PV_Energy_kWh row) soc Error
  end.

Fixpoint run_days (days : list (list Row)) (soc : Q) : list Result :=
  match days with
  | [] => []
  | day_data :: rest =>
      let next_day_data := hd [] rest in
      let '(day_results, soc_end) := optimize_daily day_data next_day_data soc in
      map (merge_row day_results soc) day_data ++ run_days rest soc_end
  end.

Definition run (days : list (list Row)) : list Result :=
  run_days days (BATTERY_CAPACITY * 0.5).

(** The state lies within the battery; the generation of every row is
    not negative. *)
Definition within_battery (soc : Q) : Prop :=
  0 <= soc <= BATTERY_CAPACITY.

Definition nonneg_generation (rows : list Row) : Prop :=
  forall r, In r rows -> 0 <= PV_Energy_kWh r.

End GreedyV2.

(** ** Schedules produced by the two engines *)

(** A schedule over [data] under [c] comes from the exact engine (the
    results extracted from an assignment the solver accepts) or from the
    heuristic engine. *)
Inductive produced (c : Config) (data : list Row) : list Decision -> Prop :=
| produced_exact (s : Gurobi.Solution) :
    Gurobi.feasible c data s ->
    produced c data (Gurobi.extract_results c data s)
| produced_heuristic :
    produced c data (optimize_greedy c data).

(** The heuristic's schedule read as an assignment of the variables of
    the exact formulation: the powers of each period, the state at each
    period boundary, and the binaries set where the battery charges or
    discharges. *)
Definition heuristic_assignment (c : Config) (data : list Row)
    : Gurobi.Solution :=
  let entry t := nth t (optimize_greedy c data) (mkDecision 0 0 0 0 0 0) in
  Gurobi.mkSolution
    (fun t => P_charge (entry t)) (fun t => P_discharge (entry t))
    (fun t => P_grid_import (entry t)) (fun t => P_grid_export (entry t))
    (fun t => nth t (soc_trace c data) 0)
    (fun t => 0 <? P_charge (entry t))
    (fun t => 0 <? P_discharge (entry t)).

(** ** Concrete configurations, inputs and assignments *)

(** The defaults with a ramp rate of 0.001 kW/s, 0.3 kW per period. *)
Definition tight_ramp_config : Config :=
  mkConfig 10 3.79 250 250 1000 0.95 0.95 0.001 0.5.

(** The frame [load_data] leaves in [self.data]. *)
Definition rows_of (c : Config) (raw : list (Q * Q)) : list Row :=
  match load_data c raw None with
  | Returned data => data
  | Raised _ => []
  end.

(** Three sunny periods (POA 1000 W/m2) at prices 0.05, 0.10, 0.01. *)
Definition falling_price_rows : list Row :=
  rows_of tight_ramp_config [(1000, 0.05); (1000, 0.10); (1000, 0.01)].

(** Two sunny periods and a dark one, all at price 0.05. *)
Definition sunset_rows : list Row :=
  rows_of tight_ramp_config [(1000, 0.05); (1000, 0.05); (0, 0.05)].

(** One sunny period at price -0.05 AUD/kWh, below the floor of -0.01. *)
Definition below_floor_rows : list Row :=
  rows_of default_config [(1000, - 0.05)].

(** One sunny period at price -0.005 AUD/kWh, above the floor. *)
Definition mild_negative_rows : list Row :=
  rows_of tight_ramp_config [(1000, - 0.005)].

(** An assignment for [mild_negative_rows]: charge at full power, import
    what generation does not cover, export nothing. *)
Definition full_charge_assignment : Gurobi.Solution :=
  Gurobi.mkSolution
    (fun _ => 250) (fun _ => 0) (fun _ => 246.21) (fun _ => 0)
    (fun t => match t with O => 500 | _ => 500 + 250 * dt * 0.95 end)
    (fun _ => true) (fun _ => false).

(** 77 dark periods at -5 AUD/MWh for the linear program, and a plan
    that imports at the limit throughout and discharges in period 1
    what the battery cannot hold by the end. *)
Definition paid_charging_day : list PuLP.Row :=
  repeat (PuLP.mkRow (- 5) 0) 77.

Definition paid_charging_plan : PuLP.Solution :=
  let G := PuLP.NIL * PuLP.INTERVAL_HOURS in
  let x := 0.95 * (0.95 * (77 * G) - 4000) in
  let d := fun t => match t with 1%nat => x | _ => 0 end in
  PuLP.mkSolution
    (fun _ => G) (fun _ => 0) d
    (fun t => 0.95 * (qnat (S t) * G)
              - (match t with O => 0 | _ => x end) / 0.95)
    (fun _ => 0) (fun t => d t * 0.95) (fun _ => 0).

(** Two days for the day-partitioned heuristic: a sunny and a dark period
    each (index, RRP, POA, PV energy, PV power). *)
Definition sunny_then_dark_days : list (list GreedyV2.Row) :=
  [ [ GreedyV2.mkRow 0 50 800 240 2880;
      GreedyV2.mkRow 1 120 0 0 0 ];
    [ GreedyV2.mkRow 2 (- 20) 600 180 2160;
      GreedyV2.mkRow 3 80 0 0 0 ] ].

(** One day of a single row for the day-partitioned heuristic: the
    irradiance allows charging, the generation column is negative. *)
Definition negative_generation_days : list (list GreedyV2.Row) :=
  [ [ GreedyV2.mkRow 0 50 100 (- 3000) (- 36000) ] ].

(** The defaults with a negative battery capacity. *)
Definition negative_capacity_config : Config :=
  mkConfig 10 3.79 250 250 (- 1) 0.95 0.95 16.67 0.5.

(** Two sunny periods at price 0.05, an assignment that passes the
    generation through to the grid, and one that also discharges at full
    power. *)
Definition steady_rows : list Row :=
  rows_of default_config [(1000, 0.05); (1000, 0.05)].

Definition pass_through_assignment : Gurobi.Solution :=
  Gurobi.mkSolution
    (fun _ => 0) (fun _ => 0) (fun _ => 0) (fun _ => 3.79)
    (fun _ => 500) (fun _ => false) (fun _ => false).

Definition full_discharge_assignment : Gurobi.Solution :=
  Gurobi.mkSolution
    (fun _ => 0) (fun _ => 250) (fun _ => 0) (fun _ => 253.79)
    (fun t => 500 - qnat t * (250 * dt / 0.95))
    (fun _ => false) (fun _ => true).

(** ** [DaytimeStorageOptimizer.optimize_daily] and [_optimize_single_day]

    The constructor takes the arguments of the other optimizers and a
    minimum export price in AUD/MWh.  A day is the list of its rows in
    frame order; a row is addressed by its position in the day. *)

Module DaytimeOptimizer.

Record Params : Type := mkParams {
  base : Config;
  arg_min_export_price : Q          (* AUD/MWh *)
}.

Definition min_export_price (p : Params) : Q := arg_min_export_price p / 1000.

Inductive Action : Type :=
| idle | charging | pv_export | curtail | discharging.

(** The columns written for a row. *)
Record Entry : Type := mkEntry {
  decision : Daytime.Decision;
  SOC_pct : Q;
  action : Action
}.

(** [sort_values('rrp')] on the rows with POA above 10, each with its
    position (rows of equal price are kept in frame order). *)
Fixpoint insert_by_rrp (x : nat * Row) (l : list (nat * Row))
    : list (nat * Row) :=
  match l with
  | [] => [x]
  | y :: l' =>
      if rrp (snd x) <? rrp (snd y) then x :: y :: l'
      else y :: insert_by_rrp x l'
  end.

Definition sort_by_rrp (l : list (nat * Row)) : list (nat * Row) :=
  fold_left (fun acc x => insert_by_rrp x acc) l [].

(** Phase 2: the cheapest daytime periods, taken until the energy they
    can charge reaches the free capacity ([break] before a period when
    the target is met, and after one when 99.9% of it is). *)
Fixpoint select_charging (p : Params) (sorted : list (nat * Row))
    (target_charge_energy accumulated_charge : Q) : list nat :=
  match sorted with
  | [] => []
  | (idx, row) :: rest =>
      if accumulated_charge <? target_charge_energy then
        let max_charge_this_period :=
          pymin (P_charge_max (base p) * dt)
                (target_charge_energy - accumulated_charge) in
        let pv_energy := pv_power row * dt in
        let accumulated_charge :=
          if pv_energy <? max_charge_this_period
          then accumulated_charge + pv_energy
          else accumulated_charge + max_charge_this_period in
        idx ::
        (if accumulated_charge <? target_charge_energy * 0.999
         then select_charging p rest target_charge_energy accumulated_charge
         else [])
      else []
  end.

Definition zero_decision (soc : Q) : Daytime.Decision :=
  Daytime.mkDecision 0 0 0 0 0 soc.

(** Phase 3, the body of the loop over the rows of the day, before the
    ramp block: [(P_charge, P_discharge, P_grid_import, P_grid_export,
    P_pv_curtail, action)]. *)
Definition decide (p : Params) (rrp_75 : Q) (is_charging_period : bool)
    (soc : Q) (row : Row) : Q * Q * Q * Q * Q * Action :=
  let c := base p in
  let pv_power := pv_power row in
  if is_charging_period then
    let available_capacity := E_capacity c - soc in
    let max_charge_power :=
      pymin (P_charge_max c) (available_capacity / (dt * eta_c c)) in
    if pv_power <? max_charge_power then
      let pv_to_battery := pv_power in
      let nil_power :=
        pymin (max_charge_power - pv_to_battery)
              (P_charge_max c - pv_to_battery) in
      (pv_to_battery + nil_power, 0, nil_power, 0, 0, charging)
    else
      let excess_power := pv_power - max_charge_power in
      if min_export_price p <? rrp row
      then (max_charge_power, 0, 0, excess_power, 0, charging)
      else (max_charge_power, 0, 0, 0, excess_power, charging)
  else if 5 <? poa row then
    if min_export_price p <? rrp row
    then (0, 0, 0, pv_power, 0, pv_export)
    else (0, 0, 0, 0, pv_power, curtail)
  else
    if (rrp_75 <? rrp row) && (0.1 * E_capacity c <? soc) then
      let max_discharge_power :=
        pymin (P_discharge_max c) (soc * eta_d c / dt) in
      (0, max_discharge_power, 0, max_discharge_power, 0, discharging)
    else (0, 0, 0, 0, 0, idle).

(** The ramp-rate block (no reduction to the available power here). *)
Definition ramp_adjust (c : Config) (prev_grid_export P_grid_export : Q) : Q :=
  if max_ramp c <? pyabs (P_grid_export - prev_grid_export) then
    if prev_grid_export <? P_grid_export
    then prev_grid_export + max_ramp c
    else pymax 0 (prev_grid_export - max_ramp c)
  else P_grid_export.

Definition step (p : Params) (rrp_75 : Q) (charging_periods : list nat)
    (soc prev_grid_export : Q) (idx : nat) (row : Row) : Entry :=
  let '(ch, dis, imp, ex, cu, act) :=
    decide p rrp_75 (existsb (Nat.eqb idx) charging_periods) soc row in
  let ex := ramp_adjust (base p) prev_grid_export ex in
  let soc := soc_update (base p) soc ch dis in
  mkEntry (Daytime.mkDecision ch dis imp ex cu soc)
          (soc / E_capacity (base p) * 100) act.

Fixpoint day_loop (p : Params) (rrp_75 : Q) (charging_periods : list nat)
    (soc prev_grid_export : Q) (rows : list (nat * Row))
    : list Entry * Q :=
  match rows with
  | [] => ([], soc)
  | (idx, row) :: rest =>
      let e := step p rrp_75 charging_periods soc prev_grid_export idx row in
      let '(es, soc_end) :=
        day_loop p rrp_75 charging_periods
                 (Daytime.SOC (decision e))
                 (Daytime.P_grid_export (decision e)) rest in
      (e :: es, soc_end)
  end.

(** [_optimize_single_day] from the state it starts with: the entries
    of the day, and the value stored in [self._prev_day_soc] if the day
    stores one (a day with no POA above 10 returns early and stores
    none). *)
Definition optimize_single_day (p : Params) (day_data : list Row) (soc : Q)
    : list Entry * option Q :=
  let indexed := combine (seq 0 (length day_data)) day_data in
  let daytime_periods := filter (fun ir => 10 <? poa (snd ir)) indexed in
  match daytime_periods with
  | [] =>
      (map (fun _ => mkEntry (zero_decision soc)
                             (soc / E_capacity (base p) * 100) idle)
           day_data, None)
  | _ :: _ =>
      let daytime_periods_sorted := sort_by_rrp daytime_periods in
      let target_charge_energy := E_capacity (base p) - soc in
      let charging_periods :=
        select_charging p daytime_periods_sorted target_charge_energy 0 in
      let rrp_75 := quantile (map rrp day_data) 0.75 in
      let '(entries, soc_end) :=
        day_loop p rrp_75 charging_periods soc 0 indexed in
      (entries, Some soc_end)
  end.

(** The state a day starts with: the configured initial state for the
    first day, otherwise [self._prev_day_soc] when some earlier day has
    stored it. *)
Definition start_soc (p : Params) (day_idx : nat) (prev_day_soc : option Q)
    : Q :=
  match day_idx, prev_day_soc with
  | S _, Some soc => soc
  | _, _ => initial_soc (base p) * E_capacity (base p)
  end.

Fixpoint days_loop (p : Params) (day_idx : nat) (prev_day_soc : option Q)
    (days : list (list Row)) : list Entry :=
  match days with
  | [] => []
  | day_data :: rest =>
      let soc := start_soc p day_idx prev_day_soc in
      let '(entries, stored) := optimize_single_day p day_data soc in
      let prev_day_soc :=
        match stored with Some s => Some s | None => prev_day_soc end in
      entries ++ days_loop p (S day_idx) prev_day_soc rest
  end.

(** [optimize_daily] on a fresh optimizer. *)
Definition optimize_daily (p : Params) (days : list (list Row)) : list Entry :=
  days_loop p 0 None days.

End DaytimeOptimizer.

(** ** Definitions for the further properties *)

(** A configuration with a non-negative capacity and power limits,
    positive efficiencies and an initial state between empty and full. *)
Definition physical (c : Config) : Prop :=
  0 <= E_capacity c /\ 0 <= P_charge_max c /\ 0 <= P_discharge_max c /\
  0 < eta_c c /\ 0 < eta_d c /\ 0 <= initial_soc c <= 1.

(** The plan of the linear program that leaves the battery alone and
    curtails the whole generation of every period. *)
Definition curtail_everything (data : list PuLP.Row) : PuLP.Solution :=
  PuLP.mkSolution (fun _ => 0) (fun _ => 0) (fun _ => 0) (fun _ => 0)
    (fun _ => 0) (fun _ => 0)
    (fun t => PuLP.PV_Energy_kWh (PuLP.row_at data t)).

(** The state of the linear program before period [t]: the battery is
    empty before the first period (["SOC_Initial"]). *)
Definition lp_state_before (s : PuLP.Solution) (t : nat) : Q :=
  match t with
  | O => 0
  | S t' => PuLP.soc s t'
  end.

(** Three periods for the linear program, the first and the last priced
    below the LGC price of -10 AUD/MWh, and a plan that stores the
    generation of the first period and discharges 0.5 kWh in the
    second. *)
Definition lgc_day : list PuLP.Row :=
  [PuLP.mkRow (- 20) 100; PuLP.mkRow 50 100; PuLP.mkRow (- 20) 0].

Definition lgc_plan : PuLP.Solution :=
  PuLP.mkSolution
    (fun _ => 0)
    (fun t => match t with O => 17 / 12 | _ => 0 end)
    (fun t => match t with 1%nat => 0.5 | _ => 0 end)
    (fun t => match t with
              | O => 17 / 12 * 0.95
              | _ => 17 / 12 * 0.95 - 0.5 / 0.95
              end)
    (fun t => match t with 1%nat => 17 / 12 | _ => 0 end)
    (fun t => match t with 1%nat => 0.5 * 0.95 | _ => 0 end)
    (fun _ => 0).

(** A frame of the linear-programming script with one negative
    irradiance. *)
Definition negative_irradiance_day : list PuLP.Row :=
  [PuLP.mkRow 50 100; PuLP.mkRow 50 (- 100)].

(** An entry of [day_results] was computed from [row]: by the charging
    loop (only rows with [Can_Charge]), by the discharge loop, or by the
    loop over the remaining rows. *)
Definition entry_of (row : GreedyV2.Row) (r : GreedyV2.Result) : Prop :=
  exists soc,
    (GreedyV2.Can_Charge row = true /\ r = GreedyV2.charge_row soc row)
    \/ r = fst (GreedyV2.discharge_row soc row)
    \/ r = GreedyV2.idle_row soc row.

(** An entry of the daytime optimizer within the limits of the
    battery. *)
Definition daytime_within (p : DaytimeOptimizer.Params)
    (e : DaytimeOptimizer.Entry) : Prop :=
  let c := DaytimeOptimizer.base p in
  let d := DaytimeOptimizer.decision e in
  0 <= Daytime.SOC d <= E_capacity c /\
  Daytime.P_charge d <= P_charge_max c /\
  Daytime.P_discharge d <= P_discharge_max c /\
  (0 < Daytime.P_charge d -> Daytime.P_discharge d == 0) /\
  (0 < Daytime.P_discharge d -> Daytime.P_charge d == 0).

(** The daytime optimizer with the defaults of its constructor, a day
    with two sunny periods between two dark ones, and an overcast day. *)
Definition daytime_params : DaytimeOptimizer.Params :=
  DaytimeOptimizer.mkParams (mkConfig 10 3.79 250 250 1000 0.95 0.95 16.67 0)
                            (- 10).

Definition sunny_day : list Row :=
  rows_of (DaytimeOptimizer.base daytime_params)
    [(0, 0.2); (500, 0.03); (800, - 0.02); (3, 0.3)].

Definition overcast_day : list Row :=
  rows_of (DaytimeOptimizer.base daytime_params) [(4, 0.1); (2, 0.5)].

(** ** [SimplifiedOptimizer.print_summary]

    The figures it prints from the frame of rows and decisions.  The
    round-trip line appears only when something was charged, the
    negative-price block only when some period has a negative price.
    On an empty frame [iloc[-1]] raises, which is [None] here. *)

Record Summary : Type := mkSummary {
  total_revenue : Q;
  total_export_rev : Q;
  total_import_cost : Q;
  total_lgc : Q;
  total_pv_energy : Q;
  total_export : Q;
  total_import : Q;
  total_charge : Q;
  total_discharge : Q;
  round_trip_pct : option Q;
  final_soc_pct : Q;
  min_soc_pct : Q;
  max_soc_pct : Q;
  charge_periods : nat;
  discharge_periods : nat;
  (* periods, energy bought, benefit *)
  negative_price : option (nat * Q * Q)
}.

(** [Series.min] and [Series.max] of a series with first value [x]. *)
Definition series_min (x : Q) (l : list Q) : Q := fold_left pymin l x.
Definition series_max (x : Q) (l : list Q) : Q := fold_left pymax l x.

Definition print_summary (c : Config) (data : list Row)
    (decisions : list Decision) : option Summary :=
  let r := combine data decisions in
  let revenue := fun rd => calculate_revenue c (fst rd) (snd rd) in
  let total_revenue := Qsum (map (fun rd => net_revenue (revenue rd)) r) in
  let total_export_rev :=
    Qsum (map (fun rd => export_revenue (revenue rd)) r) in
  let total_import_cost := Qsum (map (fun rd => import_cost (revenue rd)) r) in
  let total_lgc := Qsum (map (fun rd => lgc_revenue (revenue rd)) r) in
  let total_pv_energy := Qsum (map (fun rd => pv_power (fst rd)) r) * dt in
  let total_export := Qsum (map (fun rd => P_grid_export (snd rd)) r) * dt in
  let total_import := Qsum (map (fun rd => P_grid_import (snd rd)) r) * dt in
  let total_charge := Qsum (map (fun rd => P_charge (snd rd) * dt) r) in
  let total_discharge := Qsum (map (fun rd => P_discharge (snd rd) * dt) r) in
  match map (fun rd => SOC_pct (snd rd)) r with
  | [] => None
  | s0 :: rest =>
      let neg_periods := filter (fun rd => rrp (fst rd) <? 0) r in
      Some (mkSummary
        total_revenue total_export_rev total_import_cost total_lgc
        total_pv_energy total_export total_import
        total_charge total_discharge
        (if 0 <? total_charge
         then Some (total_discharge / total_charge * 100) else None)
        (last rest s0) (series_min s0 rest) (series_max s0 rest)
        (length (filter (fun rd => 1 <? P_charge (snd rd)) r))
        (length (filter (fun rd => 1 <? P_discharge (snd rd)) r))
        (if (0 <? length neg_periods)%nat
         then Some (length neg_periods,
                    Qsum (map (fun rd => P_grid_import (snd rd)) neg_periods)
                    * dt,
                    - Qsum (map (fun rd => import_cost (revenue rd))
                              neg_periods))
         else None))
  end.

(** * Properties *)

(** ** Comparisons and the numeric primitives *)

Lemma Qltb_spec (x y : Q) : reflect (x < y) (x <? y).
Proof. unfold Qltb, Qlt. apply Z.ltb_spec0. Qed.

Ltac qcases :=
  repeat match goal with
  | |- context [Qltb ?a ?b] => destruct (Qltb_spec a b)
  | H : context [Qltb ?a ?b] |- _ => destruct (Qltb_spec a b)
  end.

Lemma pymin_le_l a b : pymin a b <= a.
Proof. unfold pymin. qcases; lra. Qed.

Lemma pymin_le_r a b : pymin a b <= b.
Proof. unfold pymin. qcases; lra. Qed.

Lemma pymin_glb a b x : x <= a -> x <= b -> x <= pymin a b.
Proof. unfold pymin. qcases; lra. Qed.

Lemma pymax_ge_l a b : a <= pymax a b.
Proof. unfold pymax. qcases; lra. Qed.

Lemma pymax_ge_r a b : b <= pymax a b.
Proof. unfold pymax. qcases; lra. Qed.

Lemma np_clip_bounds x lo hi : lo <= hi -> lo <= np_clip x lo hi <= hi.
Proof. unfold np_clip. cbv zeta. qcases; lra. Qed.

Lemma dt_pos : 0 < dt.
Proof. reflexivity. Qed.

(** ** What an accepted assignment satisfies, constraint by constraint *)

Section ExactConstraints.

Variables (c : Config) (data : list Row) (s : Gurobi.Solution).
Hypothesis Hfeas : Gurobi.feasible c data s.

Let n := length data.

Lemma in_periods t : (t < n)%nat -> In t (Gurobi.periods data).
Proof. intros Ht. unfold Gurobi.periods. apply in_seq. subst n. lia. Qed.

Ltac split_feasible :=
  let H := fresh "H" in
  pose proof Hfeas as H;
  unfold Gurobi.feasible, Gurobi.feasibleb, Gurobi.var_bounds in H;
  repeat rewrite andb_true_iff in H;
  repeat rewrite forallb_forall in H.

Lemma exact_power_bounds t : (t < n)%nat ->
  0 <= Gurobi.P_charge s t <= P_charge_max c /\
  0 <= Gurobi.P_discharge s t <= P_discharge_max c /\
  0 <= Gurobi.P_grid_import s t /\
  0 <= Gurobi.P_grid_export s t.
Proof.
  intros Ht. split_feasible.
  destruct H as [[[[[[[Hb _] _] _] _] _] _] _].
  specialize (Hb t (in_periods t Ht)).
  repeat rewrite andb_true_iff in Hb.
  repeat rewrite Qle_bool_iff in Hb. tauto.
Qed.

Lemma exact_soc_bounds t : (t <= n)%nat ->
  0 <= Gurobi.SOC s t <= E_capacity c.
Proof.
  intros Ht. split_feasible.
  destruct H as [[[[[[[_ Hb] _] _] _] _] _] _].
  assert (Hin : In t (seq 0 (length data + 1))) by (apply in_seq; subst n; lia).
  specialize (Hb t Hin).
  rewrite andb_true_iff in Hb. repeat rewrite Qle_bool_iff in Hb. exact Hb.
Qed.

Lemma exact_initial_soc :
  Gurobi.SOC s 0%nat == initial_soc c * E_capacity c.
Proof.
  split_feasible.
  destruct H as [[[[[[_ Hi] _] _] _] _] _].
  apply Qeq_bool_iff. exact Hi.
Qed.

Lemma exact_soc_balance t : (t < n)%nat ->
  Gurobi.SOC s (t + 1)%nat ==
  Gurobi.SOC s t + Gurobi.P_charge s t * dt * eta_c c
                 - Gurobi.P_discharge s t * dt / eta_d c.
Proof.
  intros Ht. split_feasible.
  destruct H as [[[[[_ Hb] _] _] _] _].
  apply Qeq_bool_iff. apply Hb. apply in_periods. exact Ht.
Qed.

Lemma exact_power_balance t : (t < n)%nat ->
  pv_power (Gurobi.row_at data t) + Gurobi.P_discharge s t
    + Gurobi.P_grid_import s t
  == Gurobi.P_charge s t + Gurobi.P_grid_export s t.
Proof.
  intros Ht. split_feasible.
  destruct H as [[[[_ Hb] _] _] _].
  apply Qeq_bool_iff. apply (Hb t). apply in_periods. exact Ht.
Qed.

Lemma exact_big_M t : (t < n)%nat ->
  Gurobi.bin (Gurobi.is_charging s t) + Gurobi.bin (Gurobi.is_discharging s t)
    <= 1 /\
  Gurobi.P_charge s t <= Gurobi.big_M c * Gurobi.bin (Gurobi.is_charging s t) /\
  Gurobi.P_discharge s t
    <= Gurobi.big_M c * Gurobi.bin (Gurobi.is_discharging s t).
Proof.
  intros Ht. split_feasible.
  destruct H as [[[_ Hb] _] _].
  specialize (Hb t (in_periods t Ht)). unfold Gurobi.c_no_simul in Hb.
  repeat rewrite andb_true_iff in Hb.
  repeat rewrite Qle_bool_iff in Hb. tauto.
Qed.

Lemma exact_ramp t : (1 <= t)%nat -> (t < n)%nat ->
  Gurobi.P_grid_export s t - Gurobi.P_grid_export s (t - 1)%nat <= max_ramp c /\
  Gurobi.P_grid_export s (t - 1)%nat - Gurobi.P_grid_export s t <= max_ramp c.
Proof.
  intros H1 Ht. split_feasible.
  destruct H as [[_ Hb] _].
  assert (Hin : In t (seq 1 (length data - 1))) by (apply in_seq; subst n; lia).
  specialize (Hb t Hin). unfold Gurobi.c_ramp in Hb.
  rewrite andb_true_iff in Hb. repeat rewrite Qle_bool_iff in Hb. exact Hb.
Qed.

Lemma exact_min_price t : (t < n)%nat ->
  rrp (Gurobi.row_at data t) < min_export_price c ->
  Gurobi.P_grid_export s t == 0.
Proof.
  intros Ht Hp. split_feasible.
  destruct H as [_ Hb].
  specialize (Hb t (in_periods t Ht)). unfold Gurobi.c_min_price in Hb.
  destruct (Qltb_spec (rrp (Gurobi.row_at data t)) (min_export_price c)).
  - apply Qeq_bool_iff. exact Hb.
  - contradiction.
Qed.

(** Mutual exclusion, from the three big-M constraints and the lower
    bounds of the variables. *)
Lemma exact_exclusive t : (t < n)%nat ->
  (0 < Gurobi.P_charge s t -> Gurobi.P_discharge s t == 0) /\
  (0 < Gurobi.P_discharge s t -> Gurobi.P_charge s t == 0).
Proof.
  intros Ht.
  destruct (exact_power_bounds t Ht) as [Hc [Hd _]].
  destruct (exact_big_M t Ht) as [Hs [Hmc Hmd]].
  unfold Gurobi.bin in *.
  destruct (Gurobi.is_charging s t), (Gurobi.is_discharging s t);
    split; intros Hpos; lra.
Qed.

End ExactConstraints.

Lemma extract_results_nth c data s t d :
  nth_error (Gurobi.extract_results c data s) t = Some d ->
  (t < length data)%nat /\
  d = mkDecision (Gurobi.P_charge s t) (Gurobi.P_discharge s t)
                 (Gurobi.P_grid_import s t) (Gurobi.P_grid_export s t)
                 (Gurobi.SOC s t) (Gurobi.SOC s t / E_capacity c * 100).
Proof.
  unfold Gurobi.extract_results, Gurobi.periods. intros H.
  assert (Hlt : (t < length data)%nat).
  { assert (Hn : nth_error (map (fun t0 => mkDecision (Gurobi.P_charge s t0)
        (Gurobi.P_discharge s t0) (Gurobi.P_grid_import s t0)
        (Gurobi.P_grid_export s t0) (Gurobi.SOC s t0)
        (Gurobi.SOC s t0 / E_capacity c * 100)) (seq 0 (length data))) t
        <> None) by congruence.
    apply nth_error_Some in Hn. rewrite length_map, length_seq in Hn.
    exact Hn. }
  split; [exact Hlt|].
  rewrite nth_error_map, nth_error_seq in H.
  apply Nat.ltb_lt in Hlt. rewrite Hlt in H. simpl in H.
  now inversion H.
Qed.

(** ** One iteration of the heuristic *)

Section GreedyStep.

Variable c : Config.
Variables rrp_25 rrp_75 : Q.

(** Every branch of the decision logic leaves one of charge and
    discharge at its initial [0.0]. *)
Lemma decide_exclusive soc pv price :
  let '(ch, dis, _, _) := decide c rrp_25 rrp_75 soc pv price in
  (0 < ch -> dis == 0) /\ (0 < dis -> ch == 0).
Proof.
  unfold decide. cbv zeta.
  destruct (Qltb_spec price 0).
  { destruct (Qltb_spec (pymin (P_charge_max c)
       ((E_capacity c - soc) / (dt * eta_c c))) (P_charge_max c));
      split; intros; lra. }
  destruct (Qltb_spec price rrp_25).
  { destruct (Qltb_spec soc (0.8 * E_capacity c)).
    - destruct ((price <? rrp_25 * 0.5) && (soc <? 0.3 * E_capacity c));
        split; intros; lra.
    - split; intros; lra. }
  destruct (Qltb_spec rrp_75 price).
  { destruct ((0.1 * E_capacity c <? soc) && (min_export_price c <? price));
      split; intros; lra. }
  destruct (Qltb_spec (min_export_price c) price); split; intros; lra.
Qed.

Lemma greedy_step_exclusive soc prev row :
  let d := greedy_step c rrp_25 rrp_75 soc prev row in
  (0 < P_charge d -> P_discharge d == 0) /\
  (0 < P_discharge d -> P_charge d == 0).
Proof.
  unfold greedy_step.
  pose proof (decide_exclusive soc (pv_power row) (rrp row)) as H.
  destruct (decide c rrp_25 rrp_75 soc (pv_power row) (rrp row))
    as [[[ch dis] imp] ex].
  exact H.
Qed.

(** The state written for a period is the recurrence applied to the
    running state and to the charge and discharge written for it. *)
Lemma greedy_step_soc soc prev row :
  let d := greedy_step c rrp_25 rrp_75 soc prev row in
  SOC d = soc_update c soc (P_charge d) (P_discharge d).
Proof.
  unfold greedy_step.
  destruct (decide c rrp_25 rrp_75 soc (pv_power row) (rrp row))
    as [[[ch dis] imp] ex].
  reflexivity.
Qed.

Lemma greedy_step_soc_bounds soc prev row :
  0 <= E_capacity c ->
  0 <= SOC (greedy_step c rrp_25 rrp_75 soc prev row) <= E_capacity c.
Proof.
  intros Hcap. rewrite greedy_step_soc. unfold soc_update.
  apply np_clip_bounds. exact Hcap.
Qed.

End GreedyStep.

(** ** The loop of the heuristic *)

(** The row written at position [t] is one iteration of the body, run
    from the state and the export the previous iteration left. *)
Lemma greedy_loop_nth c r25 r75 rows : forall soc prev t d,
  nth_error (greedy_loop c r25 r75 soc prev rows) t = Some d ->
  exists soc' prev' row,
    nth_error rows t = Some row /\
    d = greedy_step c r25 r75 soc' prev' row.
Proof.
  induction rows as [|row rest IH]; intros soc prev t d H.
  - destruct t; discriminate.
  - destruct t as [|t]; simpl in H.
    + inversion H. exists soc, prev, row. split; reflexivity.
    + apply IH in H. destruct H as (soc' & prev' & row' & Hr & Hd).
      exists soc', prev', row'. split; assumption.
Qed.

Lemma greedy_loop_length c r25 r75 rows : forall soc prev,
  length (greedy_loop c r25 r75 soc prev rows) = length rows.
Proof.
  induction rows as [|row rest IH]; intros; simpl; [reflexivity|].
  now rewrite IH.
Qed.

(** Division by a numeric constant, rewritten as a multiplication. *)
Ltac qconst :=
  unfold Qdiv in *;
  repeat match goal with
  | |- context [Qinv (Qmake ?n ?d)] =>
      let v := eval cbv in (Qinv (Qmake n d)) in
      change (Qinv (Qmake n d)) with v
  | H : context [Qinv (Qmake ?n ?d)] |- _ =>
      let v := eval cbv in (Qinv (Qmake n d)) in
      change (Qinv (Qmake n d)) with v in H
  end.

(** ** The day-partitioned heuristic keeps the state within the battery *)

Section DayPartitioned.

Import GreedyV2.

Lemma charge_row_bounds soc row :
  0 <= soc -> soc < BATTERY_CAPACITY * 0.999 -> 0 <= PV_Energy_kWh row ->
  within_battery (SOC_kWh (charge_row soc row)).
Proof.
  intros H0 H1 Hpv. unfold within_battery, charge_row. cbv zeta.
  destruct (pv_only _ _) as [e cu]. simpl.
  unfold pymin3, pymin, BATTERY_CAPACITY, BATTERY_MAX_CHARGE_POWER,
    CHARGE_EFFICIENCY, INTERVAL_HOURS, NIL in *.
  qcases; simpl; qconst; lra.
Qed.

Lemma charge_loop_bounds rows : forall soc,
  within_battery soc -> nonneg_generation rows ->
  Forall (fun r => within_battery (SOC_kWh r)) (fst (charge_loop rows soc))
  /\ within_battery (snd (charge_loop rows soc)).
Proof.
  induction rows as [|row rest IH]; intros soc Hs Hpv; simpl.
  - split; [constructor | exact Hs].
  - destruct (Qltb_spec soc (BATTERY_CAPACITY * 0.999)) as [Hlt|Hge].
    + assert (Hr : within_battery (SOC_kWh (charge_row soc row))).
      { apply charge_row_bounds; [apply Hs | exact Hlt |].
        apply Hpv. now left. }
      destruct (IH (SOC_kWh (charge_row soc row)) Hr) as [Hall Hend].
      { intros r Hin. apply Hpv. now right. }
      destruct (charge_loop rest (SOC_kWh (charge_row soc row))) as [rs e].
      simpl in *. split; [constructor; assumption | exact Hend].
    + simpl. split; [constructor | exact Hs].
Qed.

Lemma discharge_row_bounds soc row :
  within_battery soc ->
  within_battery (SOC_kWh (fst (discharge_row soc row)))
  /\ within_battery (snd (discharge_row soc row)).
Proof.
  intros [H0 H1]. unfold within_battery, discharge_row. cbv zeta.
  destruct (Qltb_spec 0.01 soc) as [Hs|Hs].
  - destruct (Qltb_spec LGC (RRP_MWh row)).
    + destruct (Is_Daytime row).
      * destruct (Qltb_spec (PV_Power_kW row) NEL); simpl;
          unfold pymax, pymin, BATTERY_CAPACITY, BATTERY_MAX_DISCHARGE_POWER,
            DISCHARGE_EFFICIENCY, INTERVAL_HOURS, NEL in *;
          qcases; qconst; lra.
      * simpl.
        unfold pymax, pymin, BATTERY_CAPACITY, BATTERY_MAX_DISCHARGE_POWER,
          DISCHARGE_EFFICIENCY, INTERVAL_HOURS in *;
          qcases; qconst; lra.
    + simpl. lra.
  - destruct (pv_only _ _) as [e cu]. simpl.
    unfold BATTERY_CAPACITY in *. lra.
Qed.

Lemma discharge_loop_bounds rows : forall soc,
  within_battery soc ->
  Forall (fun r => within_battery (SOC_kWh r)) (fst (discharge_loop rows soc))
  /\ within_battery (snd (discharge_loop rows soc)).
Proof.
  induction rows as [|row rest IH]; intros soc Hs; simpl.
  - split; [constructor | exact Hs].
  - destruct (discharge_row_bounds soc row Hs) as [Hr Hs'].
    destruct (discharge_row soc row) as [r soc']. simpl in *.
    destruct (IH soc' Hs') as [Hall Hend].
    destruct (discharge_loop rest soc') as [rs e]. simpl in *.
    split; [constructor; assumption | exact Hend].
Qed.

Lemma insert_asc_In x y l : In x (insert_asc y l) -> x = y \/ In x l.
Proof.
  induction l as [|z l IH]; simpl.
  - intros [H|[]]; auto.
  - destruct (RRP_MWh y <? RRP_MWh z); simpl.
    + intros [H|[H|H]]; auto.
    + intros [H|H]; auto. destruct (IH H); auto.
Qed.

Lemma sort_asc_In x l : In x (sort_asc l) -> In x l.
Proof.
  unfold sort_asc.
  assert (G : forall l acc, In x (fold_left (fun a y => insert_asc y a) l acc)
                            -> In x acc \/ In x l).
  { clear l. induction l as [|y l IH]; simpl; intros acc H; auto.
    destruct (IH _ H) as [H'|H']; auto.
    destruct (insert_asc_In _ _ _ H'); auto. }
  intros H. destruct (G l [] H) as [[]|H']; exact H'.
Qed.

Lemma optimize_daily_bounds day_data next_day_data soc_start :
  within_battery soc_start -> nonneg_generation day_data ->
  Forall (fun r => within_battery (SOC_kWh r))
         (fst (optimize_daily day_data next_day_data soc_start))
  /\ within_battery (snd (optimize_daily day_data next_day_data soc_start)).
Proof.
  intros Hs Hpv. unfold optimize_daily. cbv zeta.
  set (chargeable := filter Can_Charge day_data).
  assert (Hch :
    let p := if (0 <? length chargeable)%nat && (soc_start <? BATTERY_CAPACITY)
             then charge_loop (sort_asc chargeable) soc_start
             else ([], soc_start) in
    Forall (fun r => within_battery (SOC_kWh r)) (fst p)
    /\ within_battery (snd p)).
  { destruct ((0 <? length chargeable)%nat && (soc_start <? BATTERY_CAPACITY)).
    - apply charge_loop_bounds; [exact Hs|].
      intros r Hin. apply sort_asc_In in Hin. apply filter_In in Hin.
      apply Hpv. tauto.
    - simpl. split; [constructor | exact Hs]. }
  cbv zeta in Hch.
  destruct (if (0 <? length chargeable)%nat && (soc_start <? BATTERY_CAPACITY)
            then charge_loop (sort_asc chargeable) soc_start
            else ([], soc_start)) as [charged soc1].
  simpl in Hch. destruct Hch as [Hcharged Hsoc1].
  match goal with
  | |- context [match ?d with [] => ([], soc1) | first :: _ => @?f first end] =>
      assert (Hdis :
        Forall (fun r => within_battery (SOC_kWh r))
          (fst (match d with [] => ([], soc1) | first :: l => f first end))
        /\ within_battery
          (snd (match d with [] => ([], soc1) | first :: l => f first end)));
      [ destruct d as [|first ?];
        [ simpl; split; [constructor | exact Hsoc1]
        | cbv beta;
          match goal with
          | |- context [if ?b then discharge_loop ?rows soc1 else _] =>
              destruct b;
              [ apply discharge_loop_bounds; exact Hsoc1
              | simpl; split; [constructor | exact Hsoc1] ]
          end ]
      | destruct (match d with [] => ([], soc1) | first :: l => f first end)
          as [discharged soc2] ]
  end.
  simpl in Hdis. destruct Hdis as [Hdischarged Hsoc2]. simpl.
  split; [|exact Hsoc2].
  apply Forall_app. split.
  - apply Forall_app. split; assumption.
  - apply Forall_forall. intros r Hin. apply in_map_iff in Hin.
    destruct Hin as (row & Hr & _). subst r. unfold idle_row.
    destruct (pv_only _ _) as [e cu]. simpl. exact Hsoc2.
Qed.

Lemma merge_row_bounds day_results soc row :
  Forall (fun r => within_battery (SOC_kWh r)) day_results ->
  within_battery soc ->
  within_battery (SOC_kWh (merge_row day_results soc row)).
Proof.
  intros Hall Hs. unfold merge_row.
  destruct (find _ day_results) as [r|] eqn:Hf.
  - apply find_some in Hf. rewrite Forall_forall in Hall.
    apply Hall. apply Hf.
  - simpl. exact Hs.
Qed.

Lemma run_days_bounds days : forall soc,
  within_battery soc ->
  (forall day, In day days -> nonneg_generation day) ->
  Forall (fun r => within_battery (SOC_kWh r)) (run_days days soc).
Proof.
  induction days as [|day rest IH]; intros soc Hs Hpv; simpl.
  - constructor.
  - destruct (optimize_daily_bounds day (hd [] rest) soc Hs) as [Hall Hend].
    { apply Hpv. now left. }
    destruct (optimize_daily day (hd [] rest) soc) as [day_results soc_end].
    simpl in *. apply Forall_app. split.
    + apply Forall_forall. intros r Hin. apply in_map_iff in Hin.
      destruct Hin as (row & Hr & _). subst r.
      apply merge_row_bounds; assumption.
    + apply IH; [exact Hend|]. intros d Hd. apply Hpv. now right.
Qed.

End DayPartitioned.

(** ** Finite sums *)

Lemma qnat_S n : qnat (S n) == qnat n + 1.
Proof.
  unfold qnat. rewrite Nat2Z.inj_succ. unfold Z.succ.
  rewrite inject_Z_plus. reflexivity.
Qed.

Lemma Qsum_app l l' : Qsum (l ++ l') == Qsum l + Qsum l'.
Proof.
  induction l as [|x l IH]; simpl.
  - lra.
  - rewrite IH. lra.
Qed.

Lemma sum_upto_S n f : sum_upto (S n) f == sum_upto n f + f n.
Proof.
  unfold sum_upto. rewrite seq_S, map_app, Qsum_app. simpl. lra.
Qed.

Lemma sum_upto_le n f g :
  (forall t, (t < n)%nat -> f t <= g t) -> sum_upto n f <= sum_upto n g.
Proof.
  induction n as [|n IH]; intros H.
  - unfold sum_upto. simpl. lra.
  - rewrite !sum_upto_S.
    assert (sum_upto n f <= sum_upto n g) by (apply IH; intros; apply H; lia).
    assert (f n <= g n) by (apply H; lia). lra.
Qed.

Lemma sum_upto_ext n f g :
  (forall t, (t < n)%nat -> f t == g t) -> sum_upto n f == sum_upto n g.
Proof.
  intros H. apply Qle_antisym; apply sum_upto_le; intros t Ht;
    rewrite (H t Ht); lra.
Qed.

Lemma sum_upto_const n k : sum_upto n (fun _ => k) == qnat n * k.
Proof.
  induction n as [|n IH].
  - unfold sum_upto, qnat. simpl. rewrite Qmult_0_l. reflexivity.
  - rewrite sum_upto_S, IH, qnat_S. lra.
Qed.

Lemma sum_upto_scale n f k :
  sum_upto n (fun t => f t * k) == sum_upto n f * k.
Proof.
  induction n as [|n IH].
  - unfold sum_upto. simpl. lra.
  - rewrite !sum_upto_S, IH. lra.
Qed.

Lemma sum_upto_plus n f g :
  sum_upto n (fun t => f t + g t) == sum_upto n f + sum_upto n g.
Proof.
  induction n as [|n IH].
  - unfold sum_upto. simpl. lra.
  - rewrite !sum_upto_S, IH. lra.
Qed.

Lemma sum_upto_bound n f k :
  (forall t, (t < n)%nat -> f t <= k) -> sum_upto n f <= qnat n * k.
Proof.
  intros H. rewrite <- sum_upto_const. apply sum_upto_le. exact H.
Qed.

Lemma sum_upto_nonneg n f :
  (forall t, (t < n)%nat -> 0 <= f t) -> 0 <= sum_upto n f.
Proof.
  intros H.
  assert (G : sum_upto n (fun _ => 0) <= sum_upto n f)
    by (apply sum_upto_le; exact H).
  rewrite sum_upto_const in G. lra.
Qed.

(** A sum of terms bounded by [k], one of which is not positive. *)
Lemma sum_upto_hole n f k t0 :
  (t0 < n)%nat -> f t0 <= 0 -> 0 <= k ->
  (forall t, (t < n)%nat -> f t <= k) ->
  sum_upto n f <= (qnat n - 1) * k.
Proof.
  induction n as [|n IH]; intros Ht0 H0 Hk H; [lia|].
  rewrite sum_upto_S, qnat_S.
  destruct (Nat.eq_dec t0 n) as [->|Hne].
  - assert (sum_upto n f <= qnat n * k)
      by (apply sum_upto_bound; intros; apply H; lia).
    lra.
  - assert (sum_upto n f <= (qnat n - 1) * k)
      by (apply IH; [lia | exact H0 | exact Hk | intros; apply H; lia]).
    assert (f n <= k) by (apply H; lia). lra.
Qed.

Lemma positive_or_none n (f : nat -> Q) :
  (exists t, (t < n)%nat /\ 0 < f t) \/ (forall t, (t < n)%nat -> f t <= 0).
Proof.
  induction n as [|n [(t & Ht & Hp)|Hall]].
  - right. intros t Ht. lia.
  - left. exists t. split; [lia | exact Hp].
  - destruct (Qlt_le_dec 0 (f n)) as [Hp|Hn].
    + left. exists n. split; [lia | exact Hp].
    + right. intros t Ht.
      destruct (Nat.eq_dec t n) as [->|Hne]; [exact Hn | apply Hall; lia].
Qed.

(** ** The linear program *)

Section LinearProgram.

Import PuLP.

Variables (data : list Row) (s : Solution).
Hypothesis Hfeas : feasible data s.

Lemma lp_constraints t : (t < length data)%nat ->
  (0 <= charge_grid s t <= NIL * INTERVAL_HOURS) /\
  (0 <= charge_pv s t <= PV_Energy_kWh (row_at data t)) /\
  (0 <= discharge s t <= BATTERY_MAX_DISCHARGE_POWER * INTERVAL_HOURS) /\
  (0 <= soc s t <= BATTERY_CAPACITY) /\
  (0 <= export_pv s t <= PV_Energy_kWh (row_at data t)) /\
  (0 <= export_battery s t) /\
  (0 <= curtail s t <= PV_Energy_kWh (row_at data t)) /\
  (charge_pv s t + export_pv s t + curtail s t
     == PV_Energy_kWh (row_at data t)) /\
  (export_battery s t == discharge s t * DISCHARGE_EFFICIENCY) /\
  ((export_pv s t + export_battery s t) / INTERVAL_HOURS <= NEL) /\
  (RRP (row_at data t) <= LGC ->
     export_pv s t == 0 /\ export_battery s t == 0).
Proof.
  intros Ht. pose proof Hfeas as H. unfold feasible, feasibleb in H.
  rewrite forallb_forall in H.
  assert (Hin : In t (T data)) by (apply in_seq; lia).
  specialize (H t Hin). unfold var_bounds, between, c_pv_balance,
    c_battery_export, c_nel, c_lgc in H.
  repeat rewrite andb_true_iff in H.
  repeat rewrite Qle_bool_iff in H. repeat rewrite Qeq_bool_iff in H.
  destruct H as [[[[[Hb Hpv] _] Hbe] Hnel] Hlgc].
  assert (Hl : RRP (row_at data t) <= LGC ->
               export_pv s t == 0 /\ export_battery s t == 0).
  { intros Hp. apply Qle_bool_iff in Hp. rewrite Hp in Hlgc.
    apply andb_true_iff in Hlgc. rewrite !Qeq_bool_iff in Hlgc. exact Hlgc. }
  tauto.
Qed.

Lemma lp_soc_initial : (0 < length data)%nat ->
  soc s 0%nat ==
  (charge_pv s 0%nat + charge_grid s 0%nat) * CHARGE_EFFICIENCY
  - discharge s 0%nat / DISCHARGE_EFFICIENCY.
Proof.
  intros Ht. pose proof Hfeas as H. unfold feasible, feasibleb in H.
  rewrite forallb_forall in H.
  assert (Hin : In 0%nat (T data)) by (apply in_seq; lia).
  specialize (H _ Hin). repeat rewrite andb_true_iff in H.
  destruct H as [[[[[_ _] Hs] _] _] _]. apply Qeq_bool_iff. exact Hs.
Qed.

Lemma lp_soc_step t : (S t < length data)%nat ->
  soc s (S t) ==
  soc s t + (charge_pv s (S t) + charge_grid s (S t)) * CHARGE_EFFICIENCY
  - discharge s (S t) / DISCHARGE_EFFICIENCY.
Proof.
  intros Ht. pose proof Hfeas as H. unfold feasible, feasibleb in H.
  rewrite forallb_forall in H.
  assert (Hin : In (S t) (T data)) by (apply in_seq; lia).
  specialize (H _ Hin). repeat rewrite andb_true_iff in H.
  destruct H as [[[[[_ _] Hs] _] _] _]. apply Qeq_bool_iff. exact Hs.
Qed.

(** The state is the running total of what was charged and discharged. *)
Lemma lp_soc_total t : (t < length data)%nat ->
  soc s t ==
  sum_upto (S t) (fun k => charge_pv s k + charge_grid s k) * CHARGE_EFFICIENCY
  - sum_upto (S t) (discharge s) / DISCHARGE_EFFICIENCY.
Proof.
  induction t as [|t IH]; intros Ht.
  - rewrite lp_soc_initial by lia. unfold sum_upto. simpl.
    unfold CHARGE_EFFICIENCY, DISCHARGE_EFFICIENCY. qconst. lra.
  - rewrite lp_soc_step by lia. rewrite IH by lia.
    rewrite (sum_upto_S (S t)), (sum_upto_S (S t) (discharge s)).
    unfold CHARGE_EFFICIENCY, DISCHARGE_EFFICIENCY. qconst. lra.
Qed.

End LinearProgram.

Section PaidCharging.

Import PuLP.

Lemma nth_repeat_lt {A} (x d : A) n t : (t < n)%nat -> nth t (repeat x n) d = x.
Proof.
  revert t. induction n as [|n IH]; intros t Ht; [lia|].
  destruct t; simpl; [reflexivity | apply IH; lia].
Qed.

Lemma paid_row t : (t < 77)%nat -> row_at paid_charging_day t = mkRow (- 5) 0.
Proof. intros Ht. unfold row_at, paid_charging_day. now apply nth_repeat_lt. Qed.

Variable s : Solution.
Hypothesis Hfeas : feasible paid_charging_day s.

Let A := sum_upto 77 (charge_grid s).
Let X := sum_upto 77 (discharge s).

Lemma paid_no_generation t : (t < 77)%nat ->
  charge_pv s t == 0 /\ export_pv s t == 0.
Proof.
  intros Ht.
  destruct (lp_constraints _ _ Hfeas t Ht) as (_ & Hc & _ & _ & He & _).
  rewrite paid_row in Hc, He by exact Ht.
  assert (Hz : PV_Energy_kWh (mkRow (- 5) 0) == 0) by reflexivity.
  rewrite Hz in Hc, He. split; lra.
Qed.

Lemma paid_objective :
  objective paid_charging_day s == (5 / 1000) * (A - 0.95 * X).
Proof.
  unfold objective, T. change (length paid_charging_day) with 77%nat.
  fold (sum_upto 77 (fun t => (export_pv s t + export_battery s t)
                              * RRP (row_at paid_charging_day t) / 1000)).
  fold (sum_upto 77 (fun t => charge_grid s t
                              * RRP (row_at paid_charging_day t) / 1000)).
  rewrite (sum_upto_ext 77 _ (fun t => discharge s t * (- (4.75 / 1000)))).
  2:{ intros t Ht. rewrite paid_row by exact Ht.
      destruct (paid_no_generation t Ht) as [_ He].
      destruct (lp_constraints _ _ Hfeas t Ht)
        as (_ & _ & _ & _ & _ & _ & _ & _ & Hb & _).
      simpl RRP. rewrite He, Hb. unfold DISCHARGE_EFFICIENCY. qconst. lra. }
  rewrite (sum_upto_ext 77 (fun t => charge_grid s t * _ / 1000)
             (fun t => charge_grid s t * (- (5 / 1000)))).
  2:{ intros t Ht. rewrite paid_row by exact Ht. simpl RRP. qconst. lra. }
  rewrite !sum_upto_scale. fold A X. qconst. lra.
Qed.

Lemma paid_capacity : A * 0.95 - X / 0.95 <= 4000.
Proof.
  destruct (lp_constraints _ _ Hfeas 76%nat) as (_ & _ & _ & Hs & _);
    [simpl; lia|].
  rewrite (lp_soc_total _ _ Hfeas 76%nat) in Hs by (simpl; lia).
  rewrite (sum_upto_ext 77 (fun k => charge_pv s k + charge_grid s k)
             (charge_grid s)) in Hs.
  2:{ intros t Ht. destruct (paid_no_generation t Ht) as [Hc _].
      rewrite Hc. lra. }
  fold A X in Hs. unfold BATTERY_CAPACITY, CHARGE_EFFICIENCY,
    DISCHARGE_EFFICIENCY in Hs. apply Hs.
Qed.

Lemma paid_discharge_nonneg : 0 <= X.
Proof.
  apply sum_upto_nonneg. intros t Ht.
  destruct (lp_constraints _ _ Hfeas t Ht) as (_ & _ & Hd & _). apply Hd.
Qed.

Lemma paid_import_bound : A <= 77 * (NIL * INTERVAL_HOURS).
Proof.
  unfold A. change 77 with (qnat 77). apply sum_upto_bound. intros t Ht.
  destruct (lp_constraints _ _ Hfeas t Ht) as (Hg & _). apply Hg.
Qed.

End PaidCharging.

Lemma paid_plan_feasible : PuLP.feasible paid_charging_day paid_charging_plan.
Proof. vm_compute. reflexivity. Qed.

Lemma paid_plan_value :
  PuLP.objective paid_charging_day paid_charging_plan
  == (5 / 1000) * (0.142625 * (77 * (PuLP.NIL * PuLP.INTERVAL_HOURS)) + 3610).
Proof. vm_compute. reflexivity. Qed.

Lemma paid_plan_optimal : PuLP.optimal paid_charging_day paid_charging_plan.
Proof.
  split; [exact paid_plan_feasible|].
  intros s' Hf. rewrite paid_plan_value, (paid_objective s' Hf).
  pose proof (paid_capacity s' Hf) as Hc.
  pose proof (paid_import_bound s' Hf) as Hi.
  unfold PuLP.NIL, PuLP.INTERVAL_HOURS in *. qconst. lra.
Qed.

(** Every optimal plan of the paid-charging day charges and discharges
    in one and the same period. *)
Lemma paid_optimum_overlaps s :
  PuLP.optimal paid_charging_day s ->
  exists t, (t < 77)%nat /\
    0 < PuLP.charge_pv s t + PuLP.charge_grid s t /\ 0 < PuLP.discharge s t.
Proof.
  intros [Hf Hopt].
  pose proof (Hopt _ paid_plan_feasible) as Hbest.
  rewrite paid_plan_value, (paid_objective s Hf) in Hbest.
  pose proof (paid_capacity s Hf) as Hc.
  pose proof (paid_import_bound s Hf) as Hi.
  pose proof (paid_discharge_nonneg s Hf) as Hx.
  destruct (positive_or_none 77
    (fun t => if 0 <? PuLP.charge_grid s t then PuLP.discharge s t else 0))
    as [(t & Ht & Hp)|Hnone].
  - exists t. split; [exact Ht|].
    destruct (paid_no_generation s Hf t Ht) as [Hcp _].
    destruct (Qltb_spec 0 (PuLP.charge_grid s t)); [|lra].
    split; [rewrite Hcp; lra | exact Hp].
  - exfalso.
    destruct (positive_or_none 77 (PuLP.discharge s))
      as [(t0 & Ht0 & Hd0)|Hidle].
    + assert (Hg0 : PuLP.charge_grid s t0 <= 0).
      { specialize (Hnone t0 Ht0). cbv beta in Hnone.
        destruct (Qltb_spec 0 (PuLP.charge_grid s t0)); lra. }
      assert (Hhole : sum_upto 77 (PuLP.charge_grid s)
                      <= (qnat 77 - 1) * (PuLP.NIL * PuLP.INTERVAL_HOURS)).
      { apply (sum_upto_hole 77 _ _ t0 Ht0 Hg0); [now apply Qle_bool_iff|].
        intros t Ht.
        destruct (lp_constraints _ _ Hf t Ht) as (Hg & _). apply Hg. }
      change (qnat 77) with 77 in Hhole.
      unfold PuLP.NIL, PuLP.INTERVAL_HOURS in *. qconst. lra.
    + assert (Hx0 : sum_upto 77 (PuLP.discharge s) <= 0).
      { assert (G : sum_upto 77 (PuLP.discharge s)
                    <= sum_upto 77 (fun _ => 0))
          by (apply sum_upto_le; exact Hidle).
        rewrite sum_upto_const in G. lra. }
      unfold PuLP.NIL, PuLP.INTERVAL_HOURS in *. qconst. lra.
Qed.

Lemma produced_nth c data sched t d :
  produced c data sched -> nth_error sched t = Some d ->
  (exists s, Gurobi.feasible c data s /\ (t < length data)%nat /\
     d = mkDecision (Gurobi.P_charge s t) (Gurobi.P_discharge s t)
           (Gurobi.P_grid_import s t) (Gurobi.P_grid_export s t)
           (Gurobi.SOC s t) (Gurobi.SOC s t / E_capacity c * 100))
  \/ (exists r25 r75 soc prev row,
        nth_error data t = Some row /\
        d = greedy_step c r25 r75 soc prev row).
Proof.
  intros [s Hs|] Hn.
  - left. exists s. apply extract_results_nth in Hn. tauto.
  - right. unfold optimize_greedy in Hn. apply greedy_loop_nth in Hn.
    destruct Hn as (soc & prev & row & Hr & Hd).
    now exists (quantile (map rrp data) 0.25), (quantile (map rrp data) 0.75),
      soc, prev, row.
Qed.


(** ** The ramp-rate block of the heuristic *)

Section Ramp.

Variable c : Config.
Variables rrp_25 rrp_75 : Q.
Hypothesis Hramp : 0 <= ramp_rate c.
Hypothesis Hcap : 0 <= E_capacity c.
Hypothesis Hdmax : 0 <= P_discharge_max c.
Hypothesis Heta : 0 < eta_d c.

Lemma max_ramp_nonneg : 0 <= max_ramp c.
Proof. unfold max_ramp. lra. Qed.

(** The tentative decision neither discharges nor exports a negative
    power when the generation is not negative. *)
Lemma decide_nonneg soc pv price :
  0 <= pv ->
  let '(_, dis, _, ex) := decide c rrp_25 rrp_75 soc pv price in
  0 <= dis /\ 0 <= ex.
Proof.
  intros Hpv. unfold decide. cbv zeta.
  destruct (Qltb_spec price 0).
  { destruct (Qltb_spec (pymin (P_charge_max c)
       ((E_capacity c - soc) / (dt * eta_c c))) (P_charge_max c));
      match goal with |- context [if 0 <? ?x then _ else _] =>
        destruct (Qltb_spec 0 x) end; split; lra. }
  destruct (Qltb_spec price rrp_25).
  { destruct (Qltb_spec soc (0.8 * E_capacity c)).
    - pose proof (pymin_le_l (pymin pv (P_charge_max c))
                    ((E_capacity c - soc) / (dt * eta_c c))) as H1.
      pose proof (pymin_le_l pv (P_charge_max c)) as H2.
      unfold pymin3.
      destruct ((price <? rrp_25 * 0.5) && (soc <? 0.3 * E_capacity c));
        split; lra.
    - split; lra. }
  assert (Hdis : 0 <= pymin (P_discharge_max c) (soc * eta_d c / dt)
                 \/ soc <= 0.1 * E_capacity c).
  { destruct (Qlt_le_dec (0.1 * E_capacity c) soc) as [Hs|Hs]; [left|right; exact Hs].
    apply pymin_glb; [exact Hdmax|].
    assert (0 < soc) by lra.
    apply Qle_shift_div_l; [exact dt_pos|].
    rewrite Qmult_0_l. apply Qmult_le_0_compat; lra. }
  destruct (Qltb_spec rrp_75 price).
  { destruct (Qltb_spec (0.1 * E_capacity c) soc);
      destruct (Qltb_spec (min_export_price c) price); simpl; split; lra. }
  destruct (Qltb_spec (min_export_price c) price); split; lra.
Qed.

Lemma ramp_adjust_spec prev pv dis ex :
  0 <= prev -> 0 <= pv -> 0 <= dis -> 0 <= ex ->
  let e := ramp_adjust c prev pv dis ex in
  0 <= e /\
  e - prev <= max_ramp c /\
  (prev - e <= max_ramp c \/ e == pv + dis).
Proof.
  intros Hprev Hpv Hdis Hex. pose proof max_ramp_nonneg as Hm.
  unfold ramp_adjust, pyabs, pymax. cbv zeta.
  qcases; repeat split; try lra; try (left; lra); try (right; lra).
Qed.

Lemma greedy_step_ramp soc prev row :
  0 <= prev -> 0 <= pv_power row ->
  let d := greedy_step c rrp_25 rrp_75 soc prev row in
  0 <= P_grid_export d /\
  P_grid_export d - prev <= max_ramp c /\
  (prev - P_grid_export d <= max_ramp c
   \/ P_grid_export d == pv_power row + P_discharge d).
Proof.
  intros Hprev Hpv. unfold greedy_step.
  pose proof (decide_nonneg soc (pv_power row) (rrp row) Hpv) as H.
  destruct (decide c rrp_25 rrp_75 soc (pv_power row) (rrp row))
    as [[[ch dis] imp] ex].
  destruct H as [Hdis Hex]. simpl.
  apply ramp_adjust_spec; assumption.
Qed.

Lemma greedy_loop_ramp rows : forall soc prev t d0 d1 row1,
  0 <= prev -> (forall row, In row rows -> 0 <= pv_power row) ->
  nth_error (greedy_loop c rrp_25 rrp_75 soc prev rows) t = Some d0 ->
  nth_error (greedy_loop c rrp_25 rrp_75 soc prev rows) (S t) = Some d1 ->
  nth_error rows (S t) = Some row1 ->
  P_grid_export d1 - P_grid_export d0 <= max_ramp c /\
  (P_grid_export d0 - P_grid_export d1 <= max_ramp c
   \/ P_grid_export d1 == pv_power row1 + P_discharge d1).
Proof.
  induction rows as [|row rest IH]; intros soc prev t d0 d1 row1 Hprev Hpv H0 H1 Hr.
  - destruct t; discriminate.
  - assert (Hrow : 0 <= pv_power row) by (apply Hpv; now left).
    destruct (greedy_step_ramp soc prev row Hprev Hrow) as (Hnn & _).
    destruct t as [|t].
    + simpl in H0, H1, Hr.
      inversion H0; subst d0. destruct rest as [|row' rest']; [discriminate|].
      simpl in H1, Hr. inversion H1; subst d1. inversion Hr; subst row1.
      assert (Hrow' : 0 <= pv_power row') by (apply Hpv; right; now left).
      destruct (greedy_step_ramp
                  (SOC (greedy_step c rrp_25 rrp_75 soc prev row))
                  (P_grid_export (greedy_step c rrp_25 rrp_75 soc prev row))
                  row' Hnn Hrow') as (_ & Hup & Hdown).
      split; assumption.
    + apply (IH (SOC (greedy_step c rrp_25 rrp_75 soc prev row))
                (P_grid_export (greedy_step c rrp_25 rrp_75 soc prev row))
                t d0 d1 row1 Hnn);
        [intros r Hin; apply Hpv; now right | exact H0 | exact H1 | exact Hr].
Qed.

End Ramp.

(** ** Totals of the reporter against the objective *)

Lemma map_nth_seq {A} (l : list A) (d : A) :
  map (fun t => nth t l d) (seq 0 (length l)) = l.
Proof.
  induction l as [|x l IH]; simpl; [reflexivity|].
  f_equal. rewrite <- seq_shift, map_map. exact IH.
Qed.

Lemma combine_map {A B C} (g : A -> B) (f : A -> C) (l : list A) :
  combine (map g l) (map f l) = map (fun t => (g t, f t)) l.
Proof. induction l as [|x l IH]; simpl; [reflexivity | now rewrite IH]. Qed.

(** The reporter's total over the results extracted from an assignment
    is the value of the objective at that assignment. *)
Lemma total_of_extract_results c data s :
  total_net_revenue c data (Gurobi.extract_results c data s)
  == Gurobi.objective c data s.
Proof.
  unfold total_net_revenue, Gurobi.extract_results, Gurobi.objective,
    Gurobi.periods.
  rewrite <- (map_nth_seq data (mkRow 0 0 0)) at 1.
  rewrite combine_map, map_map. reflexivity.
Qed.

(** The reporter's total depends on the decisions through the export
    and the import only. *)
Lemma total_net_revenue_ext c data : forall ds ds',
  Forall2 (fun d d' => P_grid_export d == P_grid_export d' /\
                       P_grid_import d == P_grid_import d') ds ds' ->
  total_net_revenue c data ds == total_net_revenue c data ds'.
Proof.
  unfold total_net_revenue.
  induction data as [|row data IH]; intros ds ds' H; [reflexivity|].
  destruct H as [|d d' ds ds' [He Hi] H]; [reflexivity|].
  simpl. rewrite (IH ds ds' H), He, Hi. reflexivity.
Qed.

Lemma objective_one c row s :
  Gurobi.objective c [row] s ==
  Gurobi.P_grid_export s 0 * dt * rrp row
  - Gurobi.P_grid_import s 0 * dt * rrp row + pv_power row * dt * lgc_price c.
Proof.
  unfold Gurobi.objective, Gurobi.periods, Qsum, Gurobi.row_at.
  cbn [length seq map fold_right nth]. lra.
Qed.

Lemma objective_two c row0 row1 s :
  Gurobi.objective c [row0; row1] s ==
  (Gurobi.P_grid_export s 0 * dt * rrp row0
   - Gurobi.P_grid_import s 0 * dt * rrp row0 + pv_power row0 * dt * lgc_price c)
  + (Gurobi.P_grid_export s 1 * dt * rrp row1
     - Gurobi.P_grid_import s 1 * dt * rrp row1
     + pv_power row1 * dt * lgc_price c).
Proof.
  unfold Gurobi.objective, Gurobi.periods, Qsum, Gurobi.row_at.
  cbn [length seq map fold_right nth]. lra.
Qed.

Lemma full_charge_optimal :
  Gurobi.optimal tight_ramp_config mild_negative_rows full_charge_assignment.
Proof.
  split; [vm_compute; reflexivity|].
  intros s' Hf.
  assert (Ht : (0 < length mild_negative_rows)%nat) by (simpl; lia).
  pose proof (exact_power_balance _ _ _ Hf 0%nat Ht) as Hb.
  destruct (exact_power_bounds _ _ _ Hf 0%nat Ht) as (Hc & Hd & _).
  change mild_negative_rows
    with [mkRow 1000 (- 0.005) (generation_power tight_ramp_config 1000)] in *.
  rewrite !objective_one.
  unfold Gurobi.row_at in Hb. simpl nth in Hb.
  simpl pv_power in *. simpl rrp.
  unfold generation_power, lgc_price, P_charge_max, P_discharge_max, dt in *.
  change (poa_to_power_ratio tight_ramp_config) with 3.79 in *.
  simpl in Hc, Hd. simpl. qconst. lra.
Qed.

Lemma full_discharge_optimal :
  Gurobi.optimal default_config steady_rows full_discharge_assignment.
Proof.
  split; [vm_compute; reflexivity|].
  intros s' Hf.
  assert (Ht0 : (0 < length steady_rows)%nat) by (simpl; lia).
  assert (Ht1 : (1 < length steady_rows)%nat) by (simpl; lia).
  pose proof (exact_power_balance _ _ _ Hf 0%nat Ht0) as Hb0.
  pose proof (exact_power_balance _ _ _ Hf 1%nat Ht1) as Hb1.
  destruct (exact_power_bounds _ _ _ Hf 0%nat Ht0) as (Hc0 & Hd0 & _).
  destruct (exact_power_bounds _ _ _ Hf 1%nat Ht1) as (Hc1 & Hd1 & _).
  change steady_rows
    with [mkRow 1000 0.05 (generation_power default_config 1000);
          mkRow 1000 0.05 (generation_power default_config 1000)] in *.
  rewrite !objective_two.
  unfold Gurobi.row_at in Hb0, Hb1. simpl nth in Hb0, Hb1.
  simpl pv_power in *. simpl rrp.
  unfold generation_power, lgc_price, P_charge_max, P_discharge_max, dt in *.
  change (poa_to_power_ratio default_config) with 3.79 in *.
  simpl in Hc0, Hd0, Hc1, Hd1. simpl. qconst. lra.
Qed.

(** ** A plan of the linear program that always exists *)

Lemma curtail_everything_feasible data :
  (forall row, In row data -> 0 <= PuLP.POA row) ->
  PuLP.feasible data (curtail_everything data).
Proof.
  intros Hpoa. unfold PuLP.feasible, PuLP.feasibleb.
  apply forallb_forall. intros t Hin. apply in_seq in Hin.
  assert (Hpv : 0 <= PuLP.PV_Energy_kWh (PuLP.row_at data t)).
  { assert (Hr : In (PuLP.row_at data t) data)
      by (unfold PuLP.row_at; apply nth_In; lia).
    specialize (Hpoa _ Hr).
    unfold PuLP.PV_Energy_kWh, PuLP.PV_Power_kW, PuLP.PV_CAPACITY,
      PuLP.POA_TO_POWER_RATIO, PuLP.INTERVAL_HOURS.
    qconst. lra. }
  assert (Hb : Qle_bool 0 (PuLP.PV_Energy_kWh (PuLP.row_at data t)) = true)
    by (apply Qle_bool_iff; exact Hpv).
  assert (Hr : Qle_bool (PuLP.PV_Energy_kWh (PuLP.row_at data t))
                 (PuLP.PV_Energy_kWh (PuLP.row_at data t)) = true)
    by (apply Qle_bool_iff; lra).
  assert (He : Qeq_bool (0 + 0 + PuLP.PV_Energy_kWh (PuLP.row_at data t))
                 (PuLP.PV_Energy_kWh (PuLP.row_at data t)) = true)
    by (apply Qeq_bool_iff; lra).
  unfold PuLP.var_bounds, PuLP.between, PuLP.c_pv_balance, PuLP.c_soc,
    PuLP.c_battery_export, PuLP.c_nel, PuLP.c_lgc, curtail_everything.
  cbn [PuLP.charge_grid PuLP.charge_pv PuLP.discharge PuLP.soc
       PuLP.export_pv PuLP.export_battery PuLP.curtail].
  rewrite Hb, Hr, He.
  destruct (Qle_bool (PuLP.RRP (PuLP.row_at data t)) PuLP.LGC);
    destruct t; reflexivity.
Qed.

(** * The claims *)

(** C1: the heuristic breaks the energy balance.  With a ramp limit of
    0.3 kW and prices 0.05, 0.10, 0.01, the third period stores all of
    its 3.79 kW of generation, and the ramp block then sets the export to
    0.3 kW although nothing is left to export: charge plus export exceed
    generation plus discharge plus import by 0.3 kW, which no
    non-negative curtailment can balance. *)
Theorem C1_heuristic_exports_power_it_does_not_have :
  exists row d,
    nth_error falling_price_rows 2 = Some row /\
    nth_error (optimize_greedy tight_ramp_config falling_price_rows) 2
      = Some d /\
    pv_power row == 3.79 /\ P_charge d == 3.79 /\ P_discharge d == 0 /\
    P_grid_import d == 0 /\ P_grid_export d == 0.3 /\
    (P_charge d + P_grid_export d)
    - (pv_power row + P_discharge d + P_grid_import d) == 0.3.
Proof.
  do 2 eexists. split; [reflexivity|]. split; [reflexivity|].
  repeat split; vm_compute; reflexivity.
Qed.




(** C3 fails as stated.  The day-partitioned heuristic has no guard
    against a negative generation: from half charge, a chargeable row
    whose generation column is -3000 kWh is charged "from generation",
    and the state recorded is -1079/24 kWh.  The sequential heuristic
    clips the state to [0, capacity], which under a negative capacity of
    -1 kWh records the state -1 kWh. *)
Lemma C3_counterexample :
  (exists r,
     In r (GreedyV2.run negative_generation_days) /\
     GreedyV2.SOC_kWh r == - (1079 / 24) /\
     ~ 0 <= GreedyV2.SOC_kWh r)
  /\ (exists d,
        produced negative_capacity_config
          (rows_of negative_capacity_config [(1000, 0.05)])
          (optimize_greedy negative_capacity_config
             (rows_of negative_capacity_config [(1000, 0.05)])) /\
        In d (optimize_greedy negative_capacity_config
                (rows_of negative_capacity_config [(1000, 0.05)])) /\
        SOC d == - 1 /\ ~ 0 <= SOC d).
Proof.
  split.
  - eexists. split; [left; reflexivity|].
    split; [vm_compute; reflexivity|].
    vm_compute. intros H. apply H. reflexivity.
  - eexists. split; [apply produced_heuristic|].
    split; [left; reflexivity|].
    split; [vm_compute; reflexivity|].
    vm_compute. intros H. apply H. reflexivity.
Qed.

(** C3 (amended).  Under a non-negative capacity every state of charge
    reported by the exact engine or by the sequential heuristic lies
    between 0 and the battery capacity; so does every state recorded by
    the day-partitioned heuristic when no generation value is negative,
    and every state of the linear program. *)
Theorem C3_state_of_charge_within_capacity :
  (forall c data sched d,
     0 <= E_capacity c -> produced c data sched -> In d sched ->
     0 <= SOC d <= E_capacity c)
  /\ (forall days r,
        (forall day, In day days -> GreedyV2.nonneg_generation day) ->
        In r (GreedyV2.run days) ->
        0 <= GreedyV2.SOC_kWh r <= GreedyV2.BATTERY_CAPACITY)
  /\ (forall data s t,
        PuLP.feasible data s -> (t < length data)%nat ->
        0 <= PuLP.soc s t <= PuLP.BATTERY_CAPACITY).
Proof.
  split; [|split].
  - intros c data sched d Hcap Hp Hin.
    apply In_nth_error in Hin. destruct Hin as [t Ht].
    destruct (produced_nth c data sched t d Hp Ht)
      as [(s & Hf & Hlt & ->)|(r25 & r75 & soc & prev & row & _ & ->)].
    + simpl. apply (exact_soc_bounds c data s Hf). lia.
    + apply greedy_step_soc_bounds. exact Hcap.
  - intros days r Hpv Hin. unfold GreedyV2.run in Hin.
    assert (H0 : GreedyV2.within_battery (GreedyV2.BATTERY_CAPACITY * 0.5)).
    { unfold GreedyV2.within_battery, GreedyV2.BATTERY_CAPACITY. lra. }
    pose proof (run_days_bounds days _ H0 Hpv) as Hall.
    rewrite Forall_forall in Hall. exact (Hall r Hin).
  - intros data s t Hf Ht.
    destruct (lp_constraints data s Hf t Ht) as (_ & _ & _ & Hs & _).
    exact Hs.
Qed.

Lemma C3_witness :
  (forall d, In d (optimize_greedy default_config below_floor_rows) ->
     0 <= SOC d <= E_capacity default_config)
  /\ (forall d, In d (Gurobi.extract_results default_config below_floor_rows
                        full_charge_assignment) ->
        0 <= SOC d <= E_capacity default_config)
  /\ (forall r, In r (GreedyV2.run sunny_then_dark_days) ->
        0 <= GreedyV2.SOC_kWh r <= GreedyV2.BATTERY_CAPACITY)
  /\ 0 <= PuLP.soc paid_charging_plan 76 <= PuLP.BATTERY_CAPACITY.
Proof.
  destruct C3_state_of_charge_within_capacity as (Hp & Hv2 & Hlp).
  assert (Hcap : 0 <= E_capacity default_config) by (vm_compute; discriminate).
  split; [|split; [|split]].
  - intros d Hd.
    apply (Hp default_config below_floor_rows
             (optimize_greedy default_config below_floor_rows) d Hcap);
      [apply produced_heuristic | exact Hd].
  - intros d Hd.
    apply (Hp default_config below_floor_rows
             (Gurobi.extract_results default_config below_floor_rows
                full_charge_assignment) d Hcap);
      [apply produced_exact; vm_compute; reflexivity | exact Hd].
  - intros r Hr. apply (Hv2 sunny_then_dark_days r); [|exact Hr].
    intros day Hd row Hrow. simpl in Hd.
    destruct Hd as [<-|[<-|[]]]; simpl in Hrow;
      destruct Hrow as [<-|[<-|[]]]; vm_compute; discriminate.
  - apply (Hlp paid_charging_day paid_charging_plan 76%nat);
      [vm_compute; reflexivity | simpl; lia].
Defined.

(** C4 fails on the linear program, which has no constraint tying charge
    and discharge: on a day of 77 dark periods at -5 AUD/MWh an optimal
    plan exists, and every optimal plan charges and discharges in one
    and the same period. *)
Lemma C4_counterexample :
  PuLP.optimal paid_charging_day paid_charging_plan /\
  forall s, PuLP.optimal paid_charging_day s ->
    ~ (forall t, (t < length paid_charging_day)%nat ->
         (0 < PuLP.charge_pv s t + PuLP.charge_grid s t ->
          PuLP.discharge s t == 0) /\
         (0 < PuLP.discharge s t ->
          PuLP.charge_pv s t + PuLP.charge_grid s t == 0)).
Proof.
  split; [exact paid_plan_optimal|].
  intros s Hopt Hexcl.
  destruct (paid_optimum_overlaps s Hopt) as (t & Ht & Hc & Hd).
  destruct (Hexcl t) as [H _]; [simpl; lia|].
  specialize (H Hc). lra.
Qed.

(** C4 (amended).  In every schedule of the mixed-integer formulation and
    of the sequential heuristic, a positive charge power comes with a zero
    discharge power and a positive discharge power with a zero charge
    power.  In the mixed-integer formulation this follows from the
    constraints charge <= M * is_charging, discharge <= M * is_discharging
    and is_charging + is_discharging <= 1, with
    M = max(P_charge_max, P_discharge_max). *)
Theorem C4_mutual_exclusion :
  (forall c data sched t d,
     produced c data sched -> nth_error sched t = Some d ->
     (0 < P_charge d -> P_discharge d == 0) /\
     (0 < P_discharge d -> P_charge d == 0))
  /\ (forall c data s t,
        Gurobi.feasible c data s -> (t < length data)%nat ->
        let M := pymax (P_charge_max c) (P_discharge_max c) in
        Gurobi.P_charge s t <= M * Gurobi.bin (Gurobi.is_charging s t) /\
        Gurobi.P_discharge s t <= M * Gurobi.bin (Gurobi.is_discharging s t) /\
        Gurobi.bin (Gurobi.is_charging s t)
          + Gurobi.bin (Gurobi.is_discharging s t) <= 1).
Proof.
  split.
  - intros c data sched t d Hp Hn.
    destruct (produced_nth c data sched t d Hp Hn)
      as [(s & Hf & Hlt & ->)|(r25 & r75 & soc & prev & row & _ & ->)].
    + simpl. exact (exact_exclusive c data s Hf t Hlt).
    + apply greedy_step_exclusive.
  - intros c data s t Hf Ht M.
    destruct (exact_big_M c data s Hf t Ht) as (H1 & H2 & H3).
    subst M. fold (Gurobi.big_M c). tauto.
Qed.

Lemma C4_witness :
  (exists d,
     nth_error (optimize_greedy tight_ramp_config falling_price_rows) 1
       = Some d /\
     0 < P_discharge d /\ P_charge d == 0)
  /\ (exists d,
        nth_error (Gurobi.extract_results default_config below_floor_rows
                     full_charge_assignment) 0 = Some d /\
        0 < P_charge d /\ P_discharge d == 0)
  /\ Gurobi.P_charge full_charge_assignment 0
       <= pymax (P_charge_max default_config) (P_discharge_max default_config)
          * Gurobi.bin (Gurobi.is_charging full_charge_assignment 0).
Proof.
  destruct C4_mutual_exclusion as [Hx HM].
  split; [|split].
  - exists (nth 1 (optimize_greedy tight_ramp_config falling_price_rows)
                 (mkDecision 0 0 0 0 0 0)).
    split; [reflexivity|].
    assert (Hpos : 0 < P_discharge
              (nth 1 (optimize_greedy tight_ramp_config falling_price_rows)
                   (mkDecision 0 0 0 0 0 0)))
      by (vm_compute; reflexivity).
    split; [exact Hpos|].
    exact (proj2 (Hx tight_ramp_config falling_price_rows
                    (optimize_greedy tight_ramp_config falling_price_rows)
                    1%nat _ (produced_heuristic _ _) eq_refl) Hpos).
  - eexists. split; [reflexivity|].
    assert (Hf : Gurobi.feasible default_config below_floor_rows
                   full_charge_assignment) by (vm_compute; reflexivity).
    assert (Hpos : 0 < Gurobi.P_charge full_charge_assignment 0)
      by (vm_compute; reflexivity).
    split; [exact Hpos|].
    exact (proj1 (Hx default_config below_floor_rows _ 0%nat _
                    (produced_exact _ _ _ Hf) eq_refl) Hpos).
  - assert (Hf : Gurobi.feasible default_config below_floor_rows
                   full_charge_assignment) by (vm_compute; reflexivity).
    refine (proj1 (HM default_config below_floor_rows full_charge_assignment
                     0%nat Hf _)).
    simpl. lia.
Defined.

(** C5: the heuristic exports below the price floor.  At a price of
    -0.05 AUD/kWh, below the floor of -0.01, the negative-price branch
    charges the battery at full power from the grid and exports the whole
    generation of 3.79 kW. *)
Theorem C5_heuristic_exports_below_the_floor :
  exists row d,
    nth_error below_floor_rows 0 = Some row /\
    nth_error (optimize_greedy default_config below_floor_rows) 0 = Some d /\
    min_export_price default_config == - 0.01 /\
    rrp row < min_export_price default_config /\
    P_grid_export d == 3.79.
Proof.
  do 2 eexists. split; [reflexivity|]. split; [reflexivity|].
  repeat split; vm_compute; reflexivity.
Qed.

(** C6 fails on the heuristic.  With a ramp limit of 0.3 kW per period,
    two sunny periods raise the export to 0.3 kW and 0.6 kW; in the dark
    period that follows, the ramp block first sets the export to 0.3 kW
    and then reduces it to the available power, 0 kW: a fall of 0.6 kW. *)
Lemma C6_counterexample :
  exists d1 d2,
    nth_error (optimize_greedy tight_ramp_config sunset_rows) 1 = Some d1 /\
    nth_error (optimize_greedy tight_ramp_config sunset_rows) 2 = Some d2 /\
    max_ramp tight_ramp_config == 0.3 /\
    pyabs (P_grid_export d2 - P_grid_export d1) == 0.6 /\
    ~ pyabs (P_grid_export d2 - P_grid_export d1)
        <= max_ramp tight_ramp_config.
Proof.
  do 2 eexists. split; [reflexivity|]. split; [reflexivity|].
  split; [|split]; vm_compute; [reflexivity | reflexivity | ].
  intros H. apply H. reflexivity.
Qed.

(** C6 (amended).  In the mixed-integer formulation the export of
    consecutive periods differs by at most the ramp limit.  In the
    sequential heuristic, for a configuration with non-negative ramp
    rate, capacity and discharge limit, positive discharge efficiency,
    and non-negative generation, the export rises by at most the ramp
    limit from one period to the next, and it falls by at most the ramp
    limit unless it was reduced to the available power, generation plus
    discharge, of the period. *)
Theorem C6_ramp_bound :
  (forall c data s t,
     Gurobi.feasible c data s -> (1 <= t)%nat -> (t < length data)%nat ->
     pyabs (Gurobi.P_grid_export s t - Gurobi.P_grid_export s (t - 1)%nat)
       <= max_ramp c)
  /\ (forall c data t d0 d1 row1,
        0 <= ramp_rate c -> 0 <= E_capacity c -> 0 <= P_discharge_max c ->
        0 < eta_d c ->
        (forall row, In row data -> 0 <= pv_power row) ->
        nth_error (optimize_greedy c data) t = Some d0 ->
        nth_error (optimize_greedy c data) (S t) = Some d1 ->
        nth_error data (S t) = Some row1 ->
        P_grid_export d1 - P_grid_export d0 <= max_ramp c /\
        (P_grid_export d0 - P_grid_export d1 <= max_ramp c
         \/ P_grid_export d1 == pv_power row1 + P_discharge d1)).
Proof.
  split.
  - intros c data s t Hf H1 Ht.
    destruct (exact_ramp c data s Hf t H1 Ht) as [Hup Hdown].
    unfold pyabs. qcases; lra.
  - intros c data t d0 d1 row1 Hr Hc Hd He Hpv H0 H1 Hrow.
    unfold optimize_greedy in H0, H1.
    refine (greedy_loop_ramp c _ _ Hr Hc Hd He data _ 0 t d0 d1 row1
              _ Hpv H0 H1 Hrow).
    lra.
Qed.

Lemma C6_witness :
  pyabs (Gurobi.P_grid_export pass_through_assignment 1
         - Gurobi.P_grid_export pass_through_assignment 0)
    <= max_ramp default_config
  /\ (exists d0 d1 row1,
        nth_error (optimize_greedy tight_ramp_config sunset_rows) 0 = Some d0 /\
        nth_error (optimize_greedy tight_ramp_config sunset_rows) 1 = Some d1 /\
        nth_error sunset_rows 1 = Some row1 /\
        P_grid_export d1 - P_grid_export d0 <= max_ramp tight_ramp_config /\
        (P_grid_export d0 - P_grid_export d1 <= max_ramp tight_ramp_config
         \/ P_grid_export d1 == pv_power row1 + P_discharge d1)).
Proof.
  destruct C6_ramp_bound as [Hg Hh].
  split.
  - apply (Hg default_config steady_rows pass_through_assignment 1%nat);
      [vm_compute; reflexivity | lia | simpl; lia].
  - do 3 eexists. split; [reflexivity|]. split; [reflexivity|].
    split; [reflexivity|].
    apply (Hh tight_ramp_config sunset_rows 0%nat);
      try reflexivity; try (vm_compute; discriminate).
    intros row Hin. simpl in Hin.
    destruct Hin as [<-|[<-|[<-|[]]]]; vm_compute; discriminate.
Defined.

(** C8 fails on the reporter of the day-partitioned optimizer.  For a
    charging period with 3.79 kW of generation, all of it stored together
    with 246.21 kW imported, nothing exported and nothing curtailed, it
    books an incentive of 0 instead of 3.79 * dt * 0.01. *)
Lemma C8_counterexample :
  let row := mkRow 1000 0.05 3.79 in
  let d := Daytime.mkDecision 250 0 246.21 0 0 519.79 in
  pv_power row + Daytime.P_discharge d + Daytime.P_grid_import d
    == Daytime.P_charge d + Daytime.P_grid_export d + Daytime.P_pv_curtail d /\
  lgc_revenue (Daytime.calculate_revenue default_config row d) == 0 /\
  ~ lgc_revenue (Daytime.calculate_revenue default_config row d)
      == pv_power row * dt * lgc_price default_config.
Proof.
  cbv zeta. split; [|split]; vm_compute; [reflexivity | reflexivity | discriminate].
Qed.

(** C8 (amended).  The reporter of the exact engine and of the sequential
    heuristic computes export revenue = export * dt * price, import cost
    = import * dt * price, incentive = generation * dt * incentive rate
    and net revenue = export revenue - import cost + incentive; its
    incentive does not depend on the decision.  The reporter of the
    day-partitioned optimizer computes the same export revenue, import
    cost and net revenue, with the incentive
    (export + curtailed) * dt * incentive rate. *)
Theorem C8_reporter_formulas :
  (forall c row d,
     let r := calculate_revenue c row d in
     export_revenue r == P_grid_export d * dt * rrp row /\
     import_cost r == P_grid_import d * dt * rrp row /\
     lgc_revenue r == pv_power row * dt * lgc_price c /\
     net_revenue r == export_revenue r - import_cost r + lgc_revenue r)
  /\ (forall c row d d',
        lgc_revenue (calculate_revenue c row d)
        == lgc_revenue (calculate_revenue c row d'))
  /\ (forall c data s t d,
        nth_error (Gurobi.extract_results c data s) t = Some d ->
        let r := calculate_revenue c (Gurobi.row_at data t) d in
        export_revenue r
          == Gurobi.P_grid_export s t * dt * rrp (Gurobi.row_at data t) /\
        import_cost r
          == Gurobi.P_grid_import s t * dt * rrp (Gurobi.row_at data t) /\
        lgc_revenue r == pv_power (Gurobi.row_at data t) * dt * lgc_price c)
  /\ (forall c row d,
        let r := Daytime.calculate_revenue c row d in
        export_revenue r == Daytime.P_grid_export d * dt * rrp row /\
        import_cost r == Daytime.P_grid_import d * dt * rrp row /\
        lgc_revenue r
          == (Daytime.P_grid_export d + Daytime.P_pv_curtail d)
             * dt * lgc_price c /\
        net_revenue r == export_revenue r - import_cost r + lgc_revenue r).
Proof.
  split; [|split; [|split]].
  - intros c row d. simpl. repeat split; reflexivity.
  - intros c row d d'. reflexivity.
  - intros c data s t d Hn. apply extract_results_nth in Hn.
    destruct Hn as [_ ->]. simpl. repeat split; reflexivity.
  - intros c row d. simpl. repeat split; reflexivity.
Qed.

Lemma C8_witness :
  exists d,
    nth_error (Gurobi.extract_results default_config below_floor_rows
                 full_charge_assignment) 0 = Some d /\
    lgc_revenue (calculate_revenue default_config
                   (Gurobi.row_at below_floor_rows 0) d)
    == pv_power (Gurobi.row_at below_floor_rows 0) * dt
       * lgc_price default_config.
Proof.
  destruct C8_reporter_formulas as (_ & _ & Hx & _).
  eexists. split; [reflexivity|].
  apply (Hx default_config below_floor_rows full_charge_assignment 0%nat).
  reflexivity.
Defined.

(** C9 fails: the loader has no validation.  A negative irradiance of
    -100 W/m2 is loaded, becomes a generation power of -0.379 kW, and the
    heuristic goes on to schedule the period. *)
Lemma C9_counterexample :
  load_data default_config [(- 100, 0.05)] None
    = Returned [mkRow (- 100) 0.05 (generation_power default_config (- 100))]
  /\ load_data default_config [(- 100, 0.05)] None <> Raised InvalidInput
  /\ generation_power default_config (- 100) == - 0.379
  /\ length (optimize_greedy default_config
               (rows_of default_config [(- 100, 0.05)])) = 1%nat.
Proof.
  split; [reflexivity|]. split; [discriminate|].
  split; [vm_compute; reflexivity | reflexivity].
Qed.

(** C9 (amended).  Neither generation model validates its input or
    raises an error.  For every input series, with or without negative
    irradiance, [load_data] returns the frame whose generation power is
    irradiance * ratio / 1000 in every row, and with non-zero
    efficiencies the sequential heuristic schedules every period of that
    frame.  The linear-programming script computes a negative generation
    from a negative irradiance just as silently; the program it then
    builds has no plan within its bounds, so the script reports a failed
    optimisation and exits, while an input without negative irradiance
    always has a plan. *)
Theorem C9_generation_models_validate_nothing (c : Config)
    (raw : list (Q * Q)) (max_periods : option nat)
    (lp_data : list PuLP.Row) :
  (exists data,
     load_data c raw max_periods = Returned data /\
     Forall (fun row => pv_power row = poa row * poa_to_power_ratio c / 1000)
            data /\
     (max_periods = None -> map poa data = map fst raw) /\
     (~ eta_c c == 0 -> ~ eta_d c == 0 ->
      length (optimize_greedy c data) = length data))
  /\ (forall row, PuLP.POA row < 0 -> PuLP.PV_Power_kW row < 0)
  /\ ((exists row, In row lp_data /\ PuLP.POA row < 0) ->
      forall s, ~ PuLP.feasible lp_data s)
  /\ ((forall row, In row lp_data -> 0 <= PuLP.POA row) ->
      exists s, PuLP.feasible lp_data s).
Proof.
  split; [|split; [|split]].
  - assert (Hall : Forall
      (fun row => pv_power row = poa row * poa_to_power_ratio c / 1000)
      (map (fun r => mkRow (fst r) (snd r) (generation_power c (fst r))) raw)).
    { apply Forall_forall. intros row Hin. apply in_map_iff in Hin.
      destruct Hin as (r & <- & _). reflexivity. }
    unfold load_data.
    destruct max_periods as [[|k]|]; eexists; (split; [reflexivity|]);
      (split; [|split]); try (intros; discriminate);
      try (intros _ _; apply greedy_loop_length); try exact Hall.
    + apply Forall_forall. intros row Hin.
      rewrite Forall_forall in Hall. apply Hall.
      rewrite <- (firstn_skipn (S k)). apply in_or_app. left. exact Hin.
    + intros _. rewrite map_map. reflexivity.
  - intros row Hneg.
    unfold PuLP.PV_Power_kW, PuLP.PV_CAPACITY, PuLP.POA_TO_POWER_RATIO.
    qconst. lra.
  - intros (row & Hin & Hneg) s Hfeas.
    destruct (In_nth _ _ (PuLP.mkRow 0 0) Hin) as (t & Ht & Hrow).
    destruct (lp_constraints lp_data s Hfeas t Ht) as (_ & Hc & _).
    unfold PuLP.row_at in Hc. rewrite Hrow in Hc.
    unfold PuLP.PV_Energy_kWh, PuLP.PV_Power_kW, PuLP.PV_CAPACITY,
      PuLP.POA_TO_POWER_RATIO, PuLP.INTERVAL_HOURS in Hc.
    revert Hc. qconst. intros Hc. lra.
  - intros Hpoa. exists (curtail_everything lp_data).
    apply curtail_everything_feasible. exact Hpoa.
Qed.

Lemma C9_witness :
  (exists data,
     load_data default_config [(- 100, 0.05)] None = Returned data /\
     map poa data = [- 100] /\
     length (optimize_greedy default_config data) = length data)
  /\ forall s, ~ PuLP.feasible negative_irradiance_day s.
Proof.
  destruct (C9_generation_models_validate_nothing default_config
              [(- 100, 0.05)] None negative_irradiance_day)
    as ((data & Hl & _ & Hp & Hn) & _ & Hinf & _).
  split.
  - exists data. split; [exact Hl|]. split; [exact (Hp eq_refl)|].
    apply Hn; vm_compute; discriminate.
  - apply Hinf. exists (PuLP.mkRow 50 (- 100)).
    split; [right; left; reflexivity | vm_compute; reflexivity].
Defined.

(** C10.  The exact formulation has no curtailment variable: every
    accepted assignment balances generation, discharge and import against
    charge and export exactly.  Hence, in a period whose price is below
    the floor and whose generation is positive, the export is zero, the
    battery does not discharge, and charging absorbs the generation and
    whatever is imported. *)
Theorem C10_exact_balance_without_curtailment
    (c : Config) (data : list Row) (s : Gurobi.Solution) (t : nat)
    (Hfeas : Gurobi.feasible c data s) (Ht : (t < length data)%nat) :
  let pv := pv_power (Gurobi.row_at data t) in
  pv + Gurobi.P_discharge s t + Gurobi.P_grid_import s t
    == Gurobi.P_charge s t + Gurobi.P_grid_export s t
  /\ (rrp (Gurobi.row_at data t) < min_export_price c -> 0 < pv ->
      Gurobi.P_grid_export s t == 0 /\
      Gurobi.P_discharge s t == 0 /\
      Gurobi.P_charge s t == pv + Gurobi.P_grid_import s t).
Proof.
  intros pv. subst pv.
  pose proof (exact_power_balance c data s Hfeas t Ht) as Hb.
  split; [exact Hb|]. intros Hp Hpv.
  pose proof (exact_min_price c data s Hfeas t Ht Hp) as He.
  destruct (exact_power_bounds c data s Hfeas t Ht) as (Hc & Hd & Hi & _).
  destruct (exact_exclusive c data s Hfeas t Ht) as [Hx _].
  assert (Hpos : 0 < Gurobi.P_charge s t) by lra.
  specialize (Hx Hpos). repeat split; lra.
Qed.

Lemma C10_witness :
  Gurobi.feasible default_config below_floor_rows full_charge_assignment /\
  rrp (Gurobi.row_at below_floor_rows 0) < min_export_price default_config /\
  0 < pv_power (Gurobi.row_at below_floor_rows 0) /\
  Gurobi.P_grid_export full_charge_assignment 0 == 0 /\
  Gurobi.P_discharge full_charge_assignment 0 == 0 /\
  Gurobi.P_charge full_charge_assignment 0
    == pv_power (Gurobi.row_at below_floor_rows 0)
       + Gurobi.P_grid_import full_charge_assignment 0.
Proof.
  assert (Hf : Gurobi.feasible default_config below_floor_rows
                 full_charge_assignment) by (vm_compute; reflexivity).
  assert (Ht : (0 < length below_floor_rows)%nat) by (simpl; lia).
  assert (Hp : rrp (Gurobi.row_at below_floor_rows 0)
               < min_export_price default_config) by (vm_compute; reflexivity).
  assert (Hg : 0 < pv_power (Gurobi.row_at below_floor_rows 0))
    by (vm_compute; reflexivity).
  split; [exact Hf|]. split; [exact Hp|]. split; [exact Hg|].
  exact (proj2 (C10_exact_balance_without_curtailment default_config
                  below_floor_rows full_charge_assignment 0 Hf Ht) Hp Hg).
Defined.

(** * Further properties of the modelled code *)

(** ** The heuristic within the physical limits *)

Lemma np_clip_id x lo hi : lo <= x <= hi -> np_clip x lo hi = x.
Proof.
  intros [H1 H2]. unfold np_clip. cbv zeta.
  destruct (Qltb_spec x lo); [lra|].
  destruct (Qltb_spec hi x); [lra | reflexivity].
Qed.

Lemma le_div_mult x a k : 0 < k -> x <= a / k -> x * k <= a.
Proof.
  intros Hk H.
  assert (E : a / k * k == a) by (field; lra).
  rewrite <- E. apply Qmult_le_compat_r; lra.
Qed.

Lemma div_nonneg a k : 0 < k -> 0 <= a -> 0 <= a / k.
Proof.
  intros Hk Ha. apply Qle_shift_div_l; [exact Hk|]. lra.
Qed.

Section Limits.

Variable c : Config.
Variables rrp_25 rrp_75 : Q.
Hypothesis Hphys : physical c.

Lemma dt_eta_c_pos : 0 < dt * eta_c c.
Proof.
  destruct Hphys as (_ & _ & _ & Hc & _).
  apply Qmult_lt_0_compat; [exact dt_pos | exact Hc].
Qed.

(** The tentative decision of a period that starts with the state within
    the battery and has non-negative generation: every power is within
    its limits, the charge fits into the free capacity and the discharge
    is covered by the stored energy. *)
Lemma decide_limits soc pv price :
  0 <= soc <= E_capacity c -> 0 <= pv ->
  let '(ch, dis, imp, ex) := decide c rrp_25 rrp_75 soc pv price in
  0 <= ch <= P_charge_max c /\ 0 <= dis <= P_discharge_max c /\
  0 <= imp /\ 0 <= ex <= pv + P_discharge_max c /\
  ch * (dt * eta_c c) <= E_capacity c - soc /\
  dis * dt <= soc * eta_d c.
Proof.
  intros [Hs0 Hs1] Hpv.
  destruct Hphys as (Hcap & Hcm & Hdm & Hec & Hed & _).
  pose proof dt_eta_c_pos as Hk. pose proof dt_pos as Hdt.
  assert (Hh0 : 0 <= (E_capacity c - soc) / (dt * eta_c c))
    by (apply div_nonneg; lra).
  assert (Hroom : forall x, x <= (E_capacity c - soc) / (dt * eta_c c) ->
                            x * (dt * eta_c c) <= E_capacity c - soc)
    by (intros x Hx; apply le_div_mult; assumption).
  assert (Hz : forall x, 0 * x == 0) by (intros; apply Qmult_0_l).
  assert (Hsd : 0 <= soc * eta_d c) by (apply Qmult_le_0_compat; lra).
  unfold decide. cbv zeta.
  set (H := (E_capacity c - soc) / (dt * eta_c c)) in *.
  destruct (Qltb_spec price 0).
  { pose proof (pymin_le_l (P_charge_max c) H) as Ha.
    pose proof (pymin_le_r (P_charge_max c) H) as Hb.
    pose proof (pymin_glb (P_charge_max c) H 0 Hcm Hh0) as Hc0.
    set (g := pymin (P_charge_max c) H) in *.
    destruct (Qltb_spec g (P_charge_max c)) as [Hlt|Hge].
    - unfold pymin3.
      pose proof (pymin_le_l (pymin pv (P_charge_max c - g)) (H - g)) as H1.
      pose proof (pymin_le_r (pymin pv (P_charge_max c - g)) (H - g)) as H2.
      pose proof (pymin_le_l pv (P_charge_max c - g)) as H3.
      pose proof (pymin_le_r pv (P_charge_max c - g)) as H4.
      assert (H5 : 0 <= pymin (pymin pv (P_charge_max c - g)) (H - g)).
      { apply pymin_glb; [apply pymin_glb|]; lra. }
      set (p := pymin (pymin pv (P_charge_max c - g)) (H - g)) in *.
      assert (Hfit : (g + p) * (dt * eta_c c) <= E_capacity c - soc)
        by (apply Hroom; lra).
      destruct (Qltb_spec 0 (pv - p)); rewrite Hz; repeat split; lra.
    - assert (Hfit : g * (dt * eta_c c) <= E_capacity c - soc)
        by (apply Hroom; lra).
      destruct (Qltb_spec 0 pv); rewrite Hz; repeat split; lra. }
  destruct (Qltb_spec price rrp_25).
  { destruct (Qltb_spec soc (0.8 * E_capacity c)).
    - unfold pymin3.
      pose proof (pymin_le_l (pymin pv (P_charge_max c)) H) as H1.
      pose proof (pymin_le_r (pymin pv (P_charge_max c)) H) as H2.
      pose proof (pymin_le_l pv (P_charge_max c)) as H3.
      pose proof (pymin_le_r pv (P_charge_max c)) as H4.
      assert (H5 : 0 <= pymin (pymin pv (P_charge_max c)) H).
      { apply pymin_glb; [apply pymin_glb|]; lra. }
      set (p := pymin (pymin pv (P_charge_max c)) H) in *.
      destruct ((price <? rrp_25 * 0.5) && (soc <? 0.3 * E_capacity c)).
      + pose proof (pymin_le_l (P_charge_max c - p) (H - p)) as H6.
        pose proof (pymin_le_r (P_charge_max c - p) (H - p)) as H7.
        assert (H8 : 0 <= pymin (P_charge_max c - p) (H - p))
          by (apply pymin_glb; lra).
        set (gc := pymin (P_charge_max c - p) (H - p)) in *.
        assert (Hfit : (p + gc) * (dt * eta_c c) <= E_capacity c - soc)
          by (apply Hroom; lra).
        rewrite Hz. repeat split; lra.
      + assert (Hfit : p * (dt * eta_c c) <= E_capacity c - soc)
          by (apply Hroom; lra).
        rewrite Hz. repeat split; lra.
    - rewrite !Hz. repeat split; lra. }
  destruct (Qltb_spec rrp_75 price).
  { destruct ((0.1 * E_capacity c <? soc) && (min_export_price c <? price)).
    - pose proof (pymin_le_l (P_discharge_max c) (soc * eta_d c / dt)) as H1.
      pose proof (pymin_le_r (P_discharge_max c) (soc * eta_d c / dt)) as H2.
      assert (H3 : 0 <= pymin (P_discharge_max c) (soc * eta_d c / dt)).
      { apply pymin_glb; [lra|]. apply div_nonneg; lra. }
      set (d := pymin (P_discharge_max c) (soc * eta_d c / dt)) in *.
      assert (Hfit : d * dt <= soc * eta_d c)
        by (apply le_div_mult; [exact Hdt | exact H2]).
      rewrite Hz. repeat split; lra.
    - rewrite !Hz. repeat split; lra. }
  destruct (Qltb_spec (min_export_price c) price);
    rewrite !Hz; repeat split; lra.
Qed.

End Limits.

(** The rows of a run: an invariant of the running state and previous
    export that every iteration keeps holds before every iteration. *)
Lemma greedy_loop_inv c r25 r75 (Inv : Q -> Q -> Prop) rows :
  (forall soc prev row, In row rows -> Inv soc prev ->
     Inv (SOC (greedy_step c r25 r75 soc prev row))
         (P_grid_export (greedy_step c r25 r75 soc prev row))) ->
  forall soc prev t d, Inv soc prev ->
  nth_error (greedy_loop c r25 r75 soc prev rows) t = Some d ->
  exists soc' prev' row,
    Inv soc' prev' /\ nth_error rows t = Some row /\
    nth_error (soc :: map SOC (greedy_loop c r25 r75 soc prev rows)) t
      = Some soc' /\
    d = greedy_step c r25 r75 soc' prev' row.
Proof.
  induction rows as [|row rest IH]; intros Hstep soc prev t d Hinv H.
  - destruct t; discriminate.
  - destruct t as [|t].
    + simpl in H. inversion H. exists soc, prev, row. repeat split; assumption.
    + simpl in H. apply IH in H.
      * destruct H as (soc' & prev' & row' & Hi & Hr & Hs & Hd).
        exists soc', prev', row'. repeat split; assumption.
      * intros s p r Hin. apply Hstep. now right.
      * apply Hstep; [now left | exact Hinv].
Qed.

Section LimitsOfRun.

Variable c : Config.
Variables rrp_25 rrp_75 : Q.
Hypothesis Hphys : physical c.
Hypothesis Hramp : 0 <= ramp_rate c.

Lemma greedy_step_limits soc prev row :
  0 <= soc <= E_capacity c -> 0 <= prev -> 0 <= pv_power row ->
  let d := greedy_step c rrp_25 rrp_75 soc prev row in
  (0 <= P_charge d <= P_charge_max c /\
   0 <= P_discharge d <= P_discharge_max c /\
   0 <= P_grid_import d /\ 0 <= P_grid_export d) /\
  SOC d = soc + P_charge d * dt * eta_c c - P_discharge d * dt / eta_d c /\
  0 <= SOC d <= E_capacity c.
Proof.
  intros Hs Hprev Hpv.
  destruct Hphys as (Hcap & Hcm & Hdm & Hec & Hed & _).
  pose proof (decide_limits c rrp_25 rrp_75 Hphys soc (pv_power row) (rrp row)
                Hs Hpv) as HL.
  unfold greedy_step.
  destruct (decide c rrp_25 rrp_75 soc (pv_power row) (rrp row))
    as [[[ch dis] imp] ex].
  destruct HL as (Hch & Hdis & Himp & [Hex Hexu] & Hfit & Hdrain).
  destruct (ramp_adjust_spec c Hramp prev (pv_power row) dis ex)
    as (He & _); try lra.
  cbn [P_charge P_discharge P_grid_import P_grid_export SOC].
  assert (Hx : 0 <= ch * dt * eta_c c).
  { apply Qmult_le_0_compat; [|lra].
    apply Qmult_le_0_compat; [lra|]. pose proof dt_pos. lra. }
  assert (Hy0 : 0 <= dis * dt / eta_d c).
  { apply div_nonneg; [exact Hed|].
    apply Qmult_le_0_compat; [lra|]. pose proof dt_pos. lra. }
  assert (Hy1 : dis * dt / eta_d c <= soc)
    by (apply Qle_shift_div_r; [exact Hed | exact Hdrain]).
  assert (Hin : 0 <= soc + ch * dt * eta_c c - dis * dt / eta_d c
                <= E_capacity c) by (split; lra).
  unfold soc_update. rewrite (np_clip_id _ _ _ Hin).
  split; [repeat split; lra | split; [reflexivity | exact Hin]].
Qed.

End LimitsOfRun.

Lemma initial_state_within c :
  physical c -> 0 <= initial_soc c * E_capacity c <= E_capacity c.
Proof.
  intros (Hcap & _ & _ & _ & _ & Hi0 & Hi1). split.
  - apply Qmult_le_0_compat; assumption.
  - rewrite <- (Qmult_1_l (E_capacity c)) at 2.
    apply Qmult_le_compat_r; assumption.
Qed.

(** Every row of a run under a physical configuration is one iteration
    of the body, started with the state within the battery and a
    non-negative previous export. *)
Lemma optimize_greedy_step (c : Config) (data : list Row) (t : nat)
    (d : Decision) :
  physical c -> 0 <= ramp_rate c ->
  (forall row, In row data -> 0 <= pv_power row) ->
  nth_error (optimize_greedy c data) t = Some d ->
  exists soc prev row,
    0 <= soc <= E_capacity c /\ 0 <= prev /\
    nth_error data t = Some row /\
    nth_error (soc_trace c data) t = Some soc /\
    d = greedy_step c (quantile (map rrp data) 0.25)
          (quantile (map rrp data) 0.75) soc prev row.
Proof.
  intros Hphys Hramp Hpv Hd. unfold optimize_greedy in Hd.
  pose proof (greedy_loop_inv c (quantile (map rrp data) 0.25)
                (quantile (map rrp data) 0.75)
                (fun soc prev => 0 <= soc <= E_capacity c /\ 0 <= prev) data)
    as Hinv.
  destruct (Hinv) with (soc := initial_soc c * E_capacity c) (prev := 0)
                       (t := t) (d := d)
    as (soc' & prev' & row & [Hs Hp] & Hr & Ht & Heq).
  - intros soc prev row Hin [Hs Hp].
    destruct (greedy_step_limits c (quantile (map rrp data) 0.25)
                (quantile (map rrp data) 0.75) Hphys Hramp soc prev row Hs Hp
                (Hpv row Hin)) as ((_ & _ & _ & He) & _ & Hb).
    split; assumption.
  - split; [apply initial_state_within; exact Hphys | lra].
  - exact Hd.
  - exists soc', prev', row. repeat split; try assumption; apply Hs.
Qed.

(** X1.  Under a physical configuration with a non-negative ramp rate
    and non-negative generation, every decision of the heuristic is
    within the power limits, and no power is negative. *)
Theorem X1_heuristic_power_limits (c : Config) (data : list Row)
    (t : nat) (d : Decision)
    (Hphys : physical c) (Hramp : 0 <= ramp_rate c)
    (Hpv : forall row, In row data -> 0 <= pv_power row)
    (Hd : nth_error (optimize_greedy c data) t = Some d) :
  0 <= P_charge d <= P_charge_max c /\
  0 <= P_discharge d <= P_discharge_max c /\
  0 <= P_grid_import d /\ 0 <= P_grid_export d.
Proof.
  destruct (optimize_greedy_step c data t d Hphys Hramp Hpv Hd)
    as (soc & prev & row & Hs & Hp & Hr & _ & ->).
  apply nth_error_In in Hr.
  exact (proj1 (greedy_step_limits c _ _ Hphys Hramp soc prev row Hs Hp
                  (Hpv row Hr))).
Qed.

Lemma default_config_physical : physical default_config.
Proof. unfold physical. repeat split; vm_compute; discriminate. Qed.

Lemma tight_ramp_config_physical : physical tight_ramp_config.
Proof. unfold physical. repeat split; vm_compute; discriminate. Qed.

Lemma X1_witness :
  exists d,
    nth_error (optimize_greedy tight_ramp_config falling_price_rows) 1
      = Some d /\
    0 <= P_charge d <= P_charge_max tight_ramp_config /\
    0 <= P_discharge d <= P_discharge_max tight_ramp_config /\
    0 <= P_grid_import d /\ 0 <= P_grid_export d.
Proof.
  eexists. split; [reflexivity|].
  apply (X1_heuristic_power_limits tight_ramp_config falling_price_rows 1%nat).
  - exact tight_ramp_config_physical.
  - vm_compute. discriminate.
  - intros row Hin. simpl in Hin.
    destruct Hin as [<-|[<-|[<-|[]]]]; vm_compute; discriminate.
  - reflexivity.
Defined.



(** ** When each branch of the decision logic is taken *)

Section Branches.

Variable c : Config.
Variables rrp_25 rrp_75 : Q.

(** At a negative price the battery is charged from the grid only: the
    share of the generation sent to the battery is always zero. *)
Lemma decide_negative_price soc pv price :
  price < 0 -> 0 <= pv ->
  let '(ch, dis, imp, ex) := decide c rrp_25 rrp_75 soc pv price in
  ch == imp /\ dis == 0 /\ ex == pv.
Proof.
  intros Hneg Hpv. unfold decide. cbv zeta.
  destruct (Qltb_spec price 0); [|lra].
  set (H := (E_capacity c - soc) / (dt * eta_c c)).
  destruct (Qltb_spec (pymin (P_charge_max c) H) (P_charge_max c)) as [Hlt|Hge].
  - assert (Hg : pymin (P_charge_max c) H == H).
    { unfold pymin in *. destruct (Qltb_spec H (P_charge_max c)); lra. }
    assert (Hp : pymin3 pv (P_charge_max c - pymin (P_charge_max c) H)
                   (H - pymin (P_charge_max c) H) == 0).
    { unfold pymin3.
      set (a := pymin pv (P_charge_max c - pymin (P_charge_max c) H)).
      assert (Ha : 0 <= a) by (apply pymin_glb; lra).
      pose proof (pymin_le_r a (H - pymin (P_charge_max c) H)) as Hb.
      assert (Hc : 0 <= pymin a (H - pymin (P_charge_max c) H))
        by (apply pymin_glb; lra).
      lra. }
    set (p := pymin3 pv (P_charge_max c - pymin (P_charge_max c) H)
                (H - pymin (P_charge_max c) H)) in *.
    destruct (Qltb_spec 0 (pv - p)); repeat split; lra.
  - destruct (Qltb_spec 0 pv); repeat split; lra.
Qed.

(** What a positive discharge, import or charge says about the price and
    the state. *)
Lemma decide_conditions soc pv price :
  let '(ch, dis, imp, _) := decide c rrp_25 rrp_75 soc pv price in
  (0 < dis ->
     0 <= price /\ rrp_25 <= price /\ rrp_75 < price /\
     min_export_price c < price /\ 0.1 * E_capacity c < soc) /\
  (0 < imp ->
     price < 0 \/
     (price < rrp_25 * 0.5 /\ price < rrp_25 /\ soc < 0.3 * E_capacity c)) /\
  (0 < ch ->
     price < 0 \/ (price < rrp_25 /\ soc < 0.8 * E_capacity c)).
Proof.
  unfold decide. cbv zeta.
  destruct (Qltb_spec price 0).
  { destruct (Qltb_spec (pymin (P_charge_max c)
       ((E_capacity c - soc) / (dt * eta_c c))) (P_charge_max c));
      repeat split; intros; try lra; left; assumption. }
  destruct (Qltb_spec price rrp_25).
  { destruct (Qltb_spec soc (0.8 * E_capacity c)).
    - destruct (Qltb_spec price (rrp_25 * 0.5));
        destruct (Qltb_spec soc (0.3 * E_capacity c)); simpl;
        repeat split; intros; try lra; right; repeat split; assumption.
    - repeat split; intros; lra. }
  destruct (Qltb_spec rrp_75 price).
  { destruct (Qltb_spec (0.1 * E_capacity c) soc);
      destruct (Qltb_spec (min_export_price c) price); simpl;
      repeat split; intros; lra. }
  destruct (Qltb_spec (min_export_price c) price);
    repeat split; intros; lra.
Qed.

(** The tentative decision balances generation, discharge and import
    against charge and export, except in the middle branch at a price at
    or below the floor, where the generation is dropped. *)
Lemma decide_balanced soc pv price :
  0 <= pv ->
  let '(ch, dis, imp, ex) := decide c rrp_25 rrp_75 soc pv price in
  (min_export_price c < price \/ price < rrp_25 \/ price < 0 ->
   pv + dis + imp == ch + ex) /\
  (pv + dis + imp == ch + ex \/ (ch == 0 /\ dis == 0 /\ imp == 0 /\ ex == 0)).
Proof.
  intros Hpv. unfold decide. cbv zeta.
  set (H := (E_capacity c - soc) / (dt * eta_c c)).
  destruct (Qltb_spec price 0).
  { set (g := pymin (P_charge_max c) H).
    destruct (Qltb_spec g (P_charge_max c)).
    - unfold pymin3.
      pose proof (pymin_le_l (pymin pv (P_charge_max c - g)) (H - g)) as H1.
      pose proof (pymin_le_l pv (P_charge_max c - g)) as H3.
      set (p := pymin (pymin pv (P_charge_max c - g)) (H - g)) in *.
      destruct (Qltb_spec 0 (pv - p)); split; intros; try left; lra.
    - destruct (Qltb_spec 0 pv); split; intros; try left; lra. }
  destruct (Qltb_spec price rrp_25).
  { destruct (Qltb_spec soc (0.8 * E_capacity c)).
    - destruct ((price <? rrp_25 * 0.5) && (soc <? 0.3 * E_capacity c));
        split; intros; try left; lra.
    - split; intros; try left; lra. }
  destruct (Qltb_spec rrp_75 price).
  { destruct ((0.1 * E_capacity c <? soc) && (min_export_price c <? price));
      split; intros; try left; lra. }
  destruct (Qltb_spec (min_export_price c) price).
  - split; intros; try left; lra.
  - split; [intros [H0|[H0|H0]]; lra | right; repeat split; lra].
Qed.

End Branches.

Lemma greedy_step_at c data t row d :
  nth_error data t = Some row ->
  nth_error (optimize_greedy c data) t = Some d ->
  exists before prev,
    nth_error (soc_trace c data) t = Some before /\
    d = greedy_step c (quantile (map rrp data) 0.25)
          (quantile (map rrp data) 0.75) before prev row.
Proof.
  intros Hr Hd. unfold optimize_greedy in Hd.
  destruct (greedy_loop_inv c (quantile (map rrp data) 0.25)
              (quantile (map rrp data) 0.75) (fun _ _ => True) data
              (fun _ _ _ _ _ => I) (initial_soc c * E_capacity c) 0 t d I Hd)
    as (soc' & prev' & row' & _ & Hr' & Ht & Heq).
  rewrite Hr in Hr'. inversion Hr'; subst row'.
  exists soc', prev'. split; assumption.
Qed.

(** X3.  In a period with a negative price and non-negative generation
    the heuristic charges the battery from the grid only (the branch that
    would store generation never contributes) and does not discharge. *)
Theorem X3_negative_price_charges_from_grid_only (c : Config)
    (data : list Row) (t : nat) (row : Row) (d : Decision)
    (Hrow : nth_error data t = Some row)
    (Hd : nth_error (optimize_greedy c data) t = Some d)
    (Hneg : rrp row < 0) (Hpv : 0 <= pv_power row) :
  P_charge d == P_grid_import d /\ P_discharge d == 0.
Proof.
  destruct (greedy_step_at c data t row d Hrow Hd) as (before & prev & _ & ->).
  unfold greedy_step.
  pose proof (decide_negative_price c (quantile (map rrp data) 0.25)
                (quantile (map rrp data) 0.75) before (pv_power row) (rrp row)
                Hneg Hpv) as H.
  destruct (decide c _ _ before (pv_power row) (rrp row))
    as [[[ch dis] imp] ex].
  simpl. tauto.
Qed.

Lemma X3_witness :
  exists row d,
    nth_error below_floor_rows 0 = Some row /\
    nth_error (optimize_greedy default_config below_floor_rows) 0 = Some d /\
    rrp row < 0 /\
    P_charge d == P_grid_import d /\ P_discharge d == 0.
Proof.
  do 2 eexists. split; [reflexivity|]. split; [reflexivity|].
  split; [vm_compute; reflexivity|].
  apply (X3_negative_price_charges_from_grid_only default_config
           below_floor_rows 0%nat (nth 0 below_floor_rows (mkRow 0 0 0)));
    try reflexivity; vm_compute; discriminate.
Defined.

(** X4.  The heuristic discharges only at a non-negative price above the
    upper quartile and above the price floor, with more than 10% of the
    capacity stored; it imports only at a negative price, or below half
    the lower quartile with less than 30% stored; it charges only at a
    negative price, or below the lower quartile with less than 80%
    stored. *)
Theorem X4_when_the_heuristic_uses_the_battery (c : Config)
    (data : list Row) (t : nat) (row : Row) (d : Decision)
    (Hrow : nth_error data t = Some row)
    (Hd : nth_error (optimize_greedy c data) t = Some d) :
  let rrp_25 := quantile (map rrp data) 0.25 in
  let rrp_75 := quantile (map rrp data) 0.75 in
  exists before,
    nth_error (soc_trace c data) t = Some before /\
    (0 < P_discharge d ->
       0 <= rrp row /\ rrp_75 < rrp row /\ min_export_price c < rrp row /\
       0.1 * E_capacity c < before) /\
    (0 < P_grid_import d ->
       rrp row < 0 \/
       (rrp row < rrp_25 * 0.5 /\ before < 0.3 * E_capacity c)) /\
    (0 < P_charge d ->
       rrp row < 0 \/ (rrp row < rrp_25 /\ before < 0.8 * E_capacity c)).
Proof.
  intros rrp_25 rrp_75.
  destruct (greedy_step_at c data t row d Hrow Hd) as (before & prev & Hb & ->).
  exists before. split; [exact Hb|].
  unfold greedy_step.
  pose proof (decide_conditions c rrp_25 rrp_75 before (pv_power row)
                (rrp row)) as H.
  fold rrp_25 rrp_75.
  destruct (decide c rrp_25 rrp_75 before (pv_power row) (rrp row))
    as [[[ch dis] imp] ex].
  simpl. destruct H as (H1 & H2 & H3).
  split; [|split].
  - intros Hp. specialize (H1 Hp). tauto.
  - intros Hp. specialize (H2 Hp). tauto.
  - intros Hp. specialize (H3 Hp). tauto.
Qed.

Lemma X4_witness :
  exists row d before,
    nth_error falling_price_rows 1 = Some row /\
    nth_error (optimize_greedy tight_ramp_config falling_price_rows) 1
      = Some d /\
    nth_error (soc_trace tight_ramp_config falling_price_rows) 1
      = Some before /\
    0 < P_discharge d /\
    quantile (map rrp falling_price_rows) 0.75 < rrp row /\
    min_export_price tight_ramp_config < rrp row /\
    0.1 * E_capacity tight_ramp_config < before.
Proof.
  destruct (X4_when_the_heuristic_uses_the_battery tight_ramp_config
              falling_price_rows 1%nat
              (nth 1 falling_price_rows (mkRow 0 0 0))
              (nth 1 (optimize_greedy tight_ramp_config falling_price_rows)
                   (mkDecision 0 0 0 0 0 0)) eq_refl eq_refl)
    as (before & Hb & Hdis & _).
  assert (Hpos : 0 < P_discharge
            (nth 1 (optimize_greedy tight_ramp_config falling_price_rows)
                 (mkDecision 0 0 0 0 0 0))) by (vm_compute; reflexivity).
  do 2 eexists. exists before.
  split; [reflexivity|]. split; [reflexivity|]. split; [exact Hb|].
  split; [exact Hpos|]. exact (proj2 (Hdis Hpos)).
Defined.

(** ** A ramp limit that never binds *)

Lemma ramp_adjust_unchanged c prev pv dis ex B :
  0 <= prev <= B -> 0 <= ex <= B -> B <= max_ramp c ->
  ramp_adjust c prev pv dis ex = ex.
Proof.
  intros Hp He HB. unfold ramp_adjust, pyabs.
  destruct (Qltb_spec (ex - prev) 0);
    match goal with |- context [if ?a <? ?b then _ else _] =>
      destruct (Qltb_spec a b) end; try reflexivity; lra.
Qed.

(** X5.  When the ramp limit is at least the largest generation plus the
    discharge limit (as with the default ramp rate on any realistic
    irradiance), the ramp block never changes the export, and every
    period is balanced: generation + discharge + import = charge +
    export, except that in the middle price band at a price at or below
    the floor nothing is done and the generation is dropped. *)
Theorem X5_balance_when_the_ramp_limit_never_binds (c : Config)
    (data : list Row) (pv_max : Q) (t : nat) (row : Row) (d : Decision)
    (Hphys : physical c)
    (Hpv : forall r, In r data -> 0 <= pv_power r <= pv_max)
    (Hroom : pv_max + P_discharge_max c <= max_ramp c)
    (Hrow : nth_error data t = Some row)
    (Hd : nth_error (optimize_greedy c data) t = Some d) :
  (min_export_price c < rrp row \/ rrp row < 0 ->
   pv_power row + P_discharge d + P_grid_import d
     == P_charge d + P_grid_export d) /\
  (pv_power row + P_discharge d + P_grid_import d
     == P_charge d + P_grid_export d
   \/ (P_charge d == 0 /\ P_discharge d == 0 /\
       P_grid_import d == 0 /\ P_grid_export d == 0)).
Proof.
  set (B := pv_max + P_discharge_max c) in *.
  set (r25 := quantile (map rrp data) 0.25).
  set (r75 := quantile (map rrp data) 0.75).
  assert (Hdm : 0 <= P_discharge_max c) by apply Hphys.
  assert (Hstep : forall soc prev r,
            In r data -> 0 <= soc <= E_capacity c -> 0 <= prev <= B ->
            let '(ch, dis, imp, ex) :=
              decide c r25 r75 soc (pv_power r) (rrp r) in
            greedy_step c r25 r75 soc prev r
            = mkDecision ch dis imp ex (soc_update c soc ch dis)
                (soc_update c soc ch dis / E_capacity c * 100)
            /\ 0 <= ex <= B).
  { intros soc prev r Hin Hs Hp.
    pose proof (decide_limits c r25 r75 Hphys soc (pv_power r) (rrp r) Hs
                  (proj1 (Hpv r Hin))) as HL.
    unfold greedy_step.
    destruct (decide c r25 r75 soc (pv_power r) (rrp r))
      as [[[ch dis] imp] ex].
    destruct HL as (_ & _ & _ & [Hex Hexu] & _).
    assert (HexB : 0 <= ex <= B).
    { destruct (Hpv r Hin). subst B. split; lra. }
    rewrite (ramp_adjust_unchanged c prev (pv_power r) dis ex B Hp HexB Hroom).
    split; [reflexivity | exact HexB]. }
  assert (Hramp : 0 <= ramp_rate c).
  { destruct data as [|r0 data']; [destruct t; discriminate|].
    destruct (Hpv r0 (or_introl eq_refl)). unfold max_ramp in Hroom.
    subst B. lra. }
  unfold optimize_greedy in Hd. fold r25 r75 in Hd.
  destruct (greedy_loop_inv c r25 r75
              (fun soc prev => 0 <= soc <= E_capacity c /\ 0 <= prev <= B)
              data) with (soc := initial_soc c * E_capacity c) (prev := 0)
                         (t := t) (d := d)
    as (soc' & prev' & row' & [Hs Hp] & Hr' & _ & ->).
  - intros soc prev r Hin [Hs Hp].
    pose proof (Hstep soc prev r Hin Hs Hp) as H.
    destruct (greedy_step_limits c r25 r75 Hphys Hramp soc prev r Hs
                (proj1 Hp) (proj1 (Hpv r Hin))) as (_ & _ & Hb).
    split; [exact Hb|].
    destruct (decide c r25 r75 soc (pv_power r) (rrp r))
      as [[[ch dis] imp] ex].
    destruct H as [-> HexB]. exact HexB.
  - split; [apply initial_state_within; exact Hphys|].
    destruct data as [|r0 data']; [destruct t; discriminate|].
    destruct (Hpv r0 (or_introl eq_refl)). subst B. split; lra.
  - exact Hd.
  - rewrite Hrow in Hr'. inversion Hr'; subst row'.
    assert (Hin : In row data) by (eapply nth_error_In; exact Hrow).
    pose proof (Hstep soc' prev' row Hin Hs Hp) as H.
    pose proof (decide_balanced c r25 r75 soc' (pv_power row) (rrp row)
                  (proj1 (Hpv row Hin))) as Hbal.
    destruct (decide c r25 r75 soc' (pv_power row) (rrp row))
      as [[[ch dis] imp] ex].
    destruct H as [-> _]. simpl. destruct Hbal as [H1 H2].
    split; [intros [Hf|Hn]; apply H1; tauto | exact H2].
Qed.

Lemma X5_witness :
  exists row d,
    nth_error steady_rows 1 = Some row /\
    nth_error (optimize_greedy default_config steady_rows) 1 = Some d /\
    pv_power row + P_discharge d + P_grid_import d
      == P_charge d + P_grid_export d.
Proof.
  do 2 eexists. split; [reflexivity|]. split; [reflexivity|].
  apply (X5_balance_when_the_ramp_limit_never_binds default_config
           steady_rows 4 1%nat (nth 1 steady_rows (mkRow 0 0 0))).
  - exact default_config_physical.
  - intros r Hin. simpl in Hin.
    destruct Hin as [<-|[<-|[]]]; split; vm_compute; discriminate.
  - vm_compute. discriminate.
  - reflexivity.
  - reflexivity.
  - left. vm_compute. reflexivity.
Defined.

(** ** The heuristic's schedule in the exact formulation *)

Lemma Forall2_map_seq {A B} (R : A -> B -> Prop) (l : list A) :
  forall g : nat -> B,
  (forall t x, nth_error l t = Some x -> R x (g t)) ->
  Forall2 R l (map g (seq 0 (length l))).
Proof.
  induction l as [|x l IH]; intros g H; simpl; [constructor|].
  constructor; [apply (H 0%nat); reflexivity|].
  rewrite <- seq_shift, map_map. apply IH.
  intros t y Ht. apply (H (S t)). exact Ht.
Qed.

Lemma pyabs_eq x y : x == y -> pyabs x == pyabs y.
Proof. intros E. unfold pyabs. qcases; lra. Qed.

Lemma forallb_seq (f : nat -> bool) a n :
  (forall t, (a <= t < a + n)%nat -> f t = true) ->
  forallb f (seq a n) = true.
Proof.
  intros H. apply forallb_forall. intros t Hin. apply in_seq in Hin.
  apply H. exact Hin.
Qed.

(** The revenue of the heuristic's schedule is the objective of the
    exact formulation at that schedule. *)
Lemma heuristic_assignment_revenue c data :
  total_net_revenue c data (optimize_greedy c data)
  == Gurobi.objective c data (heuristic_assignment c data).
Proof.
  rewrite <- total_of_extract_results.
  apply total_net_revenue_ext.
  unfold Gurobi.extract_results, Gurobi.periods.
  replace (length data) with (length (optimize_greedy c data))
    by apply greedy_loop_length.
  apply Forall2_map_seq. intros t d Ht.
  unfold heuristic_assignment.
  cbn [Gurobi.P_grid_export Gurobi.P_grid_import P_grid_export P_grid_import].
  rewrite (nth_error_nth _ _ _ Ht). split; reflexivity.
Qed.

Section HeuristicInExact.

Variables (c : Config) (data : list Row).
Hypothesis Hphys : physical c.
Hypothesis Hpv : forall r, In r data ->
  0 <= pv_power r /\ pv_power r + P_discharge_max c <= max_ramp c.
Hypothesis Hfloor : forall r, In r data -> min_export_price c < rrp r.

(** What the heuristic writes for period [t] under these conditions:
    powers within the limits, an export the ramp block leaves alone, a
    state that follows the recurrence, and a closed balance. *)
Lemma heuristic_period t : (t < length data)%nat ->
  let d := nth t (optimize_greedy c data) (mkDecision 0 0 0 0 0 0) in
  let before := nth t (soc_trace c data) 0 in
  let after := nth (S t) (soc_trace c data) 0 in
  (0 <= P_charge d <= P_charge_max c /\
   0 <= P_discharge d <= P_discharge_max c /\
   0 <= P_grid_import d /\ 0 <= P_grid_export d <= max_ramp c) /\
  0 <= before <= E_capacity c /\
  after = before + P_charge d * dt * eta_c c - P_discharge d * dt / eta_d c /\
  0 <= after <= E_capacity c /\
  pv_power (Gurobi.row_at data t) + P_discharge d + P_grid_import d
    == P_charge d + P_grid_export d /\
  (0 < P_charge d -> P_discharge d == 0).
Proof.
  intros Ht. cbv zeta.
  set (dflt := mkDecision 0 0 0 0 0 0).
  set (r25 := quantile (map rrp data) 0.25).
  set (r75 := quantile (map rrp data) 0.75).
  assert (Hlen : length (optimize_greedy c data) = length data)
    by apply greedy_loop_length.
  assert (Hrow : In (Gurobi.row_at data t) data)
    by (unfold Gurobi.row_at; apply nth_In; exact Ht).
  assert (Hdm : 0 <= P_discharge_max c) by apply Hphys.
  assert (Hmr : 0 <= max_ramp c) by (destruct (Hpv _ Hrow); lra).
  assert (Hramp : 0 <= ramp_rate c) by (unfold max_ramp in Hmr; lra).
  assert (Hd : nth_error (optimize_greedy c data) t
               = Some (nth t (optimize_greedy c data) dflt))
    by (apply nth_error_nth'; lia).
  assert (Hafter : nth (S t) (soc_trace c data) 0
                   = SOC (nth t (optimize_greedy c data) dflt)).
  { unfold soc_trace. cbn [nth].
    exact (map_nth SOC (optimize_greedy c data) dflt t). }
  rewrite Hafter.
  assert (Hstep : forall soc prev r,
            In r data -> 0 <= soc <= E_capacity c ->
            0 <= prev <= max_ramp c ->
            let '(ch, dis, imp, ex) :=
              decide c r25 r75 soc (pv_power r) (rrp r) in
            greedy_step c r25 r75 soc prev r
            = mkDecision ch dis imp ex (soc_update c soc ch dis)
                (soc_update c soc ch dis / E_capacity c * 100)
            /\ 0 <= ex <= max_ramp c).
  { intros soc prev r Hin Hs Hp.
    pose proof (decide_limits c r25 r75 Hphys soc (pv_power r) (rrp r) Hs
                  (proj1 (Hpv r Hin))) as HL.
    unfold greedy_step.
    destruct (decide c r25 r75 soc (pv_power r) (rrp r))
      as [[[ch dis] imp] ex].
    destruct HL as (_ & _ & _ & [Hex Hexu] & _).
    assert (HexB : 0 <= ex <= max_ramp c)
      by (destruct (Hpv r Hin); split; lra).
    rewrite (ramp_adjust_unchanged c prev (pv_power r) dis ex (max_ramp c)
               Hp HexB (Qle_refl _)).
    split; [reflexivity | exact HexB]. }
  unfold optimize_greedy in Hd. fold r25 r75 in Hd.
  destruct (greedy_loop_inv c r25 r75
              (fun soc prev => 0 <= soc <= E_capacity c /\
                               0 <= prev <= max_ramp c)
              data) with (soc := initial_soc c * E_capacity c) (prev := 0)
                         (t := t) (d := nth t (optimize_greedy c data) dflt)
    as (soc' & prev' & row' & [Hs Hp] & Hr' & Hb' & Hd').
  - intros soc prev r Hin [Hs Hp].
    pose proof (Hstep soc prev r Hin Hs Hp) as H.
    destruct (greedy_step_limits c r25 r75 Hphys Hramp soc prev r Hs
                (proj1 Hp) (proj1 (Hpv r Hin))) as (_ & _ & Hb).
    split; [exact Hb|].
    destruct (decide c r25 r75 soc (pv_power r) (rrp r))
      as [[[ch dis] imp] ex].
    destruct H as [-> HexB]. exact HexB.
  - split; [apply initial_state_within; exact Hphys | split; lra].
  - exact Hd.
  - assert (Hrow' : row' = Gurobi.row_at data t).
    { unfold Gurobi.row_at. symmetry. apply nth_error_nth. exact Hr'. }
    subst row'.
    assert (Hbefore : nth t (soc_trace c data) 0 = soc').
    { apply nth_error_nth. exact Hb'. }
    rewrite Hbefore. rewrite Hd'.
    pose proof (Hstep soc' prev' _ Hrow Hs Hp) as H.
    destruct (greedy_step_limits c r25 r75 Hphys Hramp soc' prev'
                (Gurobi.row_at data t) Hs (proj1 Hp) (proj1 (Hpv _ Hrow)))
      as ((Hc & Hdd & Hi & He) & Heq & Hin').
    pose proof (decide_balanced c r25 r75 soc'
                  (pv_power (Gurobi.row_at data t))
                  (rrp (Gurobi.row_at data t)) (proj1 (Hpv _ Hrow))) as Hbal.
    pose proof (greedy_step_exclusive c r25 r75 soc' prev'
                  (Gurobi.row_at data t)) as Hex.
    cbv zeta in Hex.
    split; [|split; [exact Hs|split; [exact Heq|split; [exact Hin'|]]]].
    + split; [exact Hc|]. split; [exact Hdd|]. split; [exact Hi|].
      destruct (decide c r25 r75 soc' (pv_power (Gurobi.row_at data t))
                  (rrp (Gurobi.row_at data t))) as [[[ch dis] imp] ex].
      destruct H as [-> HexB]. exact HexB.
    + split; [|exact (proj1 Hex)].
      destruct (decide c r25 r75 soc' (pv_power (Gurobi.row_at data t))
                  (rrp (Gurobi.row_at data t))) as [[[ch dis] imp] ex].
      destruct H as [-> _]. simpl. apply (proj1 Hbal). left.
      apply Hfloor. exact Hrow.
Qed.

(** Under these conditions the heuristic's schedule satisfies every
    bound and constraint of the exact formulation. *)
Lemma heuristic_assignment_feasible :
  Gurobi.feasible c data (heuristic_assignment c data).
Proof.
  unfold Gurobi.feasible, Gurobi.feasibleb, Gurobi.var_bounds, Gurobi.periods.
  repeat rewrite andb_true_iff.
  assert (Hcm : 0 <= P_charge_max c) by apply Hphys.
  assert (Hdm : 0 <= P_discharge_max c) by apply Hphys.
  repeat split.
  - apply forallb_seq. intros t [_ Ht]. simpl in Ht.
    destruct (heuristic_period t Ht) as ((Hc & Hd & Hi & He) & _).
    unfold heuristic_assignment.
    cbn [Gurobi.P_charge Gurobi.P_discharge Gurobi.P_grid_import
         Gurobi.P_grid_export].
    repeat rewrite andb_true_iff. repeat rewrite Qle_bool_iff.
    repeat split; lra.
  - apply forallb_seq. intros t [_ Ht]. simpl in Ht.
    unfold heuristic_assignment. cbn [Gurobi.SOC].
    rewrite andb_true_iff. repeat rewrite Qle_bool_iff.
    destruct t as [|t].
    + unfold soc_trace. cbn [nth]. apply initial_state_within. exact Hphys.
    + assert (Ht' : (t < length data)%nat) by lia.
      destruct (heuristic_period t Ht') as (_ & _ & _ & Ha & _).
      exact Ha.
  - unfold Gurobi.c_initial_soc, heuristic_assignment, soc_trace.
    cbn [Gurobi.SOC nth]. apply Qeq_bool_iff. reflexivity.
  - apply forallb_seq. intros t [_ Ht]. simpl in Ht.
    destruct (heuristic_period t Ht) as (_ & _ & Heq & _).
    unfold Gurobi.c_soc_balance, heuristic_assignment.
    cbn [Gurobi.SOC Gurobi.P_charge Gurobi.P_discharge].
    rewrite Nat.add_1_r. apply Qeq_bool_iff. rewrite Heq. reflexivity.
  - apply forallb_seq. intros t [_ Ht]. simpl in Ht.
    destruct (heuristic_period t Ht) as (_ & _ & _ & _ & Hbal & _).
    unfold Gurobi.c_power_balance, heuristic_assignment.
    cbn [Gurobi.P_charge Gurobi.P_discharge Gurobi.P_grid_import
         Gurobi.P_grid_export].
    apply Qeq_bool_iff. exact Hbal.
  - apply forallb_seq. intros t [_ Ht]. simpl in Ht.
    destruct (heuristic_period t Ht) as ((Hc & Hd & _) & _ & _ & _ & _ & Hx).
    unfold Gurobi.c_no_simul, heuristic_assignment, Gurobi.bin.
    cbn [Gurobi.P_charge Gurobi.P_discharge Gurobi.is_charging
         Gurobi.is_discharging].
    pose proof (pymax_ge_l (P_charge_max c) (P_discharge_max c)) as Hl.
    pose proof (pymax_ge_r (P_charge_max c) (P_discharge_max c)) as Hr.
    fold (Gurobi.big_M c) in Hl, Hr.
    repeat rewrite andb_true_iff. repeat rewrite Qle_bool_iff.
    set (ch := P_charge (nth t (optimize_greedy c data)
                           (mkDecision 0 0 0 0 0 0))) in *.
    set (dis := P_discharge (nth t (optimize_greedy c data)
                               (mkDecision 0 0 0 0 0 0))) in *.
    destruct (Qltb_spec 0 ch) as [Hpos|Hnp];
      destruct (Qltb_spec 0 dis) as [Hpos'|Hnp'];
      try (specialize (Hx Hpos)); repeat split; lra.
  - apply forallb_seq. intros t Ht.
    assert (H1 : (t < length data)%nat) by lia.
    assert (H0 : (t - 1 < length data)%nat) by lia.
    destruct (heuristic_period t H1) as ((_ & _ & _ & He1) & _).
    destruct (heuristic_period (t - 1) H0) as ((_ & _ & _ & He0) & _).
    unfold Gurobi.c_ramp, heuristic_assignment. cbn [Gurobi.P_grid_export].
    rewrite andb_true_iff. repeat rewrite Qle_bool_iff. split; lra.
  - apply forallb_seq. intros t [_ Ht]. simpl in Ht.
    assert (Hrow : In (Gurobi.row_at data t) data)
      by (unfold Gurobi.row_at; apply nth_In; exact Ht).
    unfold Gurobi.c_min_price.
    destruct (Qltb_spec (rrp (Gurobi.row_at data t)) (min_export_price c));
      [|reflexivity].
    specialize (Hfloor _ Hrow). lra.
Qed.

End HeuristicInExact.

(** C7 fails.  For one sunny period at -0.005 AUD/kWh and a ramp limit of
    0.3 kW, the assignment that charges at 250 kW and imports 246.21 kW
    is the exact maximum of the exact formulation, so the solver can
    report it, and no assignment the solver reports has a net revenue
    above 25379/240000 (about 0.1057); the heuristic imports 250 kW and,
    after the ramp block, exports 0.3 kW of the 3.79 kW generated, for a
    net revenue of 67/625 (about 0.1072). *)
Lemma C7_counterexample :
  Gurobi.solved_within Gurobi.default_mip_gap tight_ramp_config
    mild_negative_rows full_charge_assignment /\
  total_net_revenue tight_ramp_config mild_negative_rows
    (optimize_greedy tight_ramp_config mild_negative_rows) == 67 / 625 /\
  forall s,
    Gurobi.solved_within Gurobi.default_mip_gap tight_ramp_config
      mild_negative_rows s ->
    total_net_revenue tight_ramp_config mild_negative_rows
      (Gurobi.extract_results tight_ramp_config mild_negative_rows s)
      <= 25379 / 240000 /\
    ~ total_net_revenue tight_ramp_config mild_negative_rows
        (optimize_greedy tight_ramp_config mild_negative_rows)
      <= total_net_revenue tight_ramp_config mild_negative_rows
           (Gurobi.extract_results tight_ramp_config mild_negative_rows s).
Proof.
  assert (Hv : Gurobi.objective tight_ramp_config mild_negative_rows
                 full_charge_assignment == 25379 / 240000)
    by (vm_compute; reflexivity).
  assert (Hh : total_net_revenue tight_ramp_config mild_negative_rows
                 (optimize_greedy tight_ramp_config mild_negative_rows)
               == 67 / 625) by (vm_compute; reflexivity).
  destruct full_charge_optimal as [Hf Hbest].
  split; [|split; [exact Hh|]].
  - split; [exact Hf|].
    exists (Gurobi.objective tight_ramp_config mild_negative_rows
              full_charge_assignment).
    split; [exact Hbest|]. vm_compute. discriminate.
  - intros s [Hs _].
    assert (Hle : total_net_revenue tight_ramp_config mild_negative_rows
                    (Gurobi.extract_results tight_ramp_config
                       mild_negative_rows s) <= 25379 / 240000).
    { rewrite total_of_extract_results, <- Hv. apply Hbest. exact Hs. }
    split; [exact Hle|]. rewrite Hh. intros H.
    assert (Hc : 67 / 625 <= 25379 / 240000) by lra.
    revert Hc. vm_compute. intros Hc. apply Hc. reflexivity.
Qed.

(** C7 (amended).  Take a configuration with non-negative limits and
    capacity, positive efficiencies and an initial state between empty
    and full, and a horizon on which every period has a non-negative
    generation, a price above the price floor, and a generation plus
    discharge limit within the ramp limit.  Then the heuristic's
    schedule satisfies every constraint of the exact formulation (in
    exact arithmetic; on doubles up to rounding, far inside the solver's
    feasibility tolerance), and whatever assignment the solver reports
    as optimal under its relative gap, the exact scheduler's total net
    revenue is the objective value, and the heuristic's total net
    revenue is at most that revenue plus the gap times its absolute
    value. *)
Theorem C7_exact_within_gap_of_heuristic
    (mip_gap : Q) (c : Config) (data : list Row) (s : Gurobi.Solution)
    (Hphys : physical c)
    (Hpv : forall r, In r data ->
       0 <= pv_power r /\ pv_power r + P_discharge_max c <= max_ramp c)
    (Hfloor : forall r, In r data -> min_export_price c < rrp r)
    (Hsolved : Gurobi.solved_within mip_gap c data s) :
  Gurobi.feasible c data (heuristic_assignment c data) /\
  total_net_revenue c data (Gurobi.extract_results c data s)
    == Gurobi.objective c data s /\
  total_net_revenue c data (optimize_greedy c data)
    <= total_net_revenue c data (Gurobi.extract_results c data s)
       + mip_gap * pyabs (total_net_revenue c data
                            (Gurobi.extract_results c data s)).
Proof.
  pose proof (heuristic_assignment_feasible c data Hphys Hpv Hfloor) as Hf.
  split; [exact Hf|]. split; [apply total_of_extract_results|].
  destruct Hsolved as (_ & bound & Hb & Hgap).
  specialize (Hb _ Hf).
  pose proof (heuristic_assignment_revenue c data) as Eh.
  pose proof (total_of_extract_results c data s) as Ev.
  assert (Eg : mip_gap * pyabs (total_net_revenue c data
                                  (Gurobi.extract_results c data s))
               == mip_gap * pyabs (Gurobi.objective c data s))
    by (rewrite (pyabs_eq _ _ Ev); reflexivity).
  assert (Hd : bound - Gurobi.objective c data s
               <= pyabs (bound - Gurobi.objective c data s))
    by (unfold pyabs; qcases; lra).
  lra.
Qed.

Lemma C7_witness :
  Gurobi.feasible default_config steady_rows
    (heuristic_assignment default_config steady_rows) /\
  total_net_revenue default_config steady_rows
    (optimize_greedy default_config steady_rows)
  <= total_net_revenue default_config steady_rows
       (Gurobi.extract_results default_config steady_rows
          full_discharge_assignment)
     + Gurobi.default_mip_gap
       * pyabs (total_net_revenue default_config steady_rows
                  (Gurobi.extract_results default_config steady_rows
                     full_discharge_assignment)).
Proof.
  destruct (C7_exact_within_gap_of_heuristic Gurobi.default_mip_gap
              default_config steady_rows full_discharge_assignment)
    as (Hf & _ & Hle).
  - exact default_config_physical.
  - intros r Hin. simpl in Hin.
    destruct Hin as [<-|[<-|[]]]; split; vm_compute; discriminate.
  - intros r Hin. simpl in Hin.
    destruct Hin as [<-|[<-|[]]]; vm_compute; reflexivity.
  - destruct full_discharge_optimal as [Hfe Hbest].
    split; [exact Hfe|].
    exists (Gurobi.objective default_config steady_rows
              full_discharge_assignment).
    split; [exact Hbest|]. vm_compute. discriminate.
  - split; [exact Hf | exact Hle].
Defined.

(** ** Consequences of the constraints of the exact formulation *)

Section ExactConsequences.

Variables (c : Config) (data : list Row) (s : Gurobi.Solution).
Hypothesis Hfeas : Gurobi.feasible c data s.

Lemma exact_soc_total t : (t <= length data)%nat ->
  Gurobi.SOC s t ==
  initial_soc c * E_capacity c
  + sum_upto t (fun k => Gurobi.P_charge s k * dt * eta_c c
                         - Gurobi.P_discharge s k * dt / eta_d c).
Proof.
  induction t as [|t IH]; intros Ht.
  - rewrite (exact_initial_soc c data s Hfeas). unfold sum_upto. simpl. lra.
  - rewrite sum_upto_S. replace (S t) with (t + 1)%nat by lia.
    rewrite (exact_soc_balance c data s Hfeas t) by lia.
    rewrite IH by lia. lra.
Qed.

Lemma exact_objective_sum :
  Gurobi.objective c data s ==
  sum_upto (length data) (fun t =>
    Gurobi.P_grid_export s t * dt * rrp (Gurobi.row_at data t)
    - Gurobi.P_grid_import s t * dt * rrp (Gurobi.row_at data t)
    + pv_power (Gurobi.row_at data t) * dt * lgc_price c).
Proof. reflexivity. Qed.

Lemma exact_ramp_span t : forall k, (t + k < length data)%nat ->
  Gurobi.P_grid_export s (t + k) - Gurobi.P_grid_export s t
    <= qnat k * max_ramp c /\
  Gurobi.P_grid_export s t - Gurobi.P_grid_export s (t + k)
    <= qnat k * max_ramp c.
Proof.
  induction k as [|k IH]; intros Hk.
  - rewrite Nat.add_0_r. change (qnat 0) with 0. split; lra.
  - destruct IH as [Hup Hdown]; [lia|].
    destruct (exact_ramp c data s Hfeas (t + S k)) as [H1 H2]; [lia|lia|].
    replace (t + S k - 1)%nat with (t + k)%nat in H1, H2 by lia.
    rewrite qnat_S. split; lra.
Qed.

End ExactConsequences.

(** X6.  In every assignment the exact formulation accepts, the state at
    each period boundary is the initial state plus everything charged
    minus everything discharged so far (with the efficiencies), so the
    energy drawn from the battery up to any time is covered by the
    initial state and the energy charged, and the energy stored never
    exceeds the capacity. *)
Theorem X6_exact_state_is_cumulative (c : Config) (data : list Row)
    (s : Gurobi.Solution) (t : nat)
    (Hfeas : Gurobi.feasible c data s) (Ht : (t <= length data)%nat) :
  let net := sum_upto t (fun k => Gurobi.P_charge s k * dt * eta_c c
                                  - Gurobi.P_discharge s k * dt / eta_d c) in
  Gurobi.SOC s t == initial_soc c * E_capacity c + net /\
  0 <= initial_soc c * E_capacity c + net <= E_capacity c.
Proof.
  intros net.
  pose proof (exact_soc_total c data s Hfeas t Ht) as H. fold net in H.
  split; [exact H|].
  rewrite <- H. exact (exact_soc_bounds c data s Hfeas t Ht).
Qed.

Lemma full_discharge_feasible :
  Gurobi.feasible default_config steady_rows full_discharge_assignment.
Proof. vm_compute. reflexivity. Qed.

Lemma X6_witness :
  Gurobi.SOC full_discharge_assignment 2 ==
  initial_soc default_config * E_capacity default_config
  + sum_upto 2 (fun k =>
      Gurobi.P_charge full_discharge_assignment k * dt * eta_c default_config
      - Gurobi.P_discharge full_discharge_assignment k * dt
        / eta_d default_config).
Proof.
  refine (proj1 (X6_exact_state_is_cumulative default_config steady_rows
                   full_discharge_assignment 2%nat full_discharge_feasible _)).
  simpl. lia.
Defined.

(** X7.  The objective of the exact formulation depends on an accepted
    assignment through its charge and discharge only: it is the sum over
    the periods of (generation + discharge - charge) * dt * price plus
    the incentive on the generation.  How the net exchange is split into
    import and export does not matter. *)
Theorem X7_exact_objective_from_the_battery_schedule (c : Config)
    (data : list Row) (s : Gurobi.Solution)
    (Hfeas : Gurobi.feasible c data s) :
  Gurobi.objective c data s ==
  sum_upto (length data) (fun t =>
    (pv_power (Gurobi.row_at data t) + Gurobi.P_discharge s t
     - Gurobi.P_charge s t) * dt * rrp (Gurobi.row_at data t)
    + pv_power (Gurobi.row_at data t) * dt * lgc_price c).
Proof.
  rewrite exact_objective_sum. apply sum_upto_ext. intros t Ht.
  pose proof (exact_power_balance c data s Hfeas t Ht) as Hb.
  assert (He : Gurobi.P_grid_export s t - Gurobi.P_grid_import s t
               == pv_power (Gurobi.row_at data t) + Gurobi.P_discharge s t
                  - Gurobi.P_charge s t) by lra.
  set (k := dt * rrp (Gurobi.row_at data t)).
  assert (E1 : Gurobi.P_grid_export s t * dt * rrp (Gurobi.row_at data t)
               - Gurobi.P_grid_import s t * dt * rrp (Gurobi.row_at data t)
               == (Gurobi.P_grid_export s t - Gurobi.P_grid_import s t) * k)
    by (unfold k; ring).
  assert (E2 : (pv_power (Gurobi.row_at data t) + Gurobi.P_discharge s t
                - Gurobi.P_charge s t) * dt * rrp (Gurobi.row_at data t)
               == (pv_power (Gurobi.row_at data t) + Gurobi.P_discharge s t
                   - Gurobi.P_charge s t) * k)
    by (unfold k; ring).
  rewrite E1, E2, He. reflexivity.
Qed.

Lemma X7_witness :
  Gurobi.objective default_config steady_rows full_discharge_assignment ==
  sum_upto (length steady_rows) (fun t =>
    (pv_power (Gurobi.row_at steady_rows t)
     + Gurobi.P_discharge full_discharge_assignment t
     - Gurobi.P_charge full_discharge_assignment t)
    * dt * rrp (Gurobi.row_at steady_rows t)
    + pv_power (Gurobi.row_at steady_rows t) * dt * lgc_price default_config).
Proof.
  exact (X7_exact_objective_from_the_battery_schedule default_config
           steady_rows full_discharge_assignment full_discharge_feasible).
Defined.

(** X8.  The exact formulation has no way to drop generation.  If it
    accepts an assignment at all, then in every period priced below the
    floor the generation is at most the charge limit, and the state at
    the start of the period leaves room for it: state + generation * dt
    * eta_c is at most the next state and at most the capacity.
    Otherwise the model is infeasible and [build_and_solve] returns
    nothing. *)
Theorem X8_exact_feasibility_below_the_floor (c : Config) (data : list Row)
    (s : Gurobi.Solution) (t : nat)
    (Hfeas : Gurobi.feasible c data s) (Ht : (t < length data)%nat)
    (Hprice : rrp (Gurobi.row_at data t) < min_export_price c)
    (Heta : 0 < eta_c c) :
  let pv := pv_power (Gurobi.row_at data t) in
  pv <= P_charge_max c /\
  (0 < pv ->
   Gurobi.SOC s t + pv * dt * eta_c c <= Gurobi.SOC s (t + 1) /\
   Gurobi.SOC s t + pv * dt * eta_c c <= E_capacity c).
Proof.
  intros pv. subst pv.
  pose proof (exact_power_balance c data s Hfeas t Ht) as Hb.
  pose proof (exact_min_price c data s Hfeas t Ht Hprice) as He.
  destruct (exact_power_bounds c data s Hfeas t Ht) as (Hc & Hd & Hi & _).
  destruct (exact_exclusive c data s Hfeas t Ht) as [Hx _].
  split; [lra|]. intros Hpv.
  assert (Hpos : 0 < Gurobi.P_charge s t) by lra.
  specialize (Hx Hpos).
  pose proof (exact_soc_balance c data s Hfeas t Ht) as Hs.
  assert (Hz : Gurobi.P_discharge s t * dt / eta_d c == 0).
  { rewrite Hx. unfold Qdiv. rewrite !Qmult_0_l. reflexivity. }
  assert (Hge : pv_power (Gurobi.row_at data t) * dt * eta_c c
                <= Gurobi.P_charge s t * dt * eta_c c).
  { apply Qmult_le_compat_r; [|lra].
    apply Qmult_le_compat_r; [lra|]. pose proof dt_pos. lra. }
  destruct (exact_soc_bounds c data s Hfeas (t + 1)%nat) as [_ Hcap]; [lia|].
  split; lra.
Qed.

Lemma X8_witness :
  pv_power (Gurobi.row_at below_floor_rows 0) <= P_charge_max default_config /\
  Gurobi.SOC full_charge_assignment 0
    + pv_power (Gurobi.row_at below_floor_rows 0) * dt * eta_c default_config
    <= E_capacity default_config.
Proof.
  assert (Hf : Gurobi.feasible default_config below_floor_rows
                 full_charge_assignment) by (vm_compute; reflexivity).
  assert (Ht : (0 < length below_floor_rows)%nat) by (simpl; lia).
  assert (Hp : rrp (Gurobi.row_at below_floor_rows 0)
               < min_export_price default_config) by (vm_compute; reflexivity).
  assert (He : 0 < eta_c default_config) by (vm_compute; reflexivity).
  destruct (X8_exact_feasibility_below_the_floor default_config
              below_floor_rows full_charge_assignment 0%nat Hf Ht Hp He)
    as [H1 H2].
  split; [exact H1|]. apply H2. vm_compute. reflexivity.
Defined.

(** X9.  In every assignment the exact formulation accepts, the export
    of two periods k apart differs by at most k times the ramp limit. *)
Theorem X9_exact_ramp_over_several_periods (c : Config) (data : list Row)
    (s : Gurobi.Solution) (t k : nat)
    (Hfeas : Gurobi.feasible c data s) (Hk : (t + k < length data)%nat) :
  pyabs (Gurobi.P_grid_export s (t + k) - Gurobi.P_grid_export s t)
    <= qnat k * max_ramp c.
Proof.
  destruct (exact_ramp_span c data s Hfeas t k Hk) as [Hup Hdown].
  unfold pyabs. qcases; lra.
Qed.

Lemma X9_witness :
  pyabs (Gurobi.P_grid_export full_discharge_assignment (0 + 1)
         - Gurobi.P_grid_export full_discharge_assignment 0)
    <= qnat 1 * max_ramp default_config.
Proof.
  apply (X9_exact_ramp_over_several_periods default_config steady_rows
           full_discharge_assignment 0%nat 1%nat full_discharge_feasible).
  simpl. lia.
Defined.

(** ** Consequences of the constraints of the linear program *)

(** X10.  In every plan the linear program accepts, the energy exported
    from the battery up to any period is at most 0.95^3 = 85.7375% of
    the energy charged up to that period: the discharge efficiency is
    applied to the state and again to the export. *)
Theorem X10_lp_round_trip_bound (data : list PuLP.Row) (s : PuLP.Solution)
    (t : nat)
    (Hfeas : PuLP.feasible data s) (Ht : (t < length data)%nat) :
  sum_upto (S t) (PuLP.export_battery s)
    <= 0.857375 * sum_upto (S t)
                    (fun k => PuLP.charge_pv s k + PuLP.charge_grid s k).
Proof.
  pose proof (lp_soc_total data s Hfeas t Ht) as Hs.
  destruct (lp_constraints data s Hfeas t Ht) as (_ & _ & _ & [Hs0 _] & _).
  assert (He : sum_upto (S t) (PuLP.export_battery s)
               == sum_upto (S t) (PuLP.discharge s) * 0.95).
  { rewrite <- sum_upto_scale. apply sum_upto_ext. intros k Hk.
    destruct (lp_constraints data s Hfeas k)
      as (_ & _ & _ & _ & _ & _ & _ & _ & Hb & _); [lia|].
    exact Hb. }
  rewrite He. rewrite Hs in Hs0.
  unfold PuLP.CHARGE_EFFICIENCY, PuLP.DISCHARGE_EFFICIENCY in Hs0.
  qconst. lra.
Qed.

Lemma X10_witness :
  sum_upto 77 (PuLP.export_battery paid_charging_plan)
    <= 0.857375 * sum_upto 77
         (fun k => PuLP.charge_pv paid_charging_plan k
                   + PuLP.charge_grid paid_charging_plan k).
Proof.
  apply (X10_lp_round_trip_bound paid_charging_day paid_charging_plan 76%nat).
  - exact paid_plan_feasible.
  - simpl. lia.
Defined.

(** X11.  In every plan the linear program accepts, a period priced at
    or below the LGC price, the first one included, exports nothing and
    does not discharge the battery, so the state does not fall in that
    period (before the first period the battery is empty). *)
Theorem X11_lp_no_discharge_at_or_below_lgc (data : list PuLP.Row)
    (s : PuLP.Solution) (t : nat)
    (Hfeas : PuLP.feasible data s) (Ht : (t < length data)%nat)
    (Hprice : PuLP.RRP (PuLP.row_at data t) <= PuLP.LGC) :
  PuLP.export_pv s t == 0 /\ PuLP.export_battery s t == 0 /\
  PuLP.discharge s t == 0 /\ lp_state_before s t <= PuLP.soc s t.
Proof.
  destruct (lp_constraints data s Hfeas t Ht)
    as (Hg & Hc & Hd & _ & _ & _ & _ & _ & Hb & _ & Hl).
  destruct (Hl Hprice) as [Hep Heb].
  unfold PuLP.DISCHARGE_EFFICIENCY in Hb.
  assert (Hz : PuLP.discharge s t == 0) by lra.
  repeat split; try assumption.
  destruct t as [|t]; unfold lp_state_before.
  - assert (H0 : (0 < length data)%nat) by lia.
    rewrite (lp_soc_initial data s Hfeas H0), Hz.
    unfold PuLP.CHARGE_EFFICIENCY, PuLP.DISCHARGE_EFFICIENCY. qconst. lra.
  - rewrite (lp_soc_step data s Hfeas t Ht), Hz.
    unfold PuLP.CHARGE_EFFICIENCY, PuLP.DISCHARGE_EFFICIENCY. qconst. lra.
Qed.

(** X12.  The linear program accepts no plan when some irradiance is
    negative: every accepted plan has non-negative irradiance in every
    period.  (The script then stops with its "optimisation failed"
    message instead of rejecting the input.) *)
Theorem X12_lp_needs_nonnegative_irradiance (data : list PuLP.Row)
    (s : PuLP.Solution) (t : nat)
    (Hfeas : PuLP.feasible data s) (Ht : (t < length data)%nat) :
  0 <= PuLP.POA (PuLP.row_at data t).
Proof.
  destruct (lp_constraints data s Hfeas t Ht) as (_ & Hc & _).
  unfold PuLP.PV_Energy_kWh, PuLP.PV_Power_kW, PuLP.PV_CAPACITY,
    PuLP.POA_TO_POWER_RATIO, PuLP.INTERVAL_HOURS in Hc.
  qconst. lra.
Qed.

Lemma X12_witness : 0 <= PuLP.POA (PuLP.row_at paid_charging_day 3).
Proof.
  apply (X12_lp_needs_nonnegative_irradiance paid_charging_day
           paid_charging_plan 3%nat).
  - exact paid_plan_feasible.
  - simpl. lia.
Defined.

Lemma curtail_everything_value data :
  PuLP.objective data (curtail_everything data) == 0.
Proof.
  unfold PuLP.objective, PuLP.T.
  fold (sum_upto (length data)
          (fun t => (PuLP.export_pv (curtail_everything data) t
                     + PuLP.export_battery (curtail_everything data) t)
                    * PuLP.RRP (PuLP.row_at data t) / 1000)).
  fold (sum_upto (length data)
          (fun t => PuLP.charge_grid (curtail_everything data) t
                    * PuLP.RRP (PuLP.row_at data t) / 1000)).
  rewrite (sum_upto_ext _ _ (fun _ => 0)).
  2:{ intros t _. simpl. unfold Qdiv. rewrite Qplus_0_l, !Qmult_0_l.
      reflexivity. }
  rewrite (sum_upto_ext _ (fun t => PuLP.charge_grid _ t * _ / 1000)
             (fun _ => 0)).
  2:{ intros t _. simpl. unfold Qdiv. rewrite !Qmult_0_l. reflexivity. }
  rewrite sum_upto_const. lra.
Qed.

(** X13.  On every input whose irradiance is nowhere negative the linear
    program is feasible: leaving the battery alone and curtailing all
    generation satisfies every constraint, at an objective of 0.  Hence
    the revenue of an optimal plan is never negative. *)
Theorem X13_lp_feasible_and_never_at_a_loss (data : list PuLP.Row)
    (Hpoa : forall row, In row data -> 0 <= PuLP.POA row) :
  PuLP.feasible data (curtail_everything data) /\
  PuLP.objective data (curtail_everything data) == 0 /\
  forall s, PuLP.optimal data s -> 0 <= PuLP.objective data s.
Proof.
  split; [exact (curtail_everything_feasible data Hpoa)|].
  split; [exact (curtail_everything_value data)|].
  intros s [_ Hbest].
  rewrite <- (curtail_everything_value data).
  apply Hbest. exact (curtail_everything_feasible data Hpoa).
Qed.

Lemma X13_witness :
  PuLP.feasible paid_charging_day (curtail_everything paid_charging_day) /\
  0 <= PuLP.objective paid_charging_day paid_charging_plan.
Proof.
  destruct (X13_lp_feasible_and_never_at_a_loss paid_charging_day)
    as (Hf & _ & Hopt).
  - intros row Hin. apply repeat_spec in Hin. subst row.
    vm_compute. discriminate.
  - split; [exact Hf|]. apply Hopt. exact paid_plan_optimal.
Defined.

Lemma lgc_plan_feasible : PuLP.feasible lgc_day lgc_plan.
Proof. vm_compute. reflexivity. Qed.

Lemma X11_witness :
  (PuLP.discharge lgc_plan 0 == 0 /\
   lp_state_before lgc_plan 0 <= PuLP.soc lgc_plan 0) /\
  (PuLP.discharge lgc_plan 2 == 0 /\
   lp_state_before lgc_plan 2 <= PuLP.soc lgc_plan 2) /\
  0 < PuLP.discharge lgc_plan 1.
Proof.
  split; [|split; [|reflexivity]].
  - destruct (X11_lp_no_discharge_at_or_below_lgc lgc_day lgc_plan 0%nat
                lgc_plan_feasible) as (_ & _ & Hd & Hs).
    + simpl. lia.
    + vm_compute. discriminate.
    + split; assumption.
  - destruct (X11_lp_no_discharge_at_or_below_lgc lgc_day lgc_plan 2%nat
                lgc_plan_feasible) as (_ & _ & Hd & Hs).
    + simpl. lia.
    + vm_compute. discriminate.
    + split; assumption.
Defined.

(** ** The entries of the day-partitioned heuristic *)

Section DayEntries.

Import GreedyV2.

Lemma charge_loop_entries rows : forall soc r,
  In r (fst (charge_loop rows soc)) ->
  exists row soc', In row rows /\ r = charge_row soc' row.
Proof.
  induction rows as [|row rest IH]; intros soc r Hin; simpl in Hin.
  - contradiction.
  - destruct (soc <? BATTERY_CAPACITY * 0.999); [|contradiction].
    destruct (charge_loop rest (SOC_kWh (charge_row soc row)))
      as [rs e] eqn:E. simpl in Hin. destruct Hin as [<-|Hin].
    + exists row, soc. split; [now left | reflexivity].
    + specialize (IH (SOC_kWh (charge_row soc row)) r).
      rewrite E in IH. destruct (IH Hin) as (row' & soc' & Hr & Heq).
      exists row', soc'. split; [now right | exact Heq].
Qed.

Lemma discharge_loop_entries rows : forall soc r,
  In r (fst (discharge_loop rows soc)) ->
  exists row soc', In row rows /\ r = fst (discharge_row soc' row).
Proof.
  induction rows as [|row rest IH]; intros soc r Hin; simpl in Hin.
  - contradiction.
  - destruct (discharge_row soc row) as [r0 soc1] eqn:E0.
    destruct (discharge_loop rest soc1) as [rs e] eqn:E. simpl in Hin.
    destruct Hin as [<-|Hin].
    + exists row, soc. split; [now left | now rewrite E0].
    + specialize (IH soc1 r). rewrite E in IH.
      destruct (IH Hin) as (row' & soc' & Hr & Heq).
      exists row', soc'. split; [now right | exact Heq].
Qed.

Lemma insert_desc_In x y l : In x (insert_desc y l) -> x = y \/ In x l.
Proof.
  induction l as [|z l IH]; simpl.
  - intros [H|[]]; auto.
  - destruct (RRP_MWh z <? RRP_MWh y); simpl.
    + intros [H|[H|H]]; auto.
    + intros [H|H]; auto. destruct (IH H); auto.
Qed.

Lemma sort_desc_In x l : In x (sort_desc l) -> In x l.
Proof.
  unfold sort_desc.
  assert (G : forall l acc, In x (fold_left (fun a y => insert_desc y a) l acc)
                            -> In x acc \/ In x l).
  { clear l. induction l as [|y l IH]; simpl; intros acc H; auto.
    destruct (IH _ H) as [H'|H']; auto.
    destruct (insert_desc_In _ _ _ H'); auto. }
  intros H. destruct (G l [] H) as [[]|H']; exact H'.
Qed.

(** Every entry of [day_results] comes from a row of the day or of the
    next day. *)
Lemma optimize_daily_entries day_data next_day_data soc_start r :
  In r (fst (optimize_daily day_data next_day_data soc_start)) ->
  exists row, In row (day_data ++ next_day_data) /\ entry_of row r.
Proof.
  unfold optimize_daily. cbv zeta.
  set (chargeable := filter Can_Charge day_data).
  assert (Hch : forall r0,
    In r0 (fst (if (0 <? length chargeable)%nat && (soc_start <? BATTERY_CAPACITY)
                then charge_loop (sort_asc chargeable) soc_start
                else ([], soc_start))) ->
    exists row, In row (day_data ++ next_day_data) /\ entry_of row r0).
  { intros r0 Hin.
    destruct ((0 <? length chargeable)%nat && (soc_start <? BATTERY_CAPACITY));
      [|contradiction].
    apply charge_loop_entries in Hin. destruct Hin as (row & soc' & Hr & ->).
    apply sort_asc_In in Hr. apply filter_In in Hr. destruct Hr as [Hr Hc].
    exists row. split; [apply in_or_app; now left|].
    exists soc'. left. split; [exact Hc | reflexivity]. }
  destruct (if (0 <? length chargeable)%nat && (soc_start <? BATTERY_CAPACITY)
            then charge_loop (sort_asc chargeable) soc_start
            else ([], soc_start)) as [charged soc1].
  simpl in Hch.
  set (combined := if (0 <? length next_day_data)%nat
                   then day_data ++ next_day_data else day_data).
  assert (Hcomb : forall x, In x combined -> In x (day_data ++ next_day_data)).
  { intros x Hx. subst combined.
    destruct (0 <? length next_day_data)%nat; [exact Hx|].
    apply in_or_app. now left. }
  match goal with
  | |- context [match ?d with [] => ([], soc1) | first :: _ => @?f first end] =>
      assert (Hdis : forall r0,
        In r0 (fst (match d with [] => ([], soc1) | first :: l => f first end))
        -> exists row, In row (day_data ++ next_day_data) /\ entry_of row r0);
      [ intros r0 Hin; destruct d as [|first ?]; [contradiction|];
        cbv beta in Hin;
        match type of Hin with
        | context [if ?b then discharge_loop ?rows soc1 else _] =>
            destruct b; [|contradiction];
            apply discharge_loop_entries in Hin;
            destruct Hin as (row & soc' & Hr & ->);
            apply sort_desc_In in Hr; apply filter_In in Hr;
            destruct Hr as [Hr _]; apply filter_In in Hr;
            destruct Hr as [Hr _];
            exists row; split; [apply Hcomb; exact Hr|];
            exists soc'; right; left; reflexivity
        end
      | destruct (match d with [] => ([], soc1) | first :: l => f first end)
          as [discharged soc2] ]
  end.
  simpl in Hdis. simpl. intros Hin.
  apply in_app_or in Hin. destruct Hin as [Hin|Hin].
  - apply in_app_or in Hin. destruct Hin as [Hin|Hin];
      [apply Hch | apply Hdis]; exact Hin.
  - apply in_map_iff in Hin. destruct Hin as (row & <- & Hr).
    apply filter_In in Hr. destruct Hr as [Hr _].
    exists row. split; [apply in_or_app; now left|].
    exists soc2. right. right. reflexivity.
Qed.

Lemma pv_only_spec price pv :
  let '(export_pv, curtail) := pv_only price pv in
  export_pv + curtail == pv /\
  (price <= LGC -> export_pv == 0) /\
  export_pv <= NEL * INTERVAL_HOURS.
Proof.
  unfold pv_only, pymin, pymax.
  destruct (Qltb_spec LGC price).
  - destruct (Qltb_spec (NEL * INTERVAL_HOURS) pv);
      match goal with |- context [if ?a <? ?b then _ else _] =>
        destruct (Qltb_spec a b) end; repeat split; intros; lra.
  - repeat split; intros; try lra.
    unfold NEL, INTERVAL_HOURS. qconst. lra.
Qed.

(** What every entry computed from a row satisfies. *)
Lemma entry_of_spec row r :
  entry_of row r ->
  r_index r = index row /\
  action r <> Error /\
  Charge_PV_kWh r + Export_PV_kWh r + Curtail_kWh r == PV_Energy_kWh row /\
  (RRP_MWh row <= LGC -> Export_PV_kWh r == 0 /\ Export_Battery_kWh r == 0) /\
  Export_PV_kWh r + Export_Battery_kWh r <= NEL * INTERVAL_HOURS /\
  ((Charge_PV_kWh r == 0 /\ Charge_Grid_kWh r == 0) \/
   (Discharge_kWh r == 0 /\ Export_Battery_kWh r == 0
    /\ Can_Charge row = true)).
Proof.
  intros [soc [[Hc ->]|[->| ->]]].
  - unfold charge_row. cbv zeta.
    pose proof (pv_only_spec (RRP_MWh row)
      (PV_Energy_kWh row
       - pymin3 (PV_Energy_kWh row) (BATTERY_MAX_CHARGE_POWER * INTERVAL_HOURS)
           ((BATTERY_CAPACITY - soc) / CHARGE_EFFICIENCY))) as H.
    destruct (pv_only _ _) as [e cu]. destruct H as (H1 & H2 & H3).
    simpl. split; [reflexivity|]. split; [discriminate|].
    split; [lra|]. split; [intros Hp; split; [exact (H2 Hp) | reflexivity]|].
    split; [lra|]. right. repeat split; try reflexivity. exact Hc.
  - unfold discharge_row. cbv zeta.
    pose proof (pv_only_spec (RRP_MWh row) (PV_Energy_kWh row)) as H.
    destruct (Qltb_spec 0.01 soc) as [Hs|Hs].
    + destruct (Qltb_spec LGC (RRP_MWh row)) as [Hp|Hp].
      * destruct (Is_Daytime row).
        -- destruct (Qltb_spec (PV_Power_kW row) NEL) as [Hn|Hn]; simpl.
           ++ split; [reflexivity|]. split; [discriminate|].
              split; [lra|]. split; [intros; lra|].
              split; [|left; split; reflexivity].
              unfold pymin, BATTERY_MAX_DISCHARGE_POWER, DISCHARGE_EFFICIENCY,
                INTERVAL_HOURS, NEL in *.
              qcases; qconst; lra.
           ++ split; [reflexivity|]. split; [discriminate|].
              split; [lra|]. split; [intros; lra|].
              split; [|left; split; reflexivity].
              unfold NEL, INTERVAL_HOURS. qconst. lra.
        -- simpl. split; [reflexivity|]. split; [discriminate|].
           split; [lra|]. split; [intros; lra|].
           split; [|left; split; reflexivity].
           unfold pymin, BATTERY_MAX_DISCHARGE_POWER, DISCHARGE_EFFICIENCY,
             INTERVAL_HOURS, NEL in *.
           qcases; qconst; lra.
      * simpl. split; [reflexivity|]. split; [discriminate|].
        split; [lra|]. split; [intros; split; reflexivity|].
        split; [|left; split; reflexivity].
        unfold NEL, INTERVAL_HOURS. qconst. lra.
    + destruct (pv_only _ _) as [e cu]. destruct H as (H1 & H2 & H3).
      simpl. split; [reflexivity|]. split; [discriminate|].
      split; [lra|]. split; [intros Hp; split; [exact (H2 Hp) | reflexivity]|].
      split; [lra|]. left. split; reflexivity.
  - unfold idle_row.
    pose proof (pv_only_spec (RRP_MWh row) (PV_Energy_kWh row)) as H.
    destruct (pv_only _ _) as [e cu]. destruct H as (H1 & H2 & H3).
    simpl. split; [reflexivity|]. split; [discriminate|].
    split; [lra|]. split; [intros Hp; split; [exact (H2 Hp) | reflexivity]|].
    split; [lra|]. left. split; reflexivity.
Qed.

End DayEntries.

Section DayCoverage.

Import GreedyV2.

(** The third phase appends an entry for every row of the day that the
    first two phases left out. *)
Lemma optimize_daily_shape day_data next_day_data soc_start :
  exists handled soc,
    optimize_daily day_data next_day_data soc_start
    = (handled
       ++ map (idle_row soc)
              (filter (fun r => negb (has_index (index r)
                                        (map r_index handled))) day_data),
       soc).
Proof.
  unfold optimize_daily. cbv zeta.
  destruct (if (0 <? length (filter Can_Charge day_data))%nat
               && (soc_start <? BATTERY_CAPACITY)
            then charge_loop (sort_asc (filter Can_Charge day_data)) soc_start
            else ([], soc_start)) as [charged soc1].
  match goal with
  | |- context [match ?d with [] => ([], soc1) | first :: _ => @?f first end] =>
      destruct (match d with [] => ([], soc1) | first :: l => f first end)
        as [discharged soc2]
  end.
  exists (charged ++ discharged), soc2. reflexivity.
Qed.

Lemma idle_row_index soc row : r_index (idle_row soc row) = index row.
Proof. unfold idle_row. destruct (pv_only _ _). reflexivity. Qed.

(** Every row of the day has an entry in [day_results]. *)
Lemma optimize_daily_covers day_data next_day_data soc_start row :
  In row day_data ->
  exists r,
    find (fun r => Nat.eqb (r_index r) (index row))
         (fst (optimize_daily day_data next_day_data soc_start)) = Some r.
Proof.
  intros Hin.
  destruct (optimize_daily_shape day_data next_day_data soc_start)
    as (handled & soc & ->). simpl.
  match goal with |- exists r, find ?f ?l = Some r =>
    destruct (find f l) as [r|] eqn:E; [exists r; reflexivity | exfalso] end.
  destruct (has_index (index row) (map r_index handled)) eqn:Hh.
  - unfold has_index in Hh. apply existsb_exists in Hh.
    destruct Hh as (i & Hi & Heq). apply in_map_iff in Hi.
    destruct Hi as (r0 & <- & Hr0).
    pose proof (find_none _ _ E r0 (in_or_app _ _ _ (or_introl Hr0))) as Hf.
    cbv beta in Hf. apply Nat.eqb_eq in Heq. rewrite <- Heq in Hf.
    rewrite Nat.eqb_refl in Hf. discriminate.
  - assert (Hi : In (idle_row soc row)
             (map (idle_row soc)
                  (filter (fun r => negb (has_index (index r)
                                            (map r_index handled))) day_data))).
    { apply in_map. apply filter_In. split; [exact Hin|]. now rewrite Hh. }
    pose proof (find_none _ _ E _ (in_or_app _ _ _ (or_intror Hi))) as Hf.
    cbv beta in Hf. rewrite idle_row_index, Nat.eqb_refl in Hf. discriminate.
Qed.

(** Every row of the horizon gets an entry of the results of its day. *)
Lemma run_days_entries days : forall soc r,
  In r (run_days days soc) ->
  exists row, In row (concat days) /\ entry_of row r.
Proof.
  induction days as [|day rest IH]; intros soc r Hin; simpl in Hin.
  - contradiction.
  - destruct (optimize_daily day (hd [] rest) soc) as [day_results soc_end]
      eqn:E.
    apply in_app_or in Hin. destruct Hin as [Hin|Hin].
    + apply in_map_iff in Hin. destruct Hin as (row & <- & Hr).
      destruct (optimize_daily_covers day (hd [] rest) soc row Hr)
        as (r & Hf).
      rewrite E in Hf. simpl in Hf. unfold merge_row. rewrite Hf.
      apply find_some in Hf. destruct Hf as [Hf _].
      destruct (optimize_daily_entries day (hd [] rest) soc r) as (row' & Hr' & He).
      { rewrite E. exact Hf. }
      exists row'. split; [|exact He]. simpl.
      apply in_app_or in Hr'. apply in_or_app.
      destruct Hr' as [Hr'|Hr']; [now left | right].
      destruct rest as [|next rest']; [contradiction|].
      simpl in Hr'. simpl. apply in_or_app. now left.
    + destruct (IH soc_end r Hin) as (row & Hr & He).
      exists row. split; [|exact He]. simpl. apply in_or_app. now right.
Qed.

End DayCoverage.

(** X14.  In the day-partitioned heuristic every row of a day gets an
    entry of that day's results: the fallback entry of the driver, marked
    as not supposed to be reached, is never used. *)
Theorem X14_daily_results_cover_the_day
    (day_data next_day_data : list GreedyV2.Row) (soc_start soc : Q)
    (row : GreedyV2.Row) (Hin : In row day_data) :
  let day_results :=
    fst (GreedyV2.optimize_daily day_data next_day_data soc_start) in
  In (GreedyV2.merge_row day_results soc row) day_results /\
  GreedyV2.r_index (GreedyV2.merge_row day_results soc row)
    = GreedyV2.index row /\
  GreedyV2.action (GreedyV2.merge_row day_results soc row) <> GreedyV2.Error.
Proof.
  intros day_results.
  destruct (optimize_daily_covers day_data next_day_data soc_start row Hin)
    as (r & Hf).
  unfold GreedyV2.merge_row. fold day_results in Hf. rewrite Hf.
  apply find_some in Hf. destruct Hf as [Hr Heq].
  split; [exact Hr|]. split; [now apply Nat.eqb_eq|].
  destruct (optimize_daily_entries day_data next_day_data soc_start r Hr)
    as (row' & _ & He).
  exact (proj1 (proj2 (entry_of_spec row' r He))).
Qed.

Lemma X14_witness :
  GreedyV2.action
    (GreedyV2.merge_row
       (fst (GreedyV2.optimize_daily
               [GreedyV2.mkRow 0 50 800 240 2880; GreedyV2.mkRow 1 120 0 0 0]
               [] 2752))
       2752 (GreedyV2.mkRow 1 120 0 0 0))
  <> GreedyV2.Error.
Proof.
  refine (proj2 (proj2 (X14_daily_results_cover_the_day
    [GreedyV2.mkRow 0 50 800 240 2880; GreedyV2.mkRow 1 120 0 0 0]
    [] 2752 2752 (GreedyV2.mkRow 1 120 0 0 0) _))).
  right. left. reflexivity.
Defined.

(** X15.  Every result of the day-partitioned heuristic accounts for the
    whole generation of a row with its index: what is charged from
    generation, exported from generation and curtailed adds up to the
    generation of the period. *)
Theorem X15_daily_generation_is_accounted_for
    (days : list (list GreedyV2.Row)) (r : GreedyV2.Result)
    (Hin : In r (GreedyV2.run days)) :
  exists row,
    In row (concat days) /\ GreedyV2.index row = GreedyV2.r_index r /\
    GreedyV2.Charge_PV_kWh r + GreedyV2.Export_PV_kWh r
      + GreedyV2.Curtail_kWh r == GreedyV2.PV_Energy_kWh row.
Proof.
  destruct (run_days_entries days _ r Hin) as (row & Hr & He).
  exists row. split; [exact Hr|].
  destruct (entry_of_spec row r He) as (Hi & _ & Hpv & _).
  split; [symmetry; exact Hi | exact Hpv].
Qed.

Lemma X15_witness :
  exists r row,
    nth_error (GreedyV2.run sunny_then_dark_days) 0 = Some r /\
    In row (concat sunny_then_dark_days) /\
    GreedyV2.Charge_PV_kWh r + GreedyV2.Export_PV_kWh r
      + GreedyV2.Curtail_kWh r == GreedyV2.PV_Energy_kWh row.
Proof.
  assert (Hn : nth_error (GreedyV2.run sunny_then_dark_days) 0
               = Some (nth 0 (GreedyV2.run sunny_then_dark_days)
                         (GreedyV2.mkResult 0 0 0 0 0 0 0 0 GreedyV2.Error)))
    by (vm_compute; reflexivity).
  destruct (X15_daily_generation_is_accounted_for sunny_then_dark_days _
              (nth_error_In _ _ Hn)) as (row & Hr & _ & Hpv).
  eexists. exists row. split; [exact Hn|]. split; assumption.
Defined.

(** X16.  In every result of the day-partitioned heuristic the export
    (from generation and from the battery together) is at most the grid
    export limit NEL for the period, and it is zero when the price of
    the row is at or below the LGC price. *)
Theorem X16_daily_export_respects_limit_and_floor
    (days : list (list GreedyV2.Row)) (r : GreedyV2.Result)
    (Hin : In r (GreedyV2.run days)) :
  GreedyV2.Export_PV_kWh r + GreedyV2.Export_Battery_kWh r
    <= GreedyV2.NEL * GreedyV2.INTERVAL_HOURS /\
  exists row,
    In row (concat days) /\ GreedyV2.index row = GreedyV2.r_index r /\
    (GreedyV2.RRP_MWh row <= GreedyV2.LGC ->
     GreedyV2.Export_PV_kWh r == 0 /\ GreedyV2.Export_Battery_kWh r == 0).
Proof.
  destruct (run_days_entries days _ r Hin) as (row & Hr & He).
  destruct (entry_of_spec row r He) as (Hi & _ & _ & Hfloor & Hnel & _).
  split; [exact Hnel|].
  exists row. split; [exact Hr|]. split; [symmetry; exact Hi | exact Hfloor].
Qed.

Lemma X16_witness :
  exists r,
    nth_error (GreedyV2.run sunny_then_dark_days) 2 = Some r /\
    GreedyV2.Export_PV_kWh r + GreedyV2.Export_Battery_kWh r
      <= GreedyV2.NEL * GreedyV2.INTERVAL_HOURS.
Proof.
  assert (Hn : nth_error (GreedyV2.run sunny_then_dark_days) 2
               = Some (nth 2 (GreedyV2.run sunny_then_dark_days)
                         (GreedyV2.mkResult 0 0 0 0 0 0 0 0 GreedyV2.Error)))
    by (vm_compute; reflexivity).
  eexists. split; [exact Hn|].
  exact (proj1 (X16_daily_export_respects_limit_and_floor
                  sunny_then_dark_days _ (nth_error_In _ _ Hn))).
Defined.

(** X17.  In every result of the day-partitioned heuristic the battery
    either does not charge, or it does not discharge and the row has an
    irradiance above the charging threshold of 10 W/m2: charging periods
    take no part in discharging and discharging periods none in
    charging. *)
Theorem X17_daily_charging_and_discharging_are_separate
    (days : list (list GreedyV2.Row)) (r : GreedyV2.Result)
    (Hin : In r (GreedyV2.run days)) :
  (GreedyV2.Charge_PV_kWh r == 0 /\ GreedyV2.Charge_Grid_kWh r == 0)
  \/ (GreedyV2.Discharge_kWh r == 0 /\ GreedyV2.Export_Battery_kWh r == 0 /\
      exists row,
        In row (concat days) /\ GreedyV2.index row = GreedyV2.r_index r /\
        GreedyV2.POA_CHARGE_THRESHOLD < GreedyV2.POA row).
Proof.
  destruct (run_days_entries days _ r Hin) as (row & Hr & He).
  destruct (entry_of_spec row r He) as (Hi & _ & _ & _ & _ & [H|(Hd & Hb & Hc)]).
  - left. exact H.
  - right. split; [exact Hd|]. split; [exact Hb|].
    exists row. split; [exact Hr|]. split; [symmetry; exact Hi|].
    unfold GreedyV2.Can_Charge in Hc.
    destruct (Qltb_spec GreedyV2.POA_CHARGE_THRESHOLD (GreedyV2.POA row));
      [assumption | discriminate].
Qed.

Lemma X17_witness :
  exists r,
    nth_error (GreedyV2.run sunny_then_dark_days) 1 = Some r /\
    ((GreedyV2.Charge_PV_kWh r == 0 /\ GreedyV2.Charge_Grid_kWh r == 0)
     \/ (GreedyV2.Discharge_kWh r == 0 /\ GreedyV2.Export_Battery_kWh r == 0 /\
         exists row,
           In row (concat sunny_then_dark_days) /\
           GreedyV2.index row = GreedyV2.r_index r /\
           GreedyV2.POA_CHARGE_THRESHOLD < GreedyV2.POA row)).
Proof.
  assert (Hn : nth_error (GreedyV2.run sunny_then_dark_days) 1
               = Some (nth 1 (GreedyV2.run sunny_then_dark_days)
                         (GreedyV2.mkResult 0 0 0 0 0 0 0 0 GreedyV2.Error)))
    by (vm_compute; reflexivity).
  eexists. split; [exact Hn|].
  exact (X17_daily_charging_and_discharging_are_separate
           sunny_then_dark_days _ (nth_error_In _ _ Hn)).
Defined.


(** ** The daytime optimizer *)

Section DaytimeRun.

Import DaytimeOptimizer.

Variable p : Params.
Let c := base p.
Hypothesis Hphys : physical c.

Lemma daytime_decide_facts rrp_75 chp soc row :
  let '(ch, dis, imp, ex, cu, act) := decide p rrp_75 chp soc row in
  ((0 < ch -> dis == 0) /\ (0 < dis -> ch == 0)) /\
  ch <= P_charge_max c /\ dis <= P_discharge_max c /\
  (0 < cu -> rrp row <= min_export_price p) /\
  (0 < dis -> chp = false /\ poa row <= 5 /\ rrp_75 < rrp row /\
              0.1 * E_capacity c < soc /\ ex == dis) /\
  (0 < imp -> chp = true /\ pv_power row < P_charge_max c /\
              ch == pv_power row + imp) /\
  (0 < ch -> chp = true) /\
  (0 <= pv_power row -> 0 <= ex).
Proof.
  destruct Hphys as (Hcap & Hcm & Hdm & _ & Hed & _).
  assert (Hdis : 0.1 * E_capacity c < soc ->
                 0 <= pymin (P_discharge_max c) (soc * eta_d c / dt)).
  { intros Hs. apply pymin_glb; [exact Hdm|].
    apply div_nonneg; [exact dt_pos|]. apply Qmult_le_0_compat; lra. }
  unfold decide. fold c. cbv zeta.
  destruct chp.
  - set (m := pymin (P_charge_max c) ((E_capacity c - soc) / (dt * eta_c c))).
    pose proof (pymin_le_l (P_charge_max c)
                  ((E_capacity c - soc) / (dt * eta_c c))) as Hm.
    fold m in Hm.
    destruct (Qltb_spec (pv_power row) m).
    + pose proof (pymin_le_r (m - pv_power row)
                    (P_charge_max c - pv_power row)) as Hn.
      repeat split; intros; try lra; try reflexivity.
    + destruct (Qltb_spec (min_export_price p) (rrp row));
        repeat split; intros; try lra; try reflexivity.
  - destruct (Qltb_spec 5 (poa row)).
    + destruct (Qltb_spec (min_export_price p) (rrp row));
        repeat split; intros; try lra; try reflexivity.
    + destruct (Qltb_spec rrp_75 (rrp row));
        destruct (Qltb_spec (0.1 * E_capacity c) soc); simpl;
        repeat split; intros; try lra; try reflexivity;
        try apply pymin_le_l; try (apply Hdis; assumption).
Qed.

End DaytimeRun.


Section DaytimeDays.

Import DaytimeOptimizer.

Variable p : Params.
Let c := base p.
Hypothesis Hphys : physical c.

Lemma daytime_step_within rrp_75 chs soc prev idx row :
  daytime_within p (step p rrp_75 chs soc prev idx row).
Proof.
  unfold daytime_within, step. cbv zeta.
  pose proof (daytime_decide_facts p Hphys rrp_75
                (existsb (Nat.eqb idx) chs) soc row) as H.
  destruct (decide p rrp_75 (existsb (Nat.eqb idx) chs) soc row)
    as [[[[[ch dis] imp] ex] cu] act].
  destruct H as ([Hx1 Hx2] & Hc & Hd & _). fold c. simpl.
  split; [|tauto].
  unfold soc_update. apply np_clip_bounds. apply Hphys.
Qed.

Lemma day_loop_within rrp_75 chs rows : forall soc prev,
  0 <= soc <= E_capacity c ->
  Forall (daytime_within p) (fst (day_loop p rrp_75 chs soc prev rows)) /\
  0 <= snd (day_loop p rrp_75 chs soc prev rows) <= E_capacity c.
Proof.
  induction rows as [|[idx row] rest IH]; intros soc prev Hs; simpl.
  - split; [constructor | exact Hs].
  - pose proof (daytime_step_within rrp_75 chs soc prev idx row) as He.
    destruct (IH (Daytime.SOC (decision (step p rrp_75 chs soc prev idx row)))
                 (Daytime.P_grid_export
                    (decision (step p rrp_75 chs soc prev idx row))))
      as [Hall Hend]; [apply He|].
    destruct (day_loop p rrp_75 chs _ _ rest) as [es soc_end].
    simpl in *. split; [constructor; assumption | exact Hend].
Qed.

Lemma optimize_single_day_within day_data soc :
  0 <= soc <= E_capacity c ->
  Forall (daytime_within p) (fst (optimize_single_day p day_data soc)) /\
  (forall s, snd (optimize_single_day p day_data soc) = Some s ->
             0 <= s <= E_capacity c).
Proof.
  intros Hs. unfold optimize_single_day. cbv zeta.
  destruct (filter _ (combine (seq 0 (length day_data)) day_data))
    as [|x l].
  - simpl. split; [|intros s H; discriminate].
    apply Forall_forall. intros e Hin. apply in_map_iff in Hin.
    destruct Hin as (r & <- & _). unfold daytime_within. cbv zeta. simpl.
    destruct Hphys as (Hcap & Hcm & Hdm & _).
    fold c. repeat split; try lra; intros; lra.
  - match goal with |- context [day_loop p ?q ?chs soc 0 ?rows] =>
      destruct (day_loop_within q chs rows soc 0 Hs) as [Hall Hend];
      destruct (day_loop p q chs soc 0 rows) as [es soc_end] end.
    simpl in *. split; [exact Hall|].
    intros s H. inversion H; subst s. exact Hend.
Qed.

Lemma days_loop_within days : forall day_idx prev_day_soc,
  (forall s, prev_day_soc = Some s -> 0 <= s <= E_capacity c) ->
  Forall (daytime_within p) (days_loop p day_idx prev_day_soc days).
Proof.
  induction days as [|day rest IH]; intros day_idx prev Hprev; simpl.
  - constructor.
  - assert (Hs : 0 <= start_soc p day_idx prev <= E_capacity c).
    { unfold start_soc. fold c.
      destruct day_idx; [apply initial_state_within; exact Hphys|].
      destruct prev as [s|]; [apply Hprev; reflexivity|].
      apply initial_state_within; exact Hphys. }
    destruct (optimize_single_day_within day (start_soc p day_idx prev) Hs)
      as [Hall Hst].
    destruct (optimize_single_day p day (start_soc p day_idx prev))
      as [entries stored]. simpl in *.
    apply Forall_app. split; [exact Hall|].
    apply IH. intros s H. destruct stored as [s'|].
    + inversion H; subst s'. apply Hst. reflexivity.
    + apply Hprev. exact H.
Qed.

End DaytimeDays.

(** X18.  Under a physical configuration every entry the daytime
    optimizer writes, over the whole horizon, keeps the state between 0
    and the capacity, charges at most at the charge limit, discharges at
    most at the discharge limit, and never charges and discharges in the
    same period. *)
Theorem X18_daytime_entries_within_limits (p : DaytimeOptimizer.Params)
    (days : list (list Row)) (e : DaytimeOptimizer.Entry)
    (Hphys : physical (DaytimeOptimizer.base p))
    (Hin : In e (DaytimeOptimizer.optimize_daily p days)) :
  let c := DaytimeOptimizer.base p in
  let d := DaytimeOptimizer.decision e in
  0 <= Daytime.SOC d <= E_capacity c /\
  Daytime.P_charge d <= P_charge_max c /\
  Daytime.P_discharge d <= P_discharge_max c /\
  (0 < Daytime.P_charge d -> Daytime.P_discharge d == 0) /\
  (0 < Daytime.P_discharge d -> Daytime.P_charge d == 0).
Proof.
  pose proof (days_loop_within p Hphys days 0 None) as H.
  rewrite Forall_forall in H. apply (H ltac:(intros s Hs; discriminate) e Hin).
Qed.


Section DaytimeSingleDay.

Import DaytimeOptimizer.

Lemma filter_nil_of {A} (f : A -> bool) (l : list A) :
  (forall x, In x l -> f x = false) -> filter f l = [].
Proof.
  induction l as [|x l IH]; intros H; simpl; [reflexivity|].
  rewrite (H x (or_introl eq_refl)). apply IH. intros y Hy. apply H. now right.
Qed.

Lemma nth_error_combine_seq {A} (l : list A) : forall k i idx x,
  nth_error (combine (seq k (length l)) l) i = Some (idx, x) ->
  idx = (k + i)%nat /\ nth_error l i = Some x.
Proof.
  induction l as [|y l IH]; intros k i idx x H; simpl in H.
  - destruct i; discriminate.
  - destruct i as [|i]; simpl in H.
    + inversion H. split; [lia | reflexivity].
    + destruct (IH (S k) i idx x H) as [-> Hn]. split; [lia | exact Hn].
Qed.

Lemma nth_error_combine_seq_of {A} (l : list A) : forall k i x,
  nth_error l i = Some x ->
  nth_error (combine (seq k (length l)) l) i = Some ((k + i)%nat, x).
Proof.
  induction l as [|y l IH]; intros k i x H.
  - destruct i; discriminate.
  - destruct i as [|i]; simpl in *.
    + inversion H. now rewrite Nat.add_0_r.
    + rewrite (IH (S k) i x H). f_equal. f_equal. lia.
Qed.

Lemma insert_by_rrp_In x y l : In x (insert_by_rrp y l) -> x = y \/ In x l.
Proof.
  induction l as [|z l IH]; simpl.
  - intros [H|[]]; auto.
  - destruct (rrp (snd y) <? rrp (snd z)); simpl.
    + intros [H|[H|H]]; auto.
    + intros [H|H]; auto. destruct (IH H); auto.
Qed.

Lemma sort_by_rrp_In x l : In x (sort_by_rrp l) -> In x l.
Proof.
  unfold sort_by_rrp.
  assert (G : forall l acc,
            In x (fold_left (fun a y => insert_by_rrp y a) l acc)
            -> In x acc \/ In x l).
  { clear l. induction l as [|y l IH]; simpl; intros acc H; auto.
    destruct (IH _ H) as [H'|H']; auto.
    destruct (insert_by_rrp_In _ _ _ H'); auto. }
  intros H. destruct (G l [] H) as [[]|H']; exact H'.
Qed.

Lemma select_charging_In p sorted : forall target acc idx,
  In idx (select_charging p sorted target acc) ->
  exists row, In (idx, row) sorted.
Proof.
  induction sorted as [|[i r] rest IH]; intros target acc idx H; simpl in H.
  - contradiction.
  - destruct (acc <? target); [|contradiction].
    destruct H as [<-|H]; [exists r; now left|].
    match type of H with
    | In _ (if ?b then _ else _) => destruct b; [|contradiction]
    end.
    destruct (IH _ _ _ H) as (row & Hr). exists row. now right.
Qed.

Lemma day_loop_nth p rrp_75 chs rows : forall soc prev i idx row e,
  nth_error rows i = Some (idx, row) ->
  nth_error (fst (day_loop p rrp_75 chs soc prev rows)) i = Some e ->
  exists soc' prev', e = step p rrp_75 chs soc' prev' idx row.
Proof.
  induction rows as [|[j r] rest IH]; intros soc prev i idx row e Hr He.
  - destruct i; discriminate.
  - simpl in He.
    destruct (day_loop p rrp_75 chs
                (Daytime.SOC (decision (step p rrp_75 chs soc prev j r)))
                (Daytime.P_grid_export
                   (decision (step p rrp_75 chs soc prev j r))) rest)
      as [es soc_end] eqn:E.
    destruct i as [|i]; simpl in Hr, He.
    + inversion Hr; subst. inversion He. now exists soc, prev.
    + apply (IH (Daytime.SOC (decision (step p rrp_75 chs soc prev j r)))
                (Daytime.P_grid_export
                   (decision (step p rrp_75 chs soc prev j r)))
                i idx row e Hr).
      rewrite E. exact He.
Qed.

(** The charging periods are positions of rows with POA above 10. *)
Lemma charging_periods_are_sunny p day_data soc idx :
  In idx (select_charging p
            (sort_by_rrp (filter (fun ir => 10 <? poa (snd ir))
                            (combine (seq 0 (length day_data)) day_data)))
            (E_capacity (base p) - soc) 0) ->
  exists row, nth_error day_data idx = Some row /\ 10 < poa row.
Proof.
  intros H. apply select_charging_In in H. destruct H as (row & Hr).
  apply sort_by_rrp_In in Hr. apply filter_In in Hr. destruct Hr as [Hr Hp].
  apply In_nth_error in Hr. destruct Hr as [i Hi].
  apply nth_error_combine_seq in Hi. destruct Hi as [-> Hn].
  exists row. split; [exact Hn|].
  simpl in Hp. destruct (Qltb_spec 10 (poa row)); [assumption|discriminate].
Qed.

End DaytimeSingleDay.

(** X19.  On a day on which no irradiance exceeds 10 W/m2 the daytime
    optimizer does nothing: every entry has zero charge, discharge,
    import, export and curtailment whatever the prices and the
    generation, the state stays where the day started, and the day
    stores no state for the next one. *)
Theorem X19_daytime_day_without_sun (p : DaytimeOptimizer.Params)
    (day_data : list Row) (soc : Q)
    (Hdark : forall row, In row day_data -> poa row <= 10) :
  DaytimeOptimizer.optimize_single_day p day_data soc
  = (map (fun _ => DaytimeOptimizer.mkEntry
                     (DaytimeOptimizer.zero_decision soc)
                     (soc / E_capacity (DaytimeOptimizer.base p) * 100)
                     DaytimeOptimizer.idle) day_data,
     None).
Proof.
  unfold DaytimeOptimizer.optimize_single_day. cbv zeta.
  rewrite filter_nil_of; [reflexivity|].
  intros [i row] Hin. apply in_combine_r in Hin. simpl.
  specialize (Hdark row Hin).
  destruct (Qltb_spec 10 (poa row)); [lra | reflexivity].
Qed.

(** X20.  Within a day of the daytime optimizer: generation is curtailed
    only at a price at or below the minimum export price; the battery
    discharges only in a period with POA at most 5 W/m2 and a price
    above the upper quartile of the day's prices; it charges only in a
    period with POA above 10 W/m2; and it imports only when the
    generation is below the charge limit, the import being the charge
    minus the generation. *)
Theorem X20_daytime_when_each_action_happens (p : DaytimeOptimizer.Params)
    (day_data : list Row) (soc : Q) (i : nat) (row : Row)
    (e : DaytimeOptimizer.Entry)
    (Hphys : physical (DaytimeOptimizer.base p))
    (Hrow : nth_error day_data i = Some row)
    (He : nth_error (fst (DaytimeOptimizer.optimize_single_day p day_data soc))
            i = Some e) :
  let d := DaytimeOptimizer.decision e in
  (0 < Daytime.P_pv_curtail d ->
     rrp row <= DaytimeOptimizer.min_export_price p) /\
  (0 < Daytime.P_discharge d ->
     poa row <= 5 /\ quantile (map rrp day_data) 0.75 < rrp row) /\
  (0 < Daytime.P_charge d -> 10 < poa row) /\
  (0 < Daytime.P_grid_import d ->
     pv_power row < P_charge_max (DaytimeOptimizer.base p) /\
     Daytime.P_charge d == pv_power row + Daytime.P_grid_import d).
Proof.
  intros d. subst d.
  unfold DaytimeOptimizer.optimize_single_day in He. cbv zeta in He.
  destruct (filter (fun ir => 10 <? poa (snd ir))
              (combine (seq 0 (length day_data)) day_data)) as [|x l] eqn:Ef.
  - simpl in He. rewrite nth_error_map, Hrow in He. simpl in He.
    inversion He. simpl. repeat split; intros; lra.
  - rewrite <- Ef in He.
    set (chs := DaytimeOptimizer.select_charging p
                  (DaytimeOptimizer.sort_by_rrp
                     (filter (fun ir => 10 <? poa (snd ir))
                        (combine (seq 0 (length day_data)) day_data)))
                  (E_capacity (DaytimeOptimizer.base p) - soc) 0) in *.
    set (q := quantile (map rrp day_data) 0.75) in *.
    pose proof (nth_error_combine_seq_of day_data 0 i row Hrow) as Hi.
    simpl in Hi.
    destruct (DaytimeOptimizer.day_loop p q chs soc 0
                (combine (seq 0 (length day_data)) day_data))
      as [es soc_end] eqn:El.
    simpl in He.
    destruct (day_loop_nth p q chs _ soc 0 i i row e Hi) as (soc' & prev' & ->).
    { rewrite El. exact He. }
    unfold DaytimeOptimizer.step.
    pose proof (daytime_decide_facts p Hphys q
                  (existsb (Nat.eqb i) chs) soc' row) as H.
    destruct (DaytimeOptimizer.decide p q (existsb (Nat.eqb i) chs) soc' row)
      as [[[[[ch dis] imp] ex] cu] act].
    destruct H as (_ & _ & _ & Hcu & Hdis & Himp & Hch & _). simpl.
    split; [exact Hcu|]. split; [intros Hp; specialize (Hdis Hp); tauto|].
    split; [|intros Hp; specialize (Himp Hp); tauto].
    intros Hp. specialize (Hch Hp). apply existsb_exists in Hch.
    destruct Hch as (j & Hj & Hij). apply Nat.eqb_eq in Hij. subst j.
    destruct (charging_periods_are_sunny p day_data soc i Hj) as (row' & Hr' & Hs).
    rewrite Hrow in Hr'. inversion Hr'; subst row'. exact Hs.
Qed.

Section DaytimeRamp.

Import DaytimeOptimizer.

Variable p : Params.
Let c := base p.
Hypothesis Hphys : physical c.
Hypothesis Hramp : 0 <= ramp_rate c.

Lemma daytime_ramp_adjust_spec prev ex :
  0 <= prev -> 0 <= ex ->
  0 <= ramp_adjust c prev ex /\
  pyabs (ramp_adjust c prev ex - prev) <= max_ramp c.
Proof.
  intros Hp He. pose proof (max_ramp_nonneg c Hramp) as Hm.
  unfold ramp_adjust, pyabs, pymax.
  qcases; split; lra.
Qed.

Lemma daytime_step_ramp rrp_75 chs soc prev idx row :
  0 <= prev -> 0 <= pv_power row ->
  let e := step p rrp_75 chs soc prev idx row in
  0 <= Daytime.P_grid_export (decision e) /\
  pyabs (Daytime.P_grid_export (decision e) - prev) <= max_ramp c.
Proof.
  intros Hp Hpv. unfold step.
  pose proof (daytime_decide_facts p Hphys rrp_75
                (existsb (Nat.eqb idx) chs) soc row) as H.
  destruct (decide p rrp_75 (existsb (Nat.eqb idx) chs) soc row)
    as [[[[[ch dis] imp] ex] cu] act].
  destruct H as (_ & _ & _ & _ & _ & _ & _ & Hex). simpl. fold c.
  apply daytime_ramp_adjust_spec; [exact Hp | exact (Hex Hpv)].
Qed.

Lemma day_loop_ramp rrp_75 chs rows : forall soc prev,
  0 <= prev -> (forall ir, In ir rows -> 0 <= pv_power (snd ir)) ->
  (forall e, nth_error (fst (day_loop p rrp_75 chs soc prev rows)) 0 = Some e ->
     pyabs (Daytime.P_grid_export (decision e) - prev) <= max_ramp c) /\
  (forall i e0 e1,
     nth_error (fst (day_loop p rrp_75 chs soc prev rows)) i = Some e0 ->
     nth_error (fst (day_loop p rrp_75 chs soc prev rows)) (S i) = Some e1 ->
     pyabs (Daytime.P_grid_export (decision e1)
            - Daytime.P_grid_export (decision e0)) <= max_ramp c).
Proof.
  induction rows as [|[idx row] rest IH]; intros soc prev Hp Hpv.
  - split; intros; destruct i || idtac; discriminate.
  - assert (Hrow : 0 <= pv_power row)
      by (apply (Hpv (idx, row)); now left).
    destruct (daytime_step_ramp rrp_75 chs soc prev idx row Hp Hrow)
      as [Hnn Hr].
    destruct (IH (Daytime.SOC (decision (step p rrp_75 chs soc prev idx row)))
                 (Daytime.P_grid_export
                    (decision (step p rrp_75 chs soc prev idx row))) Hnn)
      as [H0 Hs]; [intros ir Hin; apply Hpv; now right|].
    simpl.
    destruct (day_loop p rrp_75 chs
                (Daytime.SOC (decision (step p rrp_75 chs soc prev idx row)))
                (Daytime.P_grid_export
                   (decision (step p rrp_75 chs soc prev idx row))) rest)
      as [es soc_end].
    simpl in *. split.
    + intros e He. inversion He; subst e. exact Hr.
    + intros i e0 e1 He0 He1. destruct i as [|i]; simpl in He0, He1.
      * inversion He0; subst e0. apply H0. exact He1.
      * apply (Hs i e0 e1 He0 He1).
Qed.

End DaytimeRamp.

(** X21.  Under a physical configuration with a non-negative ramp rate
    and non-negative generation, the export the daytime optimizer writes
    changes by at most the ramp limit between consecutive periods of a
    day, and the first export of a day is at most the ramp limit. *)
Theorem X21_daytime_ramp_within_a_day (p : DaytimeOptimizer.Params)
    (day_data : list Row) (soc : Q)
    (Hphys : physical (DaytimeOptimizer.base p))
    (Hramp : 0 <= ramp_rate (DaytimeOptimizer.base p))
    (Hpv : forall row, In row day_data -> 0 <= pv_power row) :
  let entries := fst (DaytimeOptimizer.optimize_single_day p day_data soc) in
  let export e := Daytime.P_grid_export (DaytimeOptimizer.decision e) in
  (forall e, nth_error entries 0 = Some e ->
     pyabs (export e - 0) <= max_ramp (DaytimeOptimizer.base p)) /\
  (forall i e0 e1,
     nth_error entries i = Some e0 -> nth_error entries (S i) = Some e1 ->
     pyabs (export e1 - export e0) <= max_ramp (DaytimeOptimizer.base p)).
Proof.
  intros entries export. subst entries export.
  pose proof (max_ramp_nonneg _ Hramp) as Hm.
  unfold DaytimeOptimizer.optimize_single_day. cbv zeta.
  destruct (filter (fun ir => 10 <? poa (snd ir))
              (combine (seq 0 (length day_data)) day_data)) as [|x l] eqn:Ef.
  - cbn [fst]. split.
    + intros e He. rewrite nth_error_map in He.
      destruct (nth_error day_data 0); [|discriminate].
      simpl in He. inversion He. simpl. unfold pyabs. qcases; lra.
    + intros i e0 e1 H0 H1. rewrite nth_error_map in H0, H1.
      destruct (nth_error day_data i); [|discriminate].
      destruct (nth_error day_data (S i)); [|discriminate].
      simpl in H0, H1. inversion H0. inversion H1. simpl.
      unfold pyabs. qcases; lra.
  - rewrite <- Ef.
    match goal with |- context [DaytimeOptimizer.day_loop p ?q ?chs soc 0 ?rows] =>
      pose proof (day_loop_ramp p Hphys Hramp q chs rows soc 0) as H;
      destruct (DaytimeOptimizer.day_loop p q chs soc 0 rows)
        as [es soc_end] end.
    simpl in *. apply H; [lra|].
    intros [i r] Hin. apply in_combine_r in Hin. simpl. apply Hpv. exact Hin.
Qed.

Lemma daytime_params_physical : physical (DaytimeOptimizer.base daytime_params).
Proof. unfold physical. repeat split; vm_compute; discriminate. Qed.

Lemma X18_witness :
  exists e,
    nth_error (DaytimeOptimizer.optimize_daily daytime_params
                 [sunny_day; overcast_day]) 1 = Some e /\
    Daytime.P_charge (DaytimeOptimizer.decision e)
      <= P_charge_max (DaytimeOptimizer.base daytime_params) /\
    0 <= Daytime.SOC (DaytimeOptimizer.decision e)
      <= E_capacity (DaytimeOptimizer.base daytime_params).
Proof.
  assert (Hn : nth_error (DaytimeOptimizer.optimize_daily daytime_params
                            [sunny_day; overcast_day]) 1
               = Some (nth 1 (DaytimeOptimizer.optimize_daily daytime_params
                                [sunny_day; overcast_day])
                         (DaytimeOptimizer.mkEntry
                            (DaytimeOptimizer.zero_decision 0) 0
                            DaytimeOptimizer.idle)))
    by (vm_compute; reflexivity).
  eexists. split; [exact Hn|].
  destruct (X18_daytime_entries_within_limits daytime_params
              [sunny_day; overcast_day] _ daytime_params_physical
              (nth_error_In _ _ Hn)) as (Hs & Hc & _).
  split; [exact Hc | exact Hs].
Defined.

Lemma X19_witness :
  DaytimeOptimizer.optimize_single_day daytime_params overcast_day 40
  = (map (fun _ => DaytimeOptimizer.mkEntry
                     (DaytimeOptimizer.zero_decision 40)
                     (40 / E_capacity (DaytimeOptimizer.base daytime_params)
                      * 100)
                     DaytimeOptimizer.idle) overcast_day,
     None).
Proof.
  apply (X19_daytime_day_without_sun daytime_params overcast_day 40).
  intros row Hin. simpl in Hin.
  destruct Hin as [<-|[<-|[]]]; vm_compute; discriminate.
Defined.

Lemma X20_witness :
  exists row e,
    nth_error sunny_day 1 = Some row /\
    nth_error (fst (DaytimeOptimizer.optimize_single_day daytime_params
                      sunny_day 0)) 1 = Some e /\
    0 < Daytime.P_charge (DaytimeOptimizer.decision e) /\
    10 < poa row.
Proof.
  assert (Hn : nth_error (fst (DaytimeOptimizer.optimize_single_day
                                 daytime_params sunny_day 0)) 1
               = Some (nth 1 (fst (DaytimeOptimizer.optimize_single_day
                                     daytime_params sunny_day 0))
                         (DaytimeOptimizer.mkEntry
                            (DaytimeOptimizer.zero_decision 0) 0
                            DaytimeOptimizer.idle)))
    by (vm_compute; reflexivity).
  assert (Hr : nth_error sunny_day 1 = Some (nth 1 sunny_day (mkRow 0 0 0)))
    by reflexivity.
  destruct (X20_daytime_when_each_action_happens daytime_params sunny_day 0
              1%nat _ _ daytime_params_physical Hr Hn) as (_ & _ & Hch & _).
  do 2 eexists. split; [exact Hr|]. split; [exact Hn|].
  assert (Hpos : 0 < Daytime.P_charge (DaytimeOptimizer.decision
            (nth 1 (fst (DaytimeOptimizer.optimize_single_day
                           daytime_params sunny_day 0))
                 (DaytimeOptimizer.mkEntry
                    (DaytimeOptimizer.zero_decision 0) 0
                    DaytimeOptimizer.idle))))
    by (vm_compute; reflexivity).
  split; [exact Hpos | exact (Hch Hpos)].
Defined.

Lemma X21_witness :
  exists e0 e1,
    nth_error (fst (DaytimeOptimizer.optimize_single_day daytime_params
                      sunny_day 0)) 1 = Some e0 /\
    nth_error (fst (DaytimeOptimizer.optimize_single_day daytime_params
                      sunny_day 0)) 2 = Some e1 /\
    pyabs (Daytime.P_grid_export (DaytimeOptimizer.decision e1)
           - Daytime.P_grid_export (DaytimeOptimizer.decision e0))
      <= max_ramp (DaytimeOptimizer.base daytime_params).
Proof.
  assert (H1 : nth_error (fst (DaytimeOptimizer.optimize_single_day
                                 daytime_params sunny_day 0)) 1
               = Some (nth 1 (fst (DaytimeOptimizer.optimize_single_day
                                     daytime_params sunny_day 0))
                         (DaytimeOptimizer.mkEntry
                            (DaytimeOptimizer.zero_decision 0) 0
                            DaytimeOptimizer.idle)))
    by (vm_compute; reflexivity).
  assert (H2 : nth_error (fst (DaytimeOptimizer.optimize_single_day
                                 daytime_params sunny_day 0)) 2
               = Some (nth 2 (fst (DaytimeOptimizer.optimize_single_day
                                     daytime_params sunny_day 0))
                         (DaytimeOptimizer.mkEntry
                            (DaytimeOptimizer.zero_decision 0) 0
                            DaytimeOptimizer.idle)))
    by (vm_compute; reflexivity).
  assert (Hr : 0 <= ramp_rate (DaytimeOptimizer.base daytime_params))
    by (vm_compute; discriminate).
  assert (Hpv : forall row, In row sunny_day -> 0 <= pv_power row).
  { intros row Hin. simpl in Hin.
    destruct Hin as [<-|[<-|[<-|[<-|[]]]]]; vm_compute; discriminate. }
  do 2 eexists. split; [exact H1|]. split; [exact H2|].
  exact (proj2 (X21_daytime_ramp_within_a_day daytime_params sunny_day 0
                  daytime_params_physical Hr Hpv) 1%nat _ _ H1 H2).
Defined.

(** ** The summary *)

Lemma Qsum_map_ext {A} (f g : A -> Q) l :
  (forall x, In x l -> f x == g x) -> Qsum (map f l) == Qsum (map g l).
Proof.
  induction l as [|x l IH]; intros H; simpl; [reflexivity|].
  rewrite (H x (or_introl eq_refl)), IH; [reflexivity|].
  intros y Hy. apply H. now right.
Qed.

Lemma Qsum_map_plus {A} (f g : A -> Q) l :
  Qsum (map (fun x => f x + g x) l) == Qsum (map f l) + Qsum (map g l).
Proof. induction l as [|x l IH]; simpl; [lra | rewrite IH; lra]. Qed.

Lemma Qsum_map_opp {A} (f : A -> Q) l :
  Qsum (map (fun x => - f x) l) == - Qsum (map f l).
Proof. induction l as [|x l IH]; simpl; [lra | rewrite IH; lra]. Qed.

Lemma Qsum_map_scale {A} (f : A -> Q) k l :
  Qsum (map (fun x => f x * k) l) == Qsum (map f l) * k.
Proof. induction l as [|x l IH]; simpl; [lra | rewrite IH; lra]. Qed.

Lemma Qsum_map_nonneg {A} (f : A -> Q) l :
  (forall x, In x l -> 0 <= f x) -> 0 <= Qsum (map f l).
Proof.
  induction l as [|x l IH]; intros H; simpl; [lra|].
  assert (0 <= f x) by (apply H; now left).
  assert (0 <= Qsum (map f l)) by (apply IH; intros y Hy; apply H; now right).
  lra.
Qed.

(** The summary is printed exactly for a non-empty frame. *)
Lemma print_summary_frame c data decisions s :
  print_summary c data decisions = Some s ->
  exists rd r, combine data decisions = rd :: r.
Proof.
  unfold print_summary. cbv zeta.
  destruct (combine data decisions) as [|rd r]; [discriminate|].
  intros _. exists rd, r. reflexivity.
Qed.

Section SeriesRange.

Variables lo hi : Q.

Lemma series_min_le_first l : forall x, series_min x l <= x.
Proof.
  unfold series_min. induction l as [|y l IH]; intros x; simpl; [lra|].
  pose proof (IH (pymin x y)). pose proof (pymin_le_l x y). lra.
Qed.

Lemma series_min_le_each l : forall x y, In y l -> series_min x l <= y.
Proof.
  unfold series_min. induction l as [|z l IH]; intros x y Hin; [destruct Hin|].
  simpl. destruct Hin as [->|Hin].
  - pose proof (series_min_le_first l (pymin x y)) as H.
    unfold series_min in H. pose proof (pymin_le_r x y). lra.
  - apply IH. exact Hin.
Qed.

Lemma series_min_lower l : forall x,
  lo <= x -> (forall y, In y l -> lo <= y) -> lo <= series_min x l.
Proof.
  unfold series_min. induction l as [|z l IH]; intros x Hx Hl; simpl;
    [exact Hx|].
  apply IH.
  - apply pymin_glb; [exact Hx | apply Hl; now left].
  - intros y Hy. apply Hl. now right.
Qed.

Lemma series_max_ge_first l : forall x, x <= series_max x l.
Proof.
  unfold series_max. induction l as [|y l IH]; intros x; simpl; [lra|].
  pose proof (IH (pymax x y)). pose proof (pymax_ge_l x y). lra.
Qed.

Lemma series_max_ge_each l : forall x y, In y l -> y <= series_max x l.
Proof.
  unfold series_max. induction l as [|z l IH]; intros x y Hin; [destruct Hin|].
  simpl. destruct Hin as [->|Hin].
  - pose proof (series_max_ge_first l (pymax x y)) as H.
    unfold series_max in H. pose proof (pymax_ge_r x y). lra.
  - apply IH. exact Hin.
Qed.

Lemma series_max_upper l : forall x,
  x <= hi -> (forall y, In y l -> y <= hi) -> series_max x l <= hi.
Proof.
  unfold series_max. induction l as [|z l IH]; intros x Hx Hl; simpl;
    [exact Hx|].
  apply IH.
  - assert (z <= hi) by (apply Hl; now left).
    unfold pymax. qcases; lra.
  - intros y Hy. apply Hl. now right.
Qed.

Lemma last_in_nonempty (l : list Q) : forall y x,
  In (last (y :: l) x) (y :: l).
Proof.
  induction l as [|z l IH]; intros y x; [now left|].
  change (last (y :: z :: l) x) with (last (z :: l) x).
  right. apply IH.
Qed.

Lemma last_first_or_in (l : list Q) x : last l x = x \/ In (last l x) l.
Proof.
  destruct l as [|y l]; [now left|]. right. apply last_in_nonempty.
Qed.

End SeriesRange.

(** The state of charge in percent of a produced schedule. *)
Lemma produced_soc_pct c data sched d :
  0 < E_capacity c -> produced c data sched -> In d sched ->
  0 <= SOC_pct d <= 100.
Proof.
  intros Hcap Hp Hin. apply In_nth_error in Hin. destruct Hin as [t Ht].
  assert (Hb : exists soc, 0 <= soc <= E_capacity c /\
                           SOC_pct d = soc / E_capacity c * 100).
  { destruct (produced_nth c data sched t d Hp Ht)
      as [(s & Hf & Hlt & ->)|(r25 & r75 & soc & prev & row & _ & ->)].
    - exists (Gurobi.SOC s t). split; [|reflexivity].
      apply (exact_soc_bounds c data s Hf). lia.
    - exists (SOC (greedy_step c r25 r75 soc prev row)). split.
      + apply greedy_step_soc_bounds. lra.
      + unfold greedy_step.
        destruct (decide c r25 r75 soc (pv_power row) (rrp row))
          as [[[ch dis] imp] ex]. reflexivity. }
  destruct Hb as (soc & Hs & ->).
  assert (H0 : 0 <= soc / E_capacity c) by (apply div_nonneg; lra).
  assert (H1 : soc / E_capacity c <= 1).
  { apply Qle_shift_div_r; [exact Hcap | lra]. }
  lra.
Qed.

(** X22.  For a non-empty frame the summary is printed, and its figures
    are consistent: the total revenue is the export revenue minus the
    import cost plus the incentive revenue, and the incentive revenue is
    the total generated energy times the incentive rate. *)
Theorem X22_summary_totals_add_up (c : Config) (data : list Row)
    (decisions : list Decision)
    (Hdata : data <> []) (Hdec : decisions <> []) :
  exists s,
    print_summary c data decisions = Some s /\
    total_revenue s
      == total_export_rev s - total_import_cost s + total_lgc s /\
    total_lgc s == total_pv_energy s * lgc_price c /\
    total_revenue s == total_net_revenue c data decisions.
Proof.
  destruct data as [|row data]; [contradiction|].
  destruct decisions as [|d decisions]; [contradiction|].
  unfold print_summary. cbv zeta.
  set (frame := combine (row :: data) (d :: decisions)).
  assert (Ef : map (fun rd => SOC_pct (snd rd)) frame
               = SOC_pct d
                 :: map (fun rd => SOC_pct (snd rd)) (combine data decisions))
    by reflexivity.
  rewrite Ef. eexists. split; [reflexivity|].
  cbn [total_revenue total_export_rev total_import_cost total_lgc
       total_pv_energy].
  split; [|split].
  - rewrite (Qsum_map_ext _
      (fun rd => (export_revenue (calculate_revenue c (fst rd) (snd rd))
                  + - import_cost (calculate_revenue c (fst rd) (snd rd)))
                 + lgc_revenue (calculate_revenue c (fst rd) (snd rd)))).
    2:{ intros rd _. simpl. lra. }
    rewrite (Qsum_map_plus
      (fun rd => export_revenue (calculate_revenue c (fst rd) (snd rd))
                 + - import_cost (calculate_revenue c (fst rd) (snd rd)))).
    rewrite (Qsum_map_plus
      (fun rd => export_revenue (calculate_revenue c (fst rd) (snd rd)))
      (fun rd => - import_cost (calculate_revenue c (fst rd) (snd rd)))).
    rewrite (Qsum_map_opp
      (fun rd => import_cost (calculate_revenue c (fst rd) (snd rd)))).
    lra.
  - rewrite (Qsum_map_ext _
      (fun rd => pv_power (fst rd) * (dt * lgc_price c))).
    2:{ intros rd _. simpl. ring. }
    rewrite Qsum_map_scale. ring.
  - reflexivity.
Qed.

Lemma X22_witness :
  exists s,
    print_summary default_config below_floor_rows
      (optimize_greedy default_config below_floor_rows) = Some s /\
    total_revenue s
      == total_export_rev s - total_import_cost s + total_lgc s /\
    total_lgc s == total_pv_energy s * lgc_price default_config.
Proof.
  destruct (X22_summary_totals_add_up default_config below_floor_rows
              (optimize_greedy default_config below_floor_rows))
    as (s & Hs & H1 & H2 & _); [discriminate | discriminate |].
  exists s. split; [exact Hs|]. split; [exact H1 | exact H2].
Defined.

(** X23.  When no decision imports a negative power, the negative-price
    block of the summary reports at least one period, an energy bought
    that is not negative and a benefit that is not negative. *)
Theorem X23_negative_price_benefit_is_not_negative (c : Config)
    (data : list Row) (decisions : list Decision) (s : Summary)
    (periods : nat) (bought benefit : Q)
    (Himp : forall d, In d decisions -> 0 <= P_grid_import d)
    (Hs : print_summary c data decisions = Some s)
    (Hneg : negative_price s = Some (periods, bought, benefit)) :
  (0 < periods)%nat /\ 0 <= bought /\ 0 <= benefit.
Proof.
  unfold print_summary in Hs. cbv zeta in Hs.
  destruct (map (fun rd => SOC_pct (snd rd)) (combine data decisions))
    as [|s0 rest]; [discriminate|].
  inversion Hs; subst s; clear Hs. cbn [negative_price] in Hneg.
  set (neg := filter (fun rd => rrp (fst rd) <? 0) (combine data decisions))
    in *.
  destruct (0 <? length neg)%nat eqn:El; [|discriminate].
  inversion Hneg; subst; clear Hneg.
  assert (Hd : forall rd, In rd neg ->
            rrp (fst rd) < 0 /\ 0 <= P_grid_import (snd rd)).
  { intros rd Hin. apply filter_In in Hin. destruct Hin as [Hin Hp].
    split.
    - destruct (Qltb_spec (rrp (fst rd)) 0); [assumption | discriminate].
    - apply Himp. destruct rd as [r d]. apply in_combine_r in Hin. exact Hin. }
  split; [apply Nat.ltb_lt; exact El|]. split.
  - apply Qmult_le_0_compat; [|pose proof dt_pos; lra].
    apply Qsum_map_nonneg. intros rd Hin. apply Hd. exact Hin.
  - rewrite <- Qsum_map_opp. apply Qsum_map_nonneg. intros rd Hin.
    destruct (Hd rd Hin) as [Hp Hi]. simpl.
    assert (H1 : 0 <= P_grid_import (snd rd) * dt)
      by (apply Qmult_le_0_compat; [exact Hi | pose proof dt_pos; lra]).
    assert (H2 : 0 <= (P_grid_import (snd rd) * dt) * (- rrp (fst rd)))
      by (apply Qmult_le_0_compat; lra).
    lra.
Qed.

Lemma X23_witness :
  exists s periods bought benefit,
    print_summary default_config below_floor_rows
      (optimize_greedy default_config below_floor_rows) = Some s /\
    negative_price s = Some (periods, bought, benefit) /\
    (0 < periods)%nat /\ 0 <= bought /\ 0 <= benefit.
Proof.
  assert (Hs : print_summary default_config below_floor_rows
                 (optimize_greedy default_config below_floor_rows)
               = Some (match print_summary default_config below_floor_rows
                               (optimize_greedy default_config
                                  below_floor_rows) with
                       | Some s => s
                       | None => mkSummary 0 0 0 0 0 0 0 0 0 None 0 0 0 0 0 None
                       end))
    by (vm_compute; reflexivity).
  do 4 eexists. split; [exact Hs|].
  assert (Himp : forall d,
            In d (optimize_greedy default_config below_floor_rows) ->
            0 <= P_grid_import d).
  { intros d Hin. simpl in Hin. destruct Hin as [<-|[]].
    vm_compute. discriminate. }
  assert (Hn : negative_price
                 (match print_summary default_config below_floor_rows
                          (optimize_greedy default_config below_floor_rows) with
                  | Some s => s
                  | None => mkSummary 0 0 0 0 0 0 0 0 0 None 0 0 0 0 0 None
                  end)
               = Some (1%nat, 250 * dt, 250 * dt * 0.05)).
  2:{ split; [exact Hn|].
      exact (X23_negative_price_benefit_is_not_negative default_config
               below_floor_rows _ _ _ _ _ Himp Hs Hn). }
  vm_compute. reflexivity.
Defined.

(** X24.  For a schedule produced by one of the two engines with a
    positive capacity, the state-of-charge range of the summary lies
    between 0 and 100 percent and contains the final state. *)
Theorem X24_summary_state_range (c : Config) (data : list Row)
    (sched : list Decision) (s : Summary)
    (Hcap : 0 < E_capacity c)
    (Hp : produced c data sched)
    (Hs : print_summary c data sched = Some s) :
  0 <= min_soc_pct s /\ min_soc_pct s <= final_soc_pct s /\
  final_soc_pct s <= max_soc_pct s /\ max_soc_pct s <= 100.
Proof.
  unfold print_summary in Hs. cbv zeta in Hs.
  destruct (map (fun rd => SOC_pct (snd rd)) (combine data sched))
    as [|s0 rest] eqn:Em; [discriminate|].
  inversion Hs; subst s; clear Hs.
  cbn [min_soc_pct final_soc_pct max_soc_pct].
  assert (Hall : forall y, In y (s0 :: rest) -> 0 <= y <= 100).
  { intros y Hy. rewrite <- Em in Hy. apply in_map_iff in Hy.
    destruct Hy as ([r d] & <- & Hin). apply in_combine_r in Hin.
    exact (produced_soc_pct c data sched d Hcap Hp Hin). }
  assert (H0 : 0 <= s0 <= 100) by (apply Hall; now left).
  assert (Hr : forall y, In y rest -> 0 <= y <= 100)
    by (intros y Hy; apply Hall; now right).
  split; [|split; [|split]].
  - apply series_min_lower; [apply H0 | intros y Hy; apply Hr; exact Hy].
  - destruct (last_first_or_in rest s0) as [->|Hl].
    + apply series_min_le_first.
    + apply series_min_le_each. exact Hl.
  - destruct (last_first_or_in rest s0) as [->|Hl].
    + apply series_max_ge_first.
    + apply series_max_ge_each. exact Hl.
  - apply series_max_upper; [apply H0 | intros y Hy; apply Hr; exact Hy].
Qed.

Lemma X24_witness :
  exists s,
    print_summary default_config below_floor_rows
      (optimize_greedy default_config below_floor_rows) = Some s /\
    0 <= min_soc_pct s /\ min_soc_pct s <= final_soc_pct s /\
    final_soc_pct s <= max_soc_pct s /\ max_soc_pct s <= 100.
Proof.
  assert (Hs : print_summary default_config below_floor_rows
                 (optimize_greedy default_config below_floor_rows)
               = Some (match print_summary default_config below_floor_rows
                               (optimize_greedy default_config
                                  below_floor_rows) with
                       | Some s => s
                       | None => mkSummary 0 0 0 0 0 0 0 0 0 None 0 0 0 0 0 None
                       end))
    by (vm_compute; reflexivity).
  eexists. split; [exact Hs|].
  apply (X24_summary_state_range default_config below_floor_rows
           (optimize_greedy default_config below_floor_rows) _);
    [reflexivity | apply produced_heuristic | exact Hs].
Defined.
